(** * realtime-call-agent: the per-call media orchestration engine

    A shallow embedding of the Python sources
      - [src/voice_caller/src/stt_handler.py]      (module [STT])
      - [src/voice_caller/src/tts_handler.py]      (module [TTS])
      - [src/voice_caller/src/llm_handler.py]      (module [LLM])
      - [src/voice_caller/src/websocket_server.py] (module [Server])
    together with the two pieces of the Python runtime they lean on:
    [str] methods (module [PyStr]) and [collections.deque] with a
    [maxlen] (module [Deque]).

    Conventions.
      - A Python [str] is a list of Unicode code points ([list N]), so that
        [len], [endswith], [strip] and indexing count what Python counts.
      - [bytes] values (audio frames) are lists of bytes.
      - Counters are Python ints that only ever count up from 0: [nat].
      - A coroutine that runs without suspension between two reads of the
        session is one function on the session record.  Remote services are
        scripts: what the service will answer is an argument of the function
        that talks to it.
      - An [Optional[Callable]] callback slot is a [bool] (registered or not);
        the handler returns the list of callback invocations it made, in
        order, and the session dispatches them ([Server.dispatch_stt],
        [Server.dispatch_tts]), as [_setup_callbacks] wires them.  The
        session's callbacks do not raise and do not suspend, so a handler's
        [except Exception] around them is never taken. *)

From Stdlib Require Import String Ascii List NArith Arith Bool Lia.
Import ListNotations.
Open Scope list_scope.

(* ------------------------------------------------------------------ *)
(** ** Python [str] *)

Module PyStr.

Definition str := list N.

(** A string literal of the source (ASCII only). *)
Definition lit (s : string) : str :=
  map N_of_ascii (list_ascii_of_string s).

(** Truth value of a string: [if s:] *)
Definition truthy (s : str) : bool :=
  match s with [] => false | _ :: _ => true end.

(** [str.isspace] on one code point: the characters [str.strip()] removes. *)
Definition isspace (c : N) : bool :=
  (((9 <=? c) && (c <=? 13)) || ((28 <=? c) && (c <=? 32))
   || (c =? 133) || (c =? 160) || (c =? 5760)
   || ((8192 <=? c) && (c <=? 8202))
   || (c =? 8232) || (c =? 8233) || (c =? 8239) || (c =? 8287)
   || (c =? 12288))%N.

Fixpoint lstrip (s : str) : str :=
  match s with
  | [] => []
  | c :: t => if isspace c then lstrip t else s
  end.

Definition rstrip (s : str) : str := rev (lstrip (rev s)).

Definition strip (s : str) : str := rstrip (lstrip s).

Fixpoint startswith (s pre : str) {struct pre} : bool :=
  match pre, s with
  | [], _ => true
  | _ :: _, [] => false
  | p :: pre', c :: s' => (c =? p)%N && startswith s' pre'
  end.

(** [s.endswith(suf)] *)
Definition endswith (s suf : str) : bool := startswith (rev s) (rev suf).

(** [s.endswith((a, b, ...))] *)
Definition endswith_any (s : str) (sufs : list str) : bool :=
  existsb (endswith s) sufs.

(** [s[-1]] for a non-empty [s] *)
Definition last_char (s : str) : option N :=
  match rev s with [] => None | c :: _ => Some c end.

(** [sep.join(parts)] *)
Fixpoint join (sep : str) (parts : list str) : str :=
  match parts with
  | [] => []
  | p :: ps =>
      match ps with
      | [] => p
      | _ :: _ => p ++ sep ++ join sep ps
      end
  end.

(** [s[:n]] *)
Definition take (n : nat) (s : str) : str := firstn n s.

Definition space : N := 32%N.
Definition newline : N := 10%N.
Definition dquote : N := 34%N.

End PyStr.

(* ------------------------------------------------------------------ *)
(** ** [collections.deque(maxlen=n)] *)

Module Deque.

Section WithElem.
Context {A : Type}.

Record deque := mk { items : list A; maxlen : nat }.

Definition empty (n : nat) : deque := mk [] n.

Definition len (d : deque) : nat := length (items d).

Definition truthy (d : deque) : bool :=
  match items d with [] => false | _ :: _ => true end.

(** [d.append(x)]: the item goes on the right; a deque that is over its
    [maxlen] afterwards gives up its leftmost item. *)
Definition append (x : A) (d : deque) : deque :=
  let l := items d ++ [x] in
  mk (if maxlen d <? length l then tl l else l) (maxlen d).

(** [d.popleft()] on a non-empty deque (the callers test it first). *)
Definition popleft (d : deque) : option (A * deque) :=
  match items d with
  | [] => None
  | x :: l => Some (x, mk l (maxlen d))
  end.

(** [d.clear()] *)
Definition clear (d : deque) : deque := mk [] (maxlen d).

End WithElem.

Arguments deque : clear implicits.

End Deque.

(* ------------------------------------------------------------------ *)
(** ** A remote connection (the Deepgram SDK sockets, the Telnyx WebSocket)

    The code only ever calls [await connection.send_xxx(msg)] inside a
    [try ... except Exception].  The connection is modelled by the log of
    the calls made on it and a script telling which of the coming calls
    raise; a call beyond the script succeeds. *)

Module Remote.

Section WithMsg.
Context {M : Type}.

Record conn := mk { calls : list M; faults : list bool }.

Definition fresh (script : list bool) : conn := mk [] script.

(** One [await connection.send_xxx(m)]; the [bool] tells whether it
    raised. *)
Definition send (m : M) (c : conn) : conn * bool :=
  match faults c with
  | [] => (mk (calls c ++ [m]) [], false)
  | raised :: script => (mk (calls c ++ [m]) script, raised)
  end.

End WithMsg.

Arguments conn : clear implicits.

(** How [connect()] of a handler goes: the socket opens (with the fault
    script of its later calls), or [client....connect(...)] raises, or
    entering the context manager raises. *)
Inductive attempt :=
| Opens (script : list bool)
| ConnectRaises
| EnterRaises.

End Remote.

Definition bytes := list Byte.byte.

(* ------------------------------------------------------------------ *)
(** ** stt_handler.py *)

Module STT.
Import PyStr.

Record TranscriptResult := mkTranscriptResult {
  text : str;
  is_final : bool;
  speech_final : bool
  (* confidence: a float handed through to [_on_transcript], not modelled *)
}.

Record STTState := mkSTTState {
  is_connected : bool;
  is_speaking : bool;
  current_transcript : str;
  transcript_parts : list str
}.

(** What the socket carries towards Deepgram. *)
Inductive ListenMsg :=
| Media (audio_data : bytes)
| CloseStream.

Record STTHandler := mkSTTHandler {
  connection : option (Remote.conn ListenMsg);
  state : STTState;
  _context_manager : bool;
  _on_transcript : bool;
  _on_speech_started : bool;
  _on_speech_ended : bool;
  _on_utterance_end : bool;
  _audio_count : nat
}.

(** [STTHandler.__init__] *)
Definition init : STTHandler :=
  mkSTTHandler None (mkSTTState false false [] []) false
               false false false false 0.

Definition set_state (s : STTState) (h : STTHandler) : STTHandler :=
  mkSTTHandler (connection h) s (_context_manager h) (_on_transcript h)
               (_on_speech_started h) (_on_speech_ended h)
               (_on_utterance_end h) (_audio_count h).

Definition set_connection (c : option (Remote.conn ListenMsg))
           (h : STTHandler) : STTHandler :=
  mkSTTHandler c (state h) (_context_manager h) (_on_transcript h)
               (_on_speech_started h) (_on_speech_ended h)
               (_on_utterance_end h) (_audio_count h).

Definition set_connected (b : bool) (h : STTHandler) : STTHandler :=
  set_state (mkSTTState b (is_speaking (state h))
                        (current_transcript (state h))
                        (transcript_parts (state h))) h.

Definition set_speaking (b : bool) (h : STTHandler) : STTHandler :=
  set_state (mkSTTState (is_connected (state h)) b
                        (current_transcript (state h))
                        (transcript_parts (state h))) h.

(** Callback registration. *)
Definition on_transcript (h : STTHandler) : STTHandler :=
  mkSTTHandler (connection h) (state h) (_context_manager h) true
               (_on_speech_started h) (_on_speech_ended h)
               (_on_utterance_end h) (_audio_count h).

Definition on_speech_started (h : STTHandler) : STTHandler :=
  mkSTTHandler (connection h) (state h) (_context_manager h)
               (_on_transcript h) true (_on_speech_ended h)
               (_on_utterance_end h) (_audio_count h).

Definition on_speech_ended (h : STTHandler) : STTHandler :=
  mkSTTHandler (connection h) (state h) (_context_manager h)
               (_on_transcript h) (_on_speech_started h) true
               (_on_utterance_end h) (_audio_count h).

Definition on_utterance_end (h : STTHandler) : STTHandler :=
  mkSTTHandler (connection h) (state h) (_context_manager h)
               (_on_transcript h) (_on_speech_started h)
               (_on_speech_ended h) true (_audio_count h).

(** [connect]: the context manager is stored before it is entered, so a
    failure to enter leaves it behind. *)
Definition connect (a : Remote.attempt) (h : STTHandler)
  : STTHandler * bool :=
  match a with
  | Remote.Opens script =>
      (set_connected true
         (mkSTTHandler (Some (Remote.fresh script)) (state h) true
                       (_on_transcript h) (_on_speech_started h)
                       (_on_speech_ended h) (_on_utterance_end h)
                       (_audio_count h)), true)
  | Remote.ConnectRaises => (h, false)
  | Remote.EnterRaises =>
      (mkSTTHandler (connection h) (state h) true
                    (_on_transcript h) (_on_speech_started h)
                    (_on_speech_ended h) (_on_utterance_end h)
                    (_audio_count h), false)
  end.

(** [send_audio] *)
Definition send_audio (audio_data : bytes) (h : STTHandler) : STTHandler :=
  match connection h with
  | None => h
  | Some c =>
      if negb (is_connected (state h)) then h
      else
        let (c', raised) := Remote.send (Media audio_data) c in
        let h' := set_connection (Some c') h in
        if raised then set_connected false h'
        else mkSTTHandler (connection h') (state h') (_context_manager h')
                          (_on_transcript h') (_on_speech_started h')
                          (_on_speech_ended h') (_on_utterance_end h')
                          (S (_audio_count h'))
      end.

(** [close] *)
Definition close (h : STTHandler) : STTHandler :=
  let h1 :=
    match connection h with
    | Some c => set_connection (Some (fst (Remote.send CloseStream c))) h
    | None => h
    end in
  if _context_manager h1 then
    let h2 := set_connected false h1 in
    mkSTTHandler None (state h2) false (_on_transcript h2)
                 (_on_speech_started h2) (_on_speech_ended h2)
                 (_on_utterance_end h2) (_audio_count h2)
  else h1.

(** [reset_transcript] *)
Definition reset_transcript (h : STTHandler) : STTHandler :=
  set_state (mkSTTState (is_connected (state h)) (is_speaking (state h))
                        [] []) h.

(** [get_full_transcript] *)
Definition get_full_transcript (h : STTHandler) : str :=
  strip (join [space] (transcript_parts (state h))).

(** [_handle_close] *)
Definition _handle_close (h : STTHandler) : STTHandler :=
  set_connected false h.

(** The messages Deepgram sends, as far as the handler looks at them.
    A missing attribute is [None] ([getattr] with a default). *)
Record Alternative := mkAlternative { transcript : option str }.

Record Channel := mkChannel { alternatives : option (list Alternative) }.

Record ListenV1Results := mkResults {
  channel : option Channel;
  r_is_final : option bool;
  r_speech_final : option bool
}.

Inductive message :=
| Results (result : ListenV1Results)
| SpeechStarted
| UtteranceEnd
| Unknown.

(** The invocations of the registered callbacks a handler makes. *)
Inductive callback :=
| OnTranscript (r : TranscriptResult)
| OnSpeechStarted
| OnSpeechEnded (full_transcript : str)
| OnUtteranceEnd (full_transcript : str).

Definition or_False (o : option bool) : bool :=
  match o with Some b => b | None => false end.

(** [_handle_transcript] *)
Definition _handle_transcript (result : ListenV1Results) (h : STTHandler)
  : STTHandler * list callback :=
  match channel result with
  | None => (h, [])
  | Some ch =>
      match alternatives ch with
      | None | Some [] => (h, [])
      | Some (alt :: _) =>
          match transcript alt with
          | None | Some [] => (h, [])
          | Some tr =>
              let is_final := or_False (r_is_final result) in
              let speech_final := or_False (r_speech_final result) in
              let st := state h in
              let h1 :=
                if is_final then
                  set_state (mkSTTState (is_connected st) (is_speaking st)
                               (current_transcript st)
                               (transcript_parts st ++ [tr])) h
                else
                  set_state (mkSTTState (is_connected st) (is_speaking st)
                               tr (transcript_parts st)) h in
              let transcript_result :=
                mkTranscriptResult tr is_final speech_final in
              let cb1 :=
                if _on_transcript h1 then [OnTranscript transcript_result]
                else [] in
              if speech_final then
                let full_transcript := get_full_transcript h1 in
                let cb2 :=
                  if truthy full_transcript && _on_speech_ended h1
                  then [OnSpeechEnded full_transcript] else [] in
                (reset_transcript h1, cb1 ++ cb2)
              else (h1, cb1)
          end
      end
  end.

(** [_handle_speech_started] *)
Definition _handle_speech_started (h : STTHandler)
  : STTHandler * list callback :=
  let h1 := set_speaking true h in
  (h1, if _on_speech_started h1 then [OnSpeechStarted] else []).

(** [_handle_utterance_end] *)
Definition _handle_utterance_end (h : STTHandler)
  : STTHandler * list callback :=
  let h1 := set_speaking false h in
  let full_transcript := get_full_transcript h1 in
  (reset_transcript h1,
   if truthy full_transcript && _on_utterance_end h1
   then [OnUtteranceEnd full_transcript] else []).

(** [_process_message] *)
Definition _process_message (m : message) (h : STTHandler)
  : STTHandler * list callback :=
  match m with
  | Results result => _handle_transcript result h
  | SpeechStarted => _handle_speech_started h
  | UtteranceEnd => _handle_utterance_end h
  | Unknown => (h, [])
  end.

End STT.

(* ------------------------------------------------------------------ *)
(** ** tts_handler.py *)

Module TTS.
Import PyStr.

Record TTSState := mkTTSState {
  is_connected : bool;
  is_speaking : bool;
  pending_text : str
}.

(** What the socket carries towards Deepgram. *)
Inductive SpeakMsg :=
| SpeakV1Text (text : str)
| SpeakV1Flush
| SpeakV1Clear
| SpeakV1Close.

Record TTSHandler := mkTTSHandler {
  connection : option (Remote.conn SpeakMsg);
  state : TTSState;
  _context_manager : bool;
  _on_audio : bool;
  _on_complete : bool;
  _cancel_event : bool
}.

(** Sentence boundary characters for flushing *)
Definition FLUSH_CHARS : list N := lit ".!?:;".

Definition in_chars (c : N) (cs : list N) : bool := existsb (N.eqb c) cs.

(** [TTSHandler.__init__] *)
Definition init : TTSHandler :=
  mkTTSHandler None (mkTTSState false false []) false false false false.

Definition set_connection (c : option (Remote.conn SpeakMsg))
           (h : TTSHandler) : TTSHandler :=
  mkTTSHandler c (state h) (_context_manager h) (_on_audio h)
               (_on_complete h) (_cancel_event h).

Definition set_connected (b : bool) (h : TTSHandler) : TTSHandler :=
  mkTTSHandler (connection h)
               (mkTTSState b (is_speaking (state h))
                           (pending_text (state h)))
               (_context_manager h) (_on_audio h) (_on_complete h)
               (_cancel_event h).

Definition set_speaking (b : bool) (h : TTSHandler) : TTSHandler :=
  mkTTSHandler (connection h)
               (mkTTSState (is_connected (state h)) b
                           (pending_text (state h)))
               (_context_manager h) (_on_audio h) (_on_complete h)
               (_cancel_event h).

Definition set_cancel_event (b : bool) (h : TTSHandler) : TTSHandler :=
  mkTTSHandler (connection h) (state h) (_context_manager h) (_on_audio h)
               (_on_complete h) b.

(** Callback registration. *)
Definition on_audio (h : TTSHandler) : TTSHandler :=
  mkTTSHandler (connection h) (state h) (_context_manager h) true
               (_on_complete h) (_cancel_event h).

Definition on_complete (h : TTSHandler) : TTSHandler :=
  mkTTSHandler (connection h) (state h) (_context_manager h) (_on_audio h)
               true (_cancel_event h).

(** [connect] *)
Definition connect (a : Remote.attempt) (h : TTSHandler)
  : TTSHandler * bool :=
  match a with
  | Remote.Opens script =>
      (set_connected true
         (mkTTSHandler (Some (Remote.fresh script)) (state h) true
                       (_on_audio h) (_on_complete h) (_cancel_event h)),
       true)
  | Remote.ConnectRaises => (h, false)
  | Remote.EnterRaises =>
      (mkTTSHandler (connection h) (state h) true
                    (_on_audio h) (_on_complete h) (_cancel_event h), false)
  end.

(** The calls made so far on the socket of [h]. *)
Definition wire (h : TTSHandler) : list SpeakMsg :=
  match connection h with
  | Some c => Remote.calls c
  | None => []
  end.

(** [send_text] *)
Definition send_text (text : str) (h : TTSHandler) : TTSHandler :=
  match connection h with
  | None => h
  | Some c =>
      if negb (is_connected (state h)) then h
      else if negb (truthy text) then h
      else
        let h1 := set_speaking true h in
        let (c1, raised) := Remote.send (SpeakV1Text text) c in
        let h2 := set_connection (Some c1) h1 in
        if raised then h2
        else
          match last_char text with
          | Some ch =>
              if in_chars ch FLUSH_CHARS then
                set_connection
                  (Some (fst (Remote.send SpeakV1Flush c1))) h2
              else h2
          | None => h2
          end
  end.

(** [flush] *)
Definition flush (h : TTSHandler) : TTSHandler :=
  match connection h with
  | Some c =>
      if is_connected (state h) then
        set_connection (Some (fst (Remote.send SpeakV1Flush c))) h
      else h
  | None => h
  end.

(** [cancel] *)
Definition cancel (h : TTSHandler) : TTSHandler :=
  let h1 := set_speaking false (set_cancel_event true h) in
  match connection h1 with
  | Some c =>
      if is_connected (state h1) then
        set_connection (Some (fst (Remote.send SpeakV1Clear c))) h1
      else h1
  | None => h1
  end.

(** [reset_cancel] *)
Definition reset_cancel (h : TTSHandler) : TTSHandler :=
  set_cancel_event false h.

(** [stream_text]: [tokens] is what the iterator yields.  The loop tests
    the cancel flag before each token; the flag only changes between two
    suspensions of the loop, which is where [Server] interleaves. *)
Fixpoint stream_text_loop (tokens : list str) (buffer : str)
         (h : TTSHandler) : TTSHandler * str :=
  match tokens with
  | [] => (h, buffer)
  | token :: rest =>
      if _cancel_event h then (h, buffer)
      else
        let buffer := buffer ++ token in
        if endswith token [space]
           || match last_char buffer with
              | Some ch => in_chars ch FLUSH_CHARS
              | None => false
              end
        then stream_text_loop rest [] (send_text buffer h)
        else stream_text_loop rest buffer h
  end.

Definition stream_text (tokens : list str) (h : TTSHandler) : TTSHandler :=
  let (h1, buffer) := stream_text_loop tokens [] h in
  if truthy buffer && negb (_cancel_event h1)
  then flush (send_text buffer h1)
  else h1.

(** [close] *)
Definition close (h : TTSHandler) : TTSHandler :=
  let h1 :=
    match connection h with
    | Some c => set_connection (Some (fst (Remote.send SpeakV1Close c))) h
    | None => h
    end in
  if _context_manager h1 then
    let h2 := set_connected false h1 in
    mkTTSHandler None (state h2) false (_on_audio h2) (_on_complete h2)
                 (_cancel_event h2)
  else h1.

(** [_handle_close] *)
Definition _handle_close (h : TTSHandler) : TTSHandler :=
  set_connected false h.

(** What Deepgram sends back: raw audio bytes, or a control message of
    which only the [type] attribute is read. *)
Inductive message :=
| Audio (data : bytes)
| Control (type : option str).

Inductive callback :=
| OnAudio (audio_data : bytes)
| OnComplete.

Definition str_eqb (a b : str) : bool :=
  if list_eq_dec N.eq_dec a b then true else false.

(** [_process_message] *)
Definition _process_message (m : message) (h : TTSHandler)
  : TTSHandler * list callback :=
  match m with
  | Audio data =>
      if _on_audio h && negb (_cancel_event h)
      then (h, [OnAudio data]) else (h, [])
  | Control (Some ty) =>
      if str_eqb ty (lit "Flushed") then
        let h1 := set_speaking false h in
        (h1, if _on_complete h1 then [OnComplete] else [])
      else (h, [])
  | Control None => (h, [])
  end.

(** *** A handler's life

    The calls its owner makes and the messages the socket delivers, in the
    order the event loop runs them, with the callback invocations they
    cause. *)
Inductive call :=
| Connect (a : Remote.attempt)
| SendText (text : str)
| StreamText (tokens : list str)
| Flush
| Cancel
| ResetCancel
| Close
| HandleClose
| Receive (m : message).

Definition perform (hc : TTSHandler * list callback) (c : call)
  : TTSHandler * list callback :=
  let (h, cbs) := hc in
  match c with
  | Connect a => (fst (connect a h), cbs)
  | SendText text => (send_text text h, cbs)
  | StreamText tokens => (stream_text tokens h, cbs)
  | Flush => (flush h, cbs)
  | Cancel => (cancel h, cbs)
  | ResetCancel => (reset_cancel h, cbs)
  | Close => (close h, cbs)
  | HandleClose => (_handle_close h, cbs)
  | Receive m =>
      let (h', new) := _process_message m h in (h', cbs ++ new)
  end.

Definition life (cs : list call) (h : TTSHandler)
  : TTSHandler * list callback :=
  fold_left perform cs (h, []).

Definition is_audio (cb : callback) : bool :=
  match cb with OnAudio _ => true | OnComplete => false end.

End TTS.

(* ------------------------------------------------------------------ *)
(** ** llm_handler.py *)

Module LLM.
Import PyStr.

Inductive role := user | assistant.

Record Message := mkMessage { msg_role : role; content : str }.

(** [ConversationState] and the [_greeting_text] attribute the session
    manager attaches to the handler. *)
Record LLMHandler := mkLLMHandler {
  messages : list Message;
  system_prompt : str;
  purpose : option str;
  _greeting_text : option str
}.

Definition set_messages (ms : list Message) (h : LLMHandler) : LLMHandler :=
  mkLLMHandler ms (system_prompt h) (purpose h) (_greeting_text h).

Definition set_greeting_text (g : option str) (h : LLMHandler)
  : LLMHandler :=
  mkLLMHandler (messages h) (system_prompt h) (purpose h) g.

(** [add_user_message] *)
Definition add_user_message (c : str) (h : LLMHandler) : LLMHandler :=
  set_messages (messages h ++ [mkMessage user c]) h.

(** [add_assistant_message] *)
Definition add_assistant_message (c : str) (h : LLMHandler) : LLMHandler :=
  set_messages (messages h ++ [mkMessage assistant c]) h.

(** [clear_history] *)
Definition clear_history (h : LLMHandler) : LLMHandler :=
  set_messages [] h.

(** The four canned replies of [generate_response_stream]. *)
Definition fallback_no_response : str :=
  lit "I'm sorry, I'm having trouble responding right now.".
Definition fallback_empty : str :=
  lit "I'm sorry, could you repeat that?".
Definition fallback_client_error : str :=
  lit "I'm sorry, I'm having trouble connecting.".
Definition fallback_exception : str :=
  lit "I'm sorry, I'm having trouble responding.".

(** *** The remote side of one streaming request

    [_make_request] returns [None] on a status other than 200 and on any
    exception of the HTTP client (a timeout is one).  Otherwise the body
    arrives through [response.content.iter_any()] chunk by chunk; after
    each chunk the loop visits the matches of [_TEXT_PATTERN] that start
    at or after [last_processed].  A match is listed here with what
    decoding its group gives: the text, or a [UnicodeError].  The
    iteration ends with the end of the body or with an exception raised
    at the [await] for the next chunk; a cancellation of the task that
    drives the generator is the [CancelledError] raised there. *)
Inductive text_match :=
| Decoded (text : str)
| DecodeError.

Inductive raised :=
| ClientError          (* aiohttp.ClientError *)
| OtherException       (* any other Exception, asyncio.TimeoutError too *)
| CancelledError.      (* BaseException: passes [except Exception] *)

Record body := mkBody {
  chunks : list (list text_match);
  ending : option raised
}.

Inductive outcome :=
| NoResponse                 (* [_make_request] returned None *)
| RequestCancelled           (* cancelled while awaiting [_make_request] *)
| Response (b : body).

(** The locals of the generator that outlive one match, and what it has
    yielded so far. *)
Record locals := mkLocals {
  full_response : str;
  text_buffer : str;
  yielded : list str
}.

Definition sentence_ends : list str := [lit "."; lit "!"; lit "?"].

(** Body of the [for match in ...] loop. *)
Definition on_match (l : locals) (m : text_match) : locals :=
  match m with
  | DecodeError => l
  | Decoded text =>
      if truthy text then
        let full_response := full_response l ++ text in
        let text_buffer := text_buffer l ++ text in
        if endswith_any (rstrip text_buffer) sentence_ends then
          mkLocals full_response [] (yielded l ++ [text_buffer])
        else if (40 <? length text_buffer) && endswith text [space] then
          mkLocals full_response [] (yielded l ++ [text_buffer])
        else
          mkLocals full_response text_buffer (yielded l)
      else l
  end.

(** Body of the [async for chunk in ...] loop. *)
Definition on_chunk (l : locals) (ms : list text_match) : locals :=
  fold_left on_match ms l.

Definition stream (cs : list (list text_match)) : locals :=
  fold_left on_chunk cs (mkLocals [] [] []).

(** The request [generate_response_stream] posts. *)
Record request := mkRequest {
  req_messages : list Message;
  req_system_text : str
}.

Record run := mkRun {
  handler : LLMHandler;          (* the handler afterwards *)
  posted : request;
  fragments : list str;          (* everything yielded, in order *)
  cancelled : bool               (* left through CancelledError *)
}.

Definition greeting_context (system_prompt greeting : str) : str :=
  system_prompt ++ [newline; newline]
    ++ lit "You just said to the caller: " ++ [dquote] ++ greeting
    ++ [dquote; newline] ++ lit "Now respond to their reply.".

(** [generate_response_stream] up to its first suspension, the
    [await self._make_request(...)]: the greeting context, the user
    message, the request. *)
Definition request_phase (user_input : str) (h : LLMHandler)
  : LLMHandler * request :=
  let first_turn :=
    match _greeting_text h, messages h with
    | Some (_ :: _), [] => true
    | _, _ => false
    end in
  let system_prompt :=
    match _greeting_text h with
    | Some greeting =>
        if first_turn then greeting_context (system_prompt h) greeting
        else system_prompt h
    | None => system_prompt h
    end in
  let h0 := if first_turn then set_greeting_text None h else h in
  let h1 := add_user_message user_input h0 in
  (h1, mkRequest (messages h1) system_prompt).

(** The rest of [generate_response_stream], from the answer to the request
    on: what it yields, what it appends, and whether a [CancelledError]
    left it.  [h] is the handler as it is when the generator resumes. *)
Definition stream_phase (o : outcome) (h : LLMHandler)
  : LLMHandler * list str * bool :=
  match o with
  | RequestCancelled => (h, [], true)
  | NoResponse =>
      (add_assistant_message fallback_no_response h,
       [fallback_no_response], false)
  | Response b =>
      let l := stream (chunks b) in
      match ending b with
      | None =>
          let residue :=
            if truthy (text_buffer l) then [text_buffer l] else [] in
          if truthy (full_response l) then
            (add_assistant_message (full_response l) h,
             yielded l ++ residue, false)
          else
            (add_assistant_message fallback_empty h,
             yielded l ++ residue ++ [fallback_empty], false)
      | Some ClientError =>
          (add_assistant_message fallback_client_error h,
           yielded l ++ [fallback_client_error], false)
      | Some OtherException =>
          (add_assistant_message fallback_exception h,
           yielded l ++ [fallback_exception], false)
      | Some CancelledError => (h, yielded l, true)
      end
  end.

(** [generate_response_stream], driven until the generator is exhausted
    or an exception leaves it, with nothing else touching the handler
    meanwhile. *)
Definition generate_response_stream (user_input : str) (o : outcome)
           (h : LLMHandler) : run :=
  let (h1, rq) := request_phase user_input h in
  let '(h2, ys, c) := stream_phase o h1 in
  mkRun h2 rq ys c.

(** [generate_response] *)
Definition generate_response (user_input : str) (o : outcome)
           (h : LLMHandler) : LLMHandler * str :=
  let r := generate_response_stream user_input o h in
  (handler r, concat (fragments r)).

(** A call's history: one [generate_response_stream] per accepted
    transcript, each with what the remote side did. *)
Definition turns (ts : list (str * outcome)) (h : LLMHandler)
  : LLMHandler :=
  fold_left (fun h t => handler (generate_response_stream (fst t) (snd t) h))
            ts h.

Definition role_eqb (a b : role) : bool :=
  match a, b with
  | user, user | assistant, assistant => true
  | _, _ => false
  end.

(** No two neighbours of the same role. *)
Fixpoint alternates (rs : list role) : bool :=
  match rs with
  | [] => true
  | a :: rest =>
      match rest with
      | [] => true
      | b :: _ => negb (role_eqb a b) && alternates rest
      end
  end.

Definition roles (h : LLMHandler) : list role :=
  map msg_role (messages h).

(** *** The chunking rule in the specification's words

    The buffer is yielded when it ends with [.], [!] or [?], or otherwise
    when it is longer than 40 characters and the latest fragment ends with
    a space. *)
Definition spec_yields (text_buffer text : str) : bool :=
  endswith_any text_buffer sentence_ends
  || ((40 <? length text_buffer) && endswith text [space]).

(** The same decision as the source takes it. *)
Definition code_yields (text_buffer text : str) : bool :=
  endswith_any (rstrip text_buffer) sentence_ends
  || ((40 <? length text_buffer) && endswith text [space]).

End LLM.

(* ------------------------------------------------------------------ *)
(** ** websocket_server.py *)

Module Server.
Import PyStr.

(** The frames [drain_tts_queue] sends to Telnyx:
    [{"event": "media", "stream_id": ..., "media": {"payload": b64}}]
    where [b64] is the base64 text of [audio_data]. *)
Inductive outbound :=
| MediaOut (stream_id : str) (audio_data : bytes).

(** An [asyncio.Task] running [_stream_response(session, user_input)].
    [cancel()] only asks: the task is done once it has run to its end. *)
Inductive task_status := Running | CancelRequested | Finished.

Record Task := mkTask { user_input : str; status : task_status }.

(** [CallSession].  [config] is never read by the code below.  [tasks] is
    the event loop's list of the response tasks created for this session;
    [pending_response_task] refers to one of them by position. *)
Record CallSession := mkCallSession {
  call_control_id : str;
  stream_id : str;
  stt : STT.STTHandler;
  tts : TTS.TTSHandler;
  llm : LLM.LLMHandler;
  websocket : Remote.conn outbound;
  is_active : bool;
  is_bot_speaking : bool;
  pending_response_task : option nat;
  audio_buffer : Deque.deque bytes;
  tts_audio_queue : Deque.deque bytes;
  is_ready : bool;
  barge_in_enabled : bool;
  stt_enabled : bool;
  greeting : str;
  tts_audio_count : nat;
  tts_audio_sent : nat;
  inbound_count : nat;
  outbound_count : nat;
  tasks : list Task
}.

Definition set_stt (v : STT.STTHandler) (s : CallSession) : CallSession :=
  mkCallSession (call_control_id s) (stream_id s) v (tts s) (llm s)
    (websocket s) (is_active s) (is_bot_speaking s)
    (pending_response_task s) (audio_buffer s) (tts_audio_queue s)
    (is_ready s) (barge_in_enabled s) (stt_enabled s) (greeting s)
    (tts_audio_count s) (tts_audio_sent s) (inbound_count s)
    (outbound_count s) (tasks s).

Definition set_tts (v : TTS.TTSHandler) (s : CallSession) : CallSession :=
  mkCallSession (call_control_id s) (stream_id s) (stt s) v (llm s)
    (websocket s) (is_active s) (is_bot_speaking s)
    (pending_response_task s) (audio_buffer s) (tts_audio_queue s)
    (is_ready s) (barge_in_enabled s) (stt_enabled s) (greeting s)
    (tts_audio_count s) (tts_audio_sent s) (inbound_count s)
    (outbound_count s) (tasks s).

Definition set_llm (v : LLM.LLMHandler) (s : CallSession) : CallSession :=
  mkCallSession (call_control_id s) (stream_id s) (stt s) (tts s) v
    (websocket s) (is_active s) (is_bot_speaking s)
    (pending_response_task s) (audio_buffer s) (tts_audio_queue s)
    (is_ready s) (barge_in_enabled s) (stt_enabled s) (greeting s)
    (tts_audio_count s) (tts_audio_sent s) (inbound_count s)
    (outbound_count s) (tasks s).

Definition set_websocket (v : Remote.conn outbound) (s : CallSession) : CallSession :=
  mkCallSession (call_control_id s) (stream_id s) (stt s) (tts s) (llm s)
    v (is_active s) (is_bot_speaking s) (pending_response_task s)
    (audio_buffer s) (tts_audio_queue s) (is_ready s) (barge_in_enabled s)
    (stt_enabled s) (greeting s) (tts_audio_count s) (tts_audio_sent s)
    (inbound_count s) (outbound_count s) (tasks s).

Definition set_is_active (v : bool) (s : CallSession) : CallSession :=
  mkCallSession (call_control_id s) (stream_id s) (stt s) (tts s) (llm s)
    (websocket s) v (is_bot_speaking s) (pending_response_task s)
    (audio_buffer s) (tts_audio_queue s) (is_ready s) (barge_in_enabled s)
    (stt_enabled s) (greeting s) (tts_audio_count s) (tts_audio_sent s)
    (inbound_count s) (outbound_count s) (tasks s).

Definition set_is_bot_speaking (v : bool) (s : CallSession) : CallSession :=
  mkCallSession (call_control_id s) (stream_id s) (stt s) (tts s) (llm s)
    (websocket s) (is_active s) v (pending_response_task s)
    (audio_buffer s) (tts_audio_queue s) (is_ready s) (barge_in_enabled s)
    (stt_enabled s) (greeting s) (tts_audio_count s) (tts_audio_sent s)
    (inbound_count s) (outbound_count s) (tasks s).

Definition set_pending_response_task (v : option nat) (s : CallSession) : CallSession :=
  mkCallSession (call_control_id s) (stream_id s) (stt s) (tts s) (llm s)
    (websocket s) (is_active s) (is_bot_speaking s) v (audio_buffer s)
    (tts_audio_queue s) (is_ready s) (barge_in_enabled s) (stt_enabled s)
    (greeting s) (tts_audio_count s) (tts_audio_sent s) (inbound_count s)
    (outbound_count s) (tasks s).

Definition set_audio_buffer (v : Deque.deque bytes) (s : CallSession) : CallSession :=
  mkCallSession (call_control_id s) (stream_id s) (stt s) (tts s) (llm s)
    (websocket s) (is_active s) (is_bot_speaking s)
    (pending_response_task s) v (tts_audio_queue s) (is_ready s)
    (barge_in_enabled s) (stt_enabled s) (greeting s) (tts_audio_count s)
    (tts_audio_sent s) (inbound_count s) (outbound_count s) (tasks s).

Definition set_tts_audio_queue (v : Deque.deque bytes) (s : CallSession) : CallSession :=
  mkCallSession (call_control_id s) (stream_id s) (stt s) (tts s) (llm s)
    (websocket s) (is_active s) (is_bot_speaking s)
    (pending_response_task s) (audio_buffer s) v (is_ready s)
    (barge_in_enabled s) (stt_enabled s) (greeting s) (tts_audio_count s)
    (tts_audio_sent s) (inbound_count s) (outbound_count s) (tasks s).

Definition set_is_ready (v : bool) (s : CallSession) : CallSession :=
  mkCallSession (call_control_id s) (stream_id s) (stt s) (tts s) (llm s)
    (websocket s) (is_active s) (is_bot_speaking s)
    (pending_response_task s) (audio_buffer s) (tts_audio_queue s) v
    (barge_in_enabled s) (stt_enabled s) (greeting s) (tts_audio_count s)
    (tts_audio_sent s) (inbound_count s) (outbound_count s) (tasks s).

Definition set_barge_in_enabled (v : bool) (s : CallSession) : CallSession :=
  mkCallSession (call_control_id s) (stream_id s) (stt s) (tts s) (llm s)
    (websocket s) (is_active s) (is_bot_speaking s)
    (pending_response_task s) (audio_buffer s) (tts_audio_queue s)
    (is_ready s) v (stt_enabled s) (greeting s) (tts_audio_count s)
    (tts_audio_sent s) (inbound_count s) (outbound_count s) (tasks s).

Definition set_stt_enabled (v : bool) (s : CallSession) : CallSession :=
  mkCallSession (call_control_id s) (stream_id s) (stt s) (tts s) (llm s)
    (websocket s) (is_active s) (is_bot_speaking s)
    (pending_response_task s) (audio_buffer s) (tts_audio_queue s)
    (is_ready s) (barge_in_enabled s) v (greeting s) (tts_audio_count s)
    (tts_audio_sent s) (inbound_count s) (outbound_count s) (tasks s).

Definition set_tts_audio_count (v : nat) (s : CallSession) : CallSession :=
  mkCallSession (call_control_id s) (stream_id s) (stt s) (tts s) (llm s)
    (websocket s) (is_active s) (is_bot_speaking s)
    (pending_response_task s) (audio_buffer s) (tts_audio_queue s)
    (is_ready s) (barge_in_enabled s) (stt_enabled s) (greeting s) v
    (tts_audio_sent s) (inbound_count s) (outbound_count s) (tasks s).

Definition set_tts_audio_sent (v : nat) (s : CallSession) : CallSession :=
  mkCallSession (call_control_id s) (stream_id s) (stt s) (tts s) (llm s)
    (websocket s) (is_active s) (is_bot_speaking s)
    (pending_response_task s) (audio_buffer s) (tts_audio_queue s)
    (is_ready s) (barge_in_enabled s) (stt_enabled s) (greeting s)
    (tts_audio_count s) v (inbound_count s) (outbound_count s) (tasks s).

Definition set_inbound_count (v : nat) (s : CallSession) : CallSession :=
  mkCallSession (call_control_id s) (stream_id s) (stt s) (tts s) (llm s)
    (websocket s) (is_active s) (is_bot_speaking s)
    (pending_response_task s) (audio_buffer s) (tts_audio_queue s)
    (is_ready s) (barge_in_enabled s) (stt_enabled s) (greeting s)
    (tts_audio_count s) (tts_audio_sent s) v (outbound_count s) (tasks s).

Definition set_outbound_count (v : nat) (s : CallSession) : CallSession :=
  mkCallSession (call_control_id s) (stream_id s) (stt s) (tts s) (llm s)
    (websocket s) (is_active s) (is_bot_speaking s)
    (pending_response_task s) (audio_buffer s) (tts_audio_queue s)
    (is_ready s) (barge_in_enabled s) (stt_enabled s) (greeting s)
    (tts_audio_count s) (tts_audio_sent s) (inbound_count s) v (tasks s).

Definition set_tasks (v : list Task) (s : CallSession) : CallSession :=
  mkCallSession (call_control_id s) (stream_id s) (stt s) (tts s) (llm s)
    (websocket s) (is_active s) (is_bot_speaking s)
    (pending_response_task s) (audio_buffer s) (tts_audio_queue s)
    (is_ready s) (barge_in_enabled s) (stt_enabled s) (greeting s)
    (tts_audio_count s) (tts_audio_sent s) (inbound_count s)
    (outbound_count s) v.
(** The dataclass defaults, for the handlers [create_session] builds. *)
Definition CallSession_init (call_control_id stream_id greeting : str)
           (stt : STT.STTHandler) (tts : TTS.TTSHandler)
           (llm : LLM.LLMHandler) (websocket : Remote.conn outbound)
  : CallSession :=
  mkCallSession call_control_id stream_id stt tts llm websocket
    true false None (Deque.empty 500) (Deque.empty 1000)
    false false false greeting 0 0 0 0 [].

(** *** Tasks *)

Definition done (i : nat) (s : CallSession) : bool :=
  match nth_error (tasks s) i with
  | Some t => match status t with Finished => true | _ => false end
  | None => true
  end.

Fixpoint update_task (i : nat) (f : Task -> Task) (ts : list Task)
  : list Task :=
  match ts, i with
  | [], _ => []
  | t :: ts', 0 => f t :: ts'
  | t :: ts', S j => t :: update_task j f ts'
  end.

(** [task.cancel()] *)
Definition cancel_task (i : nat) (s : CallSession) : CallSession :=
  set_tasks
    (update_task i
       (fun t => match status t with
                 | Running => mkTask (user_input t) CancelRequested
                 | _ => t
                 end) (tasks s)) s.

Definition finish_task (i : nat) (s : CallSession) : CallSession :=
  set_tasks (update_task i (fun t => mkTask (user_input t) Finished)
                         (tasks s)) s.

(** [asyncio.create_task(self._stream_response(session, transcript))] *)
Definition create_task (transcript : str) (s : CallSession)
  : CallSession * nat :=
  (set_tasks (tasks s ++ [mkTask transcript Running]) s, length (tasks s)).

(** *** The callbacks of [_setup_callbacks] *)

(** [on_speech_started] *)
Definition on_speech_started (s : CallSession) : CallSession :=
  if is_bot_speaking s && barge_in_enabled s && (10 <? tts_audio_sent s)
  then
    let s := set_tts (TTS.cancel (tts s)) s in
    let s := set_is_bot_speaking false s in
    let s := set_tts_audio_sent 0 s in
    match pending_response_task s with
    | Some i => if negb (done i s) then cancel_task i s else s
    | None => s
    end
  else s.

(** [on_user_finished] *)
Definition on_user_finished (transcript : str) (s : CallSession)
  : CallSession :=
  if negb (truthy (strip transcript)) then s
  else
    let s := set_tts (TTS.reset_cancel (tts s)) s in
    let s := set_is_bot_speaking true s in
    let s := set_tts_audio_sent 0 s in
    let (s, i) := create_task transcript s in
    set_pending_response_task (Some i) s.

(** [on_tts_audio] *)
Definition on_tts_audio (audio_data : bytes) (s : CallSession)
  : CallSession :=
  if negb (is_active s) then s
  else
    let s := set_tts_audio_queue
               (Deque.append audio_data (tts_audio_queue s)) s in
    set_tts_audio_count (S (tts_audio_count s)) s.

(** [on_tts_complete] *)
Definition on_tts_complete (s : CallSession) : CallSession :=
  set_is_bot_speaking false s.

(** [_setup_callbacks]: the registrations at its end. *)
Definition _setup_callbacks (s : CallSession) : CallSession :=
  let s := set_stt (STT.on_utterance_end
                      (STT.on_speech_ended
                         (STT.on_speech_started (stt s)))) s in
  set_tts (TTS.on_complete (TTS.on_audio (tts s))) s.

(** What the registered callbacks are. *)
Definition dispatch_stt (s : CallSession) (cb : STT.callback)
  : CallSession :=
  match cb with
  | STT.OnTranscript _ => s
  | STT.OnSpeechStarted => on_speech_started s
  | STT.OnSpeechEnded t => on_user_finished t s
  | STT.OnUtteranceEnd t => on_user_finished t s
  end.

Definition dispatch_tts (s : CallSession) (cb : TTS.callback)
  : CallSession :=
  match cb with
  | TTS.OnAudio audio_data => on_tts_audio audio_data s
  | TTS.OnComplete => on_tts_complete s
  end.

(** A message from Deepgram STT reaches [stt._process_message]. *)
Definition stt_message (m : STT.message) (s : CallSession) : CallSession :=
  let (h, cbs) := STT._process_message m (stt s) in
  fold_left dispatch_stt cbs (set_stt h s).

(** A message from Deepgram TTS reaches [tts._process_message]. *)
Definition tts_message (m : TTS.message) (s : CallSession) : CallSession :=
  let (h, cbs) := TTS._process_message m (tts s) in
  fold_left dispatch_tts cbs (set_tts h s).

(** *** The session manager *)

(** [create_session] once the greeting and the LLM handler are chosen. *)
Definition create_session (call_control_id stream_id greeting : str)
           (llm : LLM.LLMHandler) (websocket : Remote.conn outbound)
  : CallSession :=
  _setup_callbacks
    (CallSession_init call_control_id stream_id greeting
                      STT.init TTS.init llm websocket).

(** The part of a Telnyx ["media"] frame the code reads. *)
Record media := mkMedia {
  payload : option str;       (* media.get("payload") *)
  track : option str          (* media.get("track", default) *)
}.

Definition track_or (default : str) (m : media) : str :=
  match track m with Some t => t | None => default end.

Section WithCodec.

(** [base64.b64decode]; [None] when it raises. *)
Variable base64_decode : str -> option bytes.

(** [handle_media] *)
Definition handle_media (m : media) (s : CallSession) : CallSession :=
  if negb (TTS.str_eqb (track_or (lit "inbound") m) (lit "inbound"))
  then s
  else
    match payload m with
    | None | Some [] => s
    | Some audio_base64 =>
        match base64_decode audio_base64 with
        | None => s
        | Some audio_data =>
            if is_ready s && STT.is_connected (STT.state (stt s))
               && stt_enabled s
            then set_stt (STT.send_audio audio_data (stt s)) s
            else if negb (stt_enabled s) then s
            else set_audio_buffer
                   (Deque.append audio_data (audio_buffer s)) s
        end
    end.

(** The ["media"] branch of [telnyx_websocket]. *)
Definition endpoint_media (m : media) (s : CallSession) : CallSession :=
  let s :=
    if TTS.str_eqb (track_or (lit "unknown") m) (lit "inbound")
    then set_inbound_count (S (inbound_count s)) s
    else set_outbound_count (S (outbound_count s)) s in
  handle_media m s.

(** [drain_tts_queue]; [budget] is [5 - sent]. *)
Fixpoint drain_loop (budget : nat) (s : CallSession) : CallSession :=
  match budget with
  | 0 => s
  | S budget' =>
      match Deque.popleft (tts_audio_queue s) with
      | None => s
      | Some (audio_data, q) =>
          let s := set_tts_audio_queue q s in
          let (ws, raised) :=
            Remote.send (MediaOut (stream_id s) audio_data)
                        (websocket s) in
          let s := set_websocket ws s in
          if raised then s
          else drain_loop budget'
                 (set_tts_audio_sent (S (tts_audio_sent s)) s)
      end
  end.

Definition drain_tts_queue (s : CallSession) : CallSession :=
  drain_loop 5 s.

(** [_connect_deepgram] up to the call of [_send_greeting]; the [bool]
    tells whether the greeting follows. *)
Definition connect_deepgram (stt_attempt tts_attempt : Remote.attempt)
           (s : CallSession)
  : CallSession * bool :=
  let (h_stt, stt_result) := STT.connect stt_attempt (stt s) in
  let (h_tts, tts_result) := TTS.connect tts_attempt (tts s) in
  let s := set_tts h_tts (set_stt h_stt s) in
  if stt_result && tts_result then
    let s := set_is_ready true s in
    let s :=
      if 0 <? Deque.len (audio_buffer s)
      then set_audio_buffer (Deque.clear (audio_buffer s)) s
      else s in
    (s, true)
  else (s, false).

(** [close_session], the session's side of it. *)
Definition close_session (s : CallSession) : CallSession :=
  let s := set_is_active false s in
  let s :=
    match pending_response_task s with
    | Some i => if negb (done i s) then cancel_task i s else s
    | None => s
    end in
  set_tts (TTS.close (tts s)) (set_stt (STT.close (stt s)) s).

(** *** [_send_greeting], piece by piece *)

(** The three assignments that open the [try]. *)
Definition greeting_gate_off (s : CallSession) : CallSession :=
  set_barge_in_enabled false
    (set_stt_enabled false (set_is_bot_speaking true s)).

(** The two assignments that close the [try]. *)
Definition greeting_gate_on (s : CallSession) : CallSession :=
  set_barge_in_enabled true (set_stt_enabled true s).

(** The [finally] block. *)
Definition greeting_finally (s : CallSession) : CallSession :=
  set_barge_in_enabled true
    (set_stt_enabled true (set_is_bot_speaking false s)).

(** *** [_stream_response], piece by piece *)

(** From the start of the task to the generator's first suspension. *)
Definition response_begin (i : nat) (s : CallSession) : CallSession :=
  match nth_error (tasks s) i with
  | Some t =>
      let s := set_barge_in_enabled true s in
      set_llm (fst (LLM.request_phase (user_input t) (llm s))) s
  | None => s
  end.

(** The generator runs on with the answer [o]; then the [finally]. *)
Definition response_end (i : nat) (o : LLM.outcome) (s : CallSession)
  : CallSession :=
  let '(h, _, _) := LLM.stream_phase o (llm s) in
  finish_task i (set_is_bot_speaking false (set_llm h s)).

(** *** What can happen to a session, one atomic piece at a time

    Between two suspensions a coroutine runs alone on the event loop.
    A long coroutine is therefore listed by its pieces, and the pieces
    of different coroutines may come in any order. *)
Inductive event :=
| TelnyxMedia (m : media)
| DrainTtsQueue
| SttMessage (m : STT.message)
| TtsMessage (m : TTS.message)
| SttClosed
| TtsClosed
| DeepgramConnected (stt_attempt tts_attempt : Remote.attempt)
| GreetingGateOff
| GreetingText
| GreetingFlush
| GreetingGateOn
| GreetingFinally
| ResponseBegin (i : nat)
| ResponseText (text : str)
| ResponseFlush
| ResponseEnd (i : nat) (o : LLM.outcome)
| CloseSession.

Definition step (s : CallSession) (e : event) : CallSession :=
  match e with
  | TelnyxMedia m => endpoint_media m s
  | DrainTtsQueue => drain_tts_queue s
  | SttMessage m => stt_message m s
  | TtsMessage m => tts_message m s
  | SttClosed => set_stt (STT._handle_close (stt s)) s
  | TtsClosed => set_tts (TTS._handle_close (tts s)) s
  | DeepgramConnected stt_attempt tts_attempt =>
      fst (connect_deepgram stt_attempt tts_attempt s)
  | GreetingGateOff => greeting_gate_off s
  | GreetingText => set_tts (TTS.send_text (greeting s) (tts s)) s
  | GreetingFlush => set_tts (TTS.flush (tts s)) s
  | GreetingGateOn => greeting_gate_on s
  | GreetingFinally => greeting_finally s
  | ResponseBegin i => response_begin i s
  | ResponseText text => set_tts (TTS.send_text text (tts s)) s
  | ResponseFlush => set_tts (TTS.flush (tts s)) s
  | ResponseEnd i o => response_end i o s
  | CloseSession => close_session s
  end.

Definition run (es : list event) (s : CallSession) : CallSession :=
  fold_left step es s.

(** A state the session can be in: some sequence of events after
    [create_session]. *)
Definition reachable (s : CallSession) : Prop :=
  exists call_control_id stream_id greeting llm websocket es,
    s = run es (create_session call_control_id stream_id greeting
                               llm websocket).

(** *** [_send_greeting] and [_connect_deepgram] as coroutines

    Every [await] is a suspension.  While the coroutine is suspended for
    the [n]-th time the events [interleaved n] run, and the [await] may
    end by raising ([raises n]): [Cancelled] is the [CancelledError] of
    a cancelled task, which [except Exception] lets through. *)
Inductive exn := Exception | Cancelled.

Section Coroutine.

Variable interleaved : nat -> list event.
Variable raises : nat -> option exn.

Definition co (A : Type) : Type :=
  CallSession * nat -> (A + exn) * (CallSession * nat).

Definition ret {A : Type} (a : A) : co A :=
  fun st => (inl a, st).

Definition bind {A B : Type} (c : co A) (k : A -> co B) : co B :=
  fun st =>
    match c st with
    | (inl a, st') => k a st'
    | (inr e, st') => (inr e, st')
    end.

Local Notation "x <- c ;; k" := (bind c (fun x => k))
  (at level 61, c at next level, right associativity).
Local Notation "c ;; k" := (bind c (fun _ => k))
  (at level 61, right associativity).

Definition read {A : Type} (f : CallSession -> A) : co A :=
  fun st => (inl (f (fst st)), st).

Definition write (f : CallSession -> CallSession) : co unit :=
  fun st => (inl tt, (f (fst st), snd st)).

(** [await c] where the awaited coroutine [c] acts as [f]. *)
Definition await (f : CallSession -> CallSession) : co unit :=
  fun st =>
    let n := snd st in
    let s := run (interleaved n) (f (fst st)) in
    match raises n with
    | Some e => (inr e, (s, S n))
    | None => (inl tt, (s, S n))
    end.

(** [await asyncio.sleep(...)] *)
Definition sleep : co unit := await (fun s => s).

(** [while wait_count < 50]; [remaining] is [50 - wait_count]. *)
Fixpoint wait_for_audio (remaining : nat) : co unit :=
  match remaining with
  | 0 => ret tt
  | S remaining' =>
      arrived <- read (fun s => 10 <? Deque.len (tts_audio_queue s)) ;;
      if arrived then ret tt
      else sleep ;; wait_for_audio remaining'
  end.

(** [while session.tts_audio_queue or playback_chunks < 50]; the loop
    leaves through its [break] once [playback_chunks] is 501, so 501
    rounds of [fuel] are never used up. *)
Fixpoint wait_for_drain (fuel playback_chunks : nat) : co unit :=
  match fuel with
  | 0 => ret tt
  | S fuel' =>
      again <- read (fun s => Deque.truthy (tts_audio_queue s)
                              || (playback_chunks <? 50)) ;;
      if again then
        sleep ;;
        let playback_chunks := S playback_chunks in
        if 500 <? playback_chunks then ret tt
        else wait_for_drain fuel' playback_chunks
      else ret tt
  end.

(** The [try] block. *)
Definition greeting_try (greeting : str) : co unit :=
  write greeting_gate_off ;;
  await (fun s => set_tts (TTS.send_text greeting (tts s)) s) ;;
  await (fun s => set_tts (TTS.flush (tts s)) s) ;;
  wait_for_audio 50 ;;
  wait_for_drain 501 0 ;;
  sleep ;;
  write greeting_gate_on.

(** [_send_greeting]: [try], [except Exception], [finally]. *)
Definition _send_greeting (greeting : str) : co unit :=
  fun st =>
    match greeting_try greeting st with
    | (inl tt, (s, n)) => (inl tt, (greeting_finally s, n))
    | (inr Exception, (s, n)) => (inl tt, (greeting_finally s, n))
    | (inr Cancelled, (s, n)) => (inr Cancelled, (greeting_finally s, n))
    end.

(** [_connect_deepgram] *)
Definition _connect_deepgram (stt_attempt tts_attempt : Remote.attempt)
  : co unit :=
  fun st =>
    let (s, ok) := connect_deepgram stt_attempt tts_attempt (fst st) in
    if ok then
      match _send_greeting (greeting s) (s, snd st) with
      | (inr Exception, st') => (inl tt, st')
      | r => r
      end
    else (inl tt, (s, snd st)).

End Coroutine.

End WithCodec.

End Server.

(* ------------------------------------------------------------------ *)
(** ** Vocabulary of the properties *)

(** The two deques of a session, which most of the code never touches. *)
Definition deques (s : Server.CallSession)
  : Deque.deque bytes * Deque.deque bytes :=
  (Server.audio_buffer s, Server.tts_audio_queue s).

(** Both deques have the capacity the dataclass gives them and hold no more
    than that. *)
Definition within_capacity (s : Server.CallSession) : Prop :=
  Deque.maxlen (Server.audio_buffer s) = 500
  /\ Deque.maxlen (Server.tts_audio_queue s) = 1000
  /\ Deque.len (Server.audio_buffer s) <= 500
  /\ Deque.len (Server.tts_audio_queue s) <= 1000.


(* ------------------------------------------------------------------ *)
(** ** Fixtures: one concrete call *)

Module Fixture.
Import PyStr.

(** A stand-in for [base64.b64decode] where an example needs one: it
    accepts every text and takes each code point below 256 as one byte. *)
Definition decode (s : str) : option bytes :=
  Some (flat_map (fun c => match Byte.of_N c with
                           | Some b => [b]
                           | None => []
                           end) s).

(** A handler as [create_session] builds it from a pre-generated greeting
    and system prompt. *)
Definition llm : LLM.LLMHandler :=
  LLM.mkLLMHandler [] (lit "You are a helpful AI assistant on a phone call.")
                   None (Some (lit "Hello!")).

Definition session : Server.CallSession :=
  Server.create_session (lit "v3:call") (lit "stream-1") (lit "Hello!")
                        llm (Remote.fresh []).

(** One 20 ms frame of mu-law silence is 160 bytes of 0xFF; four bytes
    stand for it here. *)
Definition frame : bytes := [Byte.xff; Byte.xff; Byte.xff; Byte.xff].

(** A final transcript that also ends the utterance. *)
Definition final_transcript (t : str) : STT.message :=
  STT.Results
    (STT.mkResults
       (Some (STT.mkChannel (Some [STT.mkAlternative (Some t)])))
       (Some true) (Some true)).

(** A call up to the middle of the bot's first answer: Deepgram connects,
    the greeting goes through, the caller speaks, the answer is being
    streamed, fifteen frames of audio arrive and twelve have been sent on
    (5 + 5 + 2 in three drains) before three more arrive. *)
Definition speaking : list Server.event :=
  [Server.DeepgramConnected (Remote.Opens []) (Remote.Opens []);
   Server.GreetingGateOff; Server.GreetingText; Server.GreetingFlush;
   Server.GreetingGateOn; Server.GreetingFinally;
   Server.SttMessage (final_transcript (lit "What's the weather?"));
   Server.ResponseBegin 0;
   Server.ResponseText (lit "It's sunny. ")]
  ++ repeat (Server.TtsMessage (TTS.Audio frame)) 12
  ++ [Server.DrainTtsQueue; Server.DrainTtsQueue; Server.DrainTtsQueue]
  ++ repeat (Server.TtsMessage (TTS.Audio frame)) 3.

Definition mid_answer : Server.CallSession :=
  Server.run decode speaking session.

End Fixture.

Module FixtureTTS.
Import PyStr.

(** A handler whose socket is open and whose callbacks are registered. *)
Definition connected : TTS.TTSHandler :=
  fst (TTS.connect (Remote.Opens [])
                   (TTS.on_complete (TTS.on_audio TTS.init))).

(** What still arrives from the synthesizer after a barge-in: two late
    frames, the [Flushed] marker, one more frame. *)
Definition after_cancel : list TTS.call :=
  [TTS.Receive (TTS.Audio Fixture.frame);
   TTS.Receive (TTS.Audio Fixture.frame);
   TTS.Receive (TTS.Control (Some (lit "Flushed")));
   TTS.Receive (TTS.Audio Fixture.frame)].

End FixtureTTS.

(** An event that is not a message from the STT service.  The session calls
    [tts.reset_cancel()] in [on_user_finished] only, which only an STT
    message triggers. *)
Definition not_from_stt (e : Server.event) : bool :=
  match e with Server.SttMessage _ => false | _ => true end.

(** The local cancel flag of the session's TTS client is set. *)
Definition flag_up (s : Server.CallSession) : Prop :=
  TTS._cancel_event (Server.tts s) = true.

(** The outbound queue of [s'] is that of [s] less some frames at its
    front: nothing was appended. *)
Definition only_drained (s s' : Server.CallSession) : Prop :=
  exists k, Deque.items (Server.tts_audio_queue s')
            = skipn k (Deque.items (Server.tts_audio_queue s)).

(** The transcripts with which the handler invoked the two callbacks that
    the session binds to [on_user_finished]. *)
Definition user_finished_calls (cbs : list STT.callback) : list PyStr.str :=
  flat_map (fun cb => match cb with
                      | STT.OnSpeechEnded t | STT.OnUtteranceEnd t => [t]
                      | _ => []
                      end) cbs.

(** Some character of the text is not whitespace. *)
Definition has_speech (t : PyStr.str) : Prop :=
  exists c, In c t /\ PyStr.isspace c = false.

(** The text fragments the loop of [generate_response_stream] extracts from
    a body: the decodable, non-empty matches, in order. *)
Definition extracted (cs : list (list LLM.text_match)) : list PyStr.str :=
  flat_map
    (flat_map (fun m => match m with
                        | LLM.Decoded (c :: t) => [c :: t]
                        | _ => []
                        end)) cs.

(** The run was left through a [CancelledError]. *)
Definition is_cancelled (o : LLM.outcome) : bool :=
  match o with
  | LLM.RequestCancelled => true
  | LLM.NoResponse => false
  | LLM.Response b =>
      match LLM.ending b with
      | Some LLM.CancelledError => true
      | _ => false
      end
  end.

(** A sentence boundary: the last character that is not trailing whitespace
    is [.], [!] or [?]. *)
Definition at_sentence_end (text_buffer : PyStr.str) : Prop :=
  exists c, PyStr.last_char (PyStr.rstrip text_buffer) = Some c
            /\ In c (PyStr.lit ".!?").

(** More than 40 characters buffered and the latest fragment ends with a
    space. *)
Definition at_long_word_end (text_buffer text : PyStr.str) : Prop :=
  40 < length text_buffer /\ PyStr.last_char text = Some PyStr.space.

Module FixtureLLM.
Import PyStr.

(** The remote answers "It's sunny. Enjoy your day" in three events that
    arrive in two chunks. *)
Definition sunny : LLM.body :=
  LLM.mkBody [[LLM.Decoded (lit "It's "); LLM.Decoded (lit "sunny. ")];
              [LLM.Decoded (lit "Enjoy your day")]]
             None.

(** The same answer, cut by a barge-in after the first chunk. *)
Definition sunny_cancelled : LLM.body :=
  LLM.mkBody [[LLM.Decoded (lit "It's "); LLM.Decoded (lit "sunny. ")]]
             (Some LLM.CancelledError).

Definition sure : LLM.body :=
  LLM.mkBody [[LLM.Decoded (lit "Sure.")]] None.

(** A caller who interrupts the first answer and then speaks again. *)
Definition interrupted_call : list (str * LLM.outcome) :=
  [(lit "What's the weather?", LLM.Response sunny_cancelled);
   (lit "Sorry, go on.", LLM.Response sure)].

End FixtureLLM.

(** Nothing is lost and nothing is repeated: what was yielded, followed by
    what is still buffered, is the response so far. *)
Definition accounted (l : LLM.locals) : Prop :=
  concat (LLM.yielded l) ++ LLM.text_buffer l = LLM.full_response l.

(** The history is empty or ends with an assistant turn: the next turn is
    the user's. *)
Definition awaiting_user (rs : list LLM.role) : bool :=
  match rev rs with
  | [] | LLM.assistant :: _ => true
  | LLM.user :: _ => false
  end.

Module FixtureCall.
Import PyStr.

(** The caller cuts into the answer; the cancelled task unwinds; the caller
    speaks again and is answered. *)
Definition barge_in_then_next_turn : list Server.event :=
  [Server.SttMessage STT.SpeechStarted;
   Server.ResponseEnd 0 (LLM.Response FixtureLLM.sunny_cancelled);
   Server.SttMessage (Fixture.final_transcript (lit "Sorry, go on."));
   Server.ResponseBegin 1;
   Server.ResponseEnd 1 (LLM.Response FixtureLLM.sure)].

Definition after_barge_in : Server.CallSession :=
  Server.run Fixture.decode barge_in_then_next_turn Fixture.mid_answer.

End FixtureCall.

(* ------------------------------------------------------------------ *)
(** ** Vocabulary of the further properties *)

(** No call on the connection is scripted to raise. *)
Definition reliable {M : Type} (c : Remote.conn M) : Prop :=
  Forall (fun raised => raised = false) (Remote.faults c).

(** The next [j] calls on the connection succeed and the one after them
    raises. *)
Definition fails_after {M : Type} (j : nat) (c : Remote.conn M) : Prop :=
  exists later, Remote.faults c = repeat false j ++ true :: later.

(** [send_audio] for a run of frames, as [handle_media] calls it frame by
    frame. *)
Definition send_audio_all (frames : list bytes) (h : STT.STTHandler)
  : STT.STTHandler :=
  fold_left (fun h frame => STT.send_audio frame h) frames h.

(** The calls a handler made on its socket ([] before [connect]). *)
Definition stt_wire (h : STT.STTHandler) : list STT.ListenMsg :=
  match STT.connection h with
  | Some c => Remote.calls c
  | None => []
  end.

Module FixtureDrain.

(** The session of [Fixture.mid_answer] with a Telnyx socket whose next
    send succeeds and whose second send raises. *)
Definition flaky : Server.CallSession :=
  Server.set_websocket
    (Remote.mk (Remote.calls (Server.websocket Fixture.mid_answer))
               [false; true])
    Fixture.mid_answer.

End FixtureDrain.

Module FixtureSTT.

(** A handler whose socket is open; its third send will raise. *)
Definition failing_third : STT.STTHandler :=
  fst (STT.connect (Remote.Opens [false; false; true]) STT.init).

Definition four_frames : list bytes :=
  [[Byte.x01]; [Byte.x02]; [Byte.x03]; [Byte.x04]].

End FixtureSTT.

(** The messages Deepgram STT delivers, processed one after the other, with
    the callback invocations they cause. *)
Definition stt_life (ms : list STT.message) (h : STT.STTHandler)
  : STT.STTHandler * list STT.callback :=
  fold_left (fun hc m => let (h', new) := STT._process_message m (fst hc) in
                         (h', snd hc ++ new))
            ms (h, []).

(** The transcript text [_handle_transcript] finds in a result, if any. *)
Definition result_text (r : STT.ListenV1Results) : option PyStr.str :=
  match STT.channel r with
  | Some ch =>
      match STT.alternatives ch with
      | Some (alt :: _) =>
          match STT.transcript alt with
          | Some (c :: t) => Some (c :: t)
          | _ => None
          end
      | _ => None
      end
  | None => None
  end.

(** The texts of the results that are final, in order. *)
Definition final_texts (rs : list STT.ListenV1Results) : list PyStr.str :=
  flat_map (fun r => match result_text r with
                     | Some t => if STT.or_False (STT.r_is_final r)
                                 then [t] else []
                     | None => []
                     end) rs.

(** None of the results ends the utterance. *)
Definition mid_utterance (rs : list STT.ListenV1Results) : Prop :=
  Forall (fun r => STT.or_False (STT.r_speech_final r) = false) rs.

Module FixtureUtterance.
Import PyStr.

Definition result (t : str) (final : bool) : STT.ListenV1Results :=
  STT.mkResults
    (Some (STT.mkChannel (Some [STT.mkAlternative (Some t)])))
    (Some final) (Some false).

(** "Book a", (interim) "table for", "table for two", silence. *)
Definition segments : list STT.ListenV1Results :=
  [result (lit "Book a") true;
   result (lit "table for") false;
   result (lit "table for two") true;
   result [] true].

Definition listening : STT.STTHandler :=
  STT.on_utterance_end
    (STT.on_speech_ended (STT.on_speech_started STT.init)).

End FixtureUtterance.

(** The texts among the messages sent to the synthesizer. *)
Definition speak_texts (ms : list TTS.SpeakMsg) : list PyStr.str :=
  flat_map (fun m => match m with TTS.SpeakV1Text t => [t] | _ => [] end) ms.

(** The handler's socket is open and the handler knows it. *)
Definition tts_up (h : TTS.TTSHandler) : Prop :=
  (exists c, TTS.connection h = Some c)
  /\ TTS.is_connected (TTS.state h) = true.

(** The stream broke off with an exception the generator handles. *)
Definition broke_off (b : LLM.body) : option PyStr.str :=
  match LLM.ending b with
  | Some LLM.ClientError => Some LLM.fallback_client_error
  | Some LLM.OtherException => Some LLM.fallback_exception
  | _ => None
  end.

Module FixtureBroken.
Import PyStr.

(** The connection drops after "It's sunny. " was yielded and "Enjoy"
    was buffered. *)
Definition dropped : LLM.body :=
  LLM.mkBody [[LLM.Decoded (lit "It's sunny. ")]; [LLM.Decoded (lit "Enjoy")]]
             (Some LLM.ClientError).

End FixtureBroken.

(** An event that can run while a greeting is being played: anything but
    the gate-opening pieces of a greeting, a (re)connection and the close of
    the session. *)
Definition during_greeting (e : Server.event) : bool :=
  match e with
  | Server.GreetingGateOn | Server.GreetingFinally
  | Server.DeepgramConnected _ _ | Server.CloseSession => false
  | _ => true
  end.

Module FixtureGreeting.
Import PyStr.

(** Deepgram has just connected. *)
Definition connected : Server.CallSession :=
  Server.run Fixture.decode
    [Server.DeepgramConnected (Remote.Opens []) (Remote.Opens [])]
    Fixture.session.

(** The caller's line delivers a frame during every suspension. *)
Definition caller_audio (n : nat) : list Server.event :=
  [Server.TelnyxMedia
     (Server.mkMedia (Some (lit "/////w==")) (Some (lit "inbound")))].

Definition undisturbed (n : nat) : option Server.exn := None.

End FixtureGreeting.

(** A coroutine of the session that suspends at most [hi] times. *)
Definition at_most {A : Type} (hi : nat)
           (c : Server.CallSession * nat ->
                (A + Server.exn) * (Server.CallSession * nat)) : Prop :=
  forall st, snd st <= snd (snd (c st)) <= snd st + hi.

(** A coroutine of the session that ends normally, after at least [lo]
    suspensions. *)
Definition at_least {A : Type} (lo : nat)
           (c : Server.CallSession * nat ->
                (A + Server.exn) * (Server.CallSession * nat)) : Prop :=
  forall st, (exists a, fst (c st) = inl a)
             /\ snd st + lo <= snd (snd (c st)).

(** The STT gate is shut and the calls made on the STT socket are [wire]. *)
Definition gated (wire : list STT.ListenMsg) (s : Server.CallSession)
  : Prop :=
  Server.stt_enabled s = false /\ stt_wire (Server.stt s) = wire.

(** A coroutine that keeps the gate shut and the STT wire as it is, however
    it ends. *)
Definition stays_gated {A : Type} (wire : list STT.ListenMsg)
           (c : Server.co A) : Prop :=
  forall st, gated wire (fst st) -> gated wire (fst (snd (c st))).

(** A coroutine that, started with the gate shut, ends with the STT wire as
    it was. *)
Definition keeps_wire {A : Type} (wire : list STT.ListenMsg)
           (c : Server.co A) : Prop :=
  forall st, gated wire (fst st) ->
             stt_wire (Server.stt (fst (snd (c st)))) = wire.

(** The session forwards inbound audio: Deepgram is ready, the gate is open
    and the STT socket is up and will not fail. *)
Definition listening (s : Server.CallSession) : Prop :=
  Server.is_ready s = true
  /\ Server.stt_enabled s = true
  /\ STT.is_connected (STT.state (Server.stt s)) = true
  /\ exists c, STT.connection (Server.stt s) = Some c /\ reliable c.

(** The audio [handle_media] takes out of a run of media frames: the frames
    of the inbound track (or of no named track) whose payload is non-empty
    and decodes. *)
Definition inbound_audio (decode : PyStr.str -> option bytes)
           (ms : list Server.media) : list bytes :=
  flat_map
    (fun m =>
       if TTS.str_eqb (Server.track_or (PyStr.lit "inbound") m)
                      (PyStr.lit "inbound")
       then match Server.payload m with
            | Some (c :: p) =>
                match decode (c :: p) with
                | Some audio_data => [audio_data]
                | None => []
                end
            | _ => []
            end
       else []) ms.

Module FixtureListening.
Import PyStr.

(** The greeting is over and nobody has spoken yet. *)
Definition after_greeting : Server.CallSession :=
  Server.run Fixture.decode
    [Server.DeepgramConnected (Remote.Opens []) (Remote.Opens []);
     Server.GreetingGateOff; Server.GreetingText; Server.GreetingFlush;
     Server.GreetingGateOn; Server.GreetingFinally]
    Fixture.session.

(** An inbound frame, an outbound echo, a frame without track, an empty
    one. *)
Definition frames : list Server.media :=
  [Server.mkMedia (Some (lit "AAAA")) (Some (lit "inbound"));
   Server.mkMedia (Some (lit "BBBB")) (Some (lit "outbound"));
   Server.mkMedia (Some (lit "CCCC")) None;
   Server.mkMedia (Some []) (Some (lit "inbound"))].

End FixtureListening.

(* ------------------------------------------------------------------ *)
(** ** A Python [dict] with [str] keys

    Entries in insertion order; assigning to a key that is present replaces
    its value in place. *)

Module Dict.
Import PyStr.

Section WithValue.
Context {V : Type}.

Definition dict := list (str * V).

Definition key_eqb (a b : str) : bool :=
  if list_eq_dec N.eq_dec a b then true else false.

(** [d.get(k)] *)
Fixpoint get (k : str) (d : dict) : option V :=
  match d with
  | [] => None
  | (k', v) :: rest => if key_eqb k k' then Some v else get k rest
  end.

(** [k in d] *)
Definition mem (k : str) (d : dict) : bool :=
  match get k d with Some _ => true | None => false end.

(** [d[k] = v] *)
Fixpoint set (k : str) (v : V) (d : dict) : dict :=
  match d with
  | [] => [(k, v)]
  | (k', v') :: rest =>
      if key_eqb k k' then (k', v) :: rest else (k', v') :: set k v rest
  end.

(** [del d[k]] for a key that is present (the callers test it first). *)
Definition del (k : str) (d : dict) : dict :=
  filter (fun kv => negb (key_eqb k (fst kv))) d.

Definition keys (d : dict) : list str := map fst d.

End WithValue.

Arguments dict : clear implicits.

End Dict.

(* ------------------------------------------------------------------ *)
(** ** call_manager.py *)

Module CallMgr.
Import PyStr.

(** [CallState] *)
Record CallState := mkCallState {
  call_control_id : str;
  call_leg_id : str;
  to_number : str;
  from_number : str;
  status : str;
  stream_id : option str
}.

Definition set_status (st : str) (c : CallState) : CallState :=
  mkCallState (call_control_id c) (call_leg_id c) (to_number c)
              (from_number c) st (stream_id c).

Definition set_stream_id (sid : option str) (c : CallState) : CallState :=
  mkCallState (call_control_id c) (call_leg_id c) (to_number c)
              (from_number c) (status c) sid.

(** [TelnyxConfig] *)
Record TelnyxConfig := mkTelnyxConfig {
  api_key : str;
  connection_id : str;
  phone_number : str
}.

(** The calls made on the Telnyx client, with the arguments that vary. *)
Inductive command :=
| Dial (connection_id to from_ stream_url : str)
| StartStreaming (call_control_id stream_url : str)
| Hangup (call_control_id : str).

Record CallManager := mkCallManager {
  config : TelnyxConfig;
  public_ws_url : str;
  client : Remote.conn command;
  active_calls : Dict.dict CallState
}.

(** [CallManager.__init__]; [script] tells which calls of the client will
    raise. *)
Definition init (cfg : TelnyxConfig) (url : str) (script : list bool)
  : CallManager :=
  mkCallManager cfg url (Remote.fresh script) [].

Definition set_client (c : Remote.conn command) (m : CallManager)
  : CallManager :=
  mkCallManager (config m) (public_ws_url m) c (active_calls m).

Definition set_active_calls (d : Dict.dict CallState) (m : CallManager)
  : CallManager :=
  mkCallManager (config m) (public_ws_url m) (client m) d.

(** A result that is a value or an exception that leaves the function. *)
Inductive result (A : Type) :=
| Returns (a : A)
| Raises.
Arguments Returns {A} a.
Arguments Raises {A}.

(** [initiate_call]; [response] is what [response.data] holds when
    [dial] answers: the call control id and the call leg id. *)
Definition initiate_call (to_number : str) (from_number : option str)
           (response : str * str) (m : CallManager)
  : CallManager * result CallState :=
  let from_number :=
    match from_number with
    | Some (c :: f) => c :: f
    | _ => phone_number (config m)
    end in
  let (cl, raised) :=
    Remote.send (Dial (connection_id (config m)) to_number from_number
                      (public_ws_url m)) (client m) in
  let m := set_client cl m in
  if raised then (m, Raises)
  else
    let call_state :=
      mkCallState (fst response) (snd response) to_number from_number
                  (lit "initiated") None in
    (set_active_calls
       (Dict.set (fst response) call_state (active_calls m)) m,
     Returns call_state).

(** [start_media_streaming] *)
Definition start_media_streaming (call_control_id : str) (m : CallManager)
  : CallManager * result unit :=
  match Dict.get call_control_id (active_calls m) with
  | None => (m, Returns tt)
  | Some call_state =>
      let (cl, raised) :=
        Remote.send (StartStreaming call_control_id (public_ws_url m))
                    (client m) in
      let m := set_client cl m in
      if raised then (m, Raises)
      else
        (set_active_calls
           (Dict.set call_control_id
                     (set_status (lit "streaming") call_state)
                     (active_calls m)) m,
         Returns tt)
  end.

(** [hangup] *)
Definition hangup (call_control_id : str) (m : CallManager) : CallManager :=
  let m := set_client (fst (Remote.send (Hangup call_control_id) (client m)))
                      m in
  if Dict.mem call_control_id (active_calls m)
  then set_active_calls (Dict.del call_control_id (active_calls m)) m
  else m.

(** The keys [handle_webhook_event] reads from the event payload. *)
Record payload := mkPayload {
  p_call_control_id : option str;
  p_stream_id : option str;
  p_result : option str
}.

Definition no_payload : payload := mkPayload None None None.

(** [self.active_calls[k].attr = ...] under [if k in self.active_calls]. *)
Definition update_call (k : option str) (f : CallState -> CallState)
           (m : CallManager) : CallManager :=
  match k with
  | Some k =>
      match Dict.get k (active_calls m) with
      | Some c => set_active_calls (Dict.set k (f c) (active_calls m)) m
      | None => m
      end
  | None => m
  end.

(** [handle_webhook_event] *)
Definition handle_webhook_event (event_type : str) (p : payload)
           (m : CallManager) : CallManager * option str :=
  let call_control_id := p_call_control_id p in
  if Dict.key_eqb event_type (lit "call.answered") then
    (update_call call_control_id (set_status (lit "answered")) m,
     call_control_id)
  else if Dict.key_eqb event_type (lit "call.hangup") then
    (match call_control_id with
     | Some k =>
         if Dict.mem k (active_calls m)
         then set_active_calls (Dict.del k (active_calls m)) m
         else m
     | None => m
     end, call_control_id)
  else if Dict.key_eqb event_type (lit "streaming.started") then
    (update_call call_control_id (set_stream_id (p_stream_id p)) m,
     call_control_id)
  else if Dict.key_eqb event_type (lit "call.machine.detection.ended") then
    (m, call_control_id)
  else (m, None).

(** *** The webhook route of websocket_server.py *)

(** The body of a webhook request, as far as the route reads it. *)
Record webhook := mkWebhook {
  event_type : option str;        (* data.get("event_type", "") *)
  event_payload : option payload  (* data.get("payload", {}) *)
}.

Inductive http_status := OK_200 | Error_500.

(** [telnyx_webhook]; [body] is [None] when the request is not JSON, and
    the session manager is set up. *)
Definition telnyx_webhook (body : option webhook) (m : CallManager)
  : CallManager * http_status :=
  match body with
  | None => (m, Error_500)
  | Some w =>
      let event_type :=
        match event_type w with Some t => t | None => [] end in
      let event_payload :=
        match event_payload w with Some p => p | None => no_payload end in
      let (m, call_control_id) :=
        handle_webhook_event event_type event_payload m in
      match call_control_id with
      | Some (c :: k) =>
          if Dict.key_eqb event_type (lit "call.answered") then
            match start_media_streaming (c :: k) m with
            | (m, Returns _) => (m, OK_200)
            | (m, Raises) => (m, Error_500)
            end
          else (m, OK_200)
      | _ => (m, OK_200)
      end
  end.

End CallMgr.

Module FixtureCalls.
Import PyStr.

Definition cfg : CallMgr.TelnyxConfig :=
  CallMgr.mkTelnyxConfig (lit "KEY") (lit "conn-1") (lit "+15550000000").

(** One call placed and registered. *)
Definition dialled : CallMgr.CallManager :=
  fst (CallMgr.initiate_call (lit "+15551234567") None
                             (lit "v3:abc", lit "leg-1")
                             (CallMgr.init cfg (lit "wss://example/telnyx") [])).

Definition answered : CallMgr.webhook :=
  CallMgr.mkWebhook
    (Some (lit "call.answered"))
    (Some (CallMgr.mkPayload (Some (lit "v3:abc")) None None)).

End FixtureCalls.

(* ------------------------------------------------------------------ *)
(** ** config.py *)

From Stdlib Require Import ZArith.

Module Config.
Import PyStr.

(** [os.getenv]: the environment once the [.env] files are loaded. *)
Definition environ := str -> option str.

(** The [ValueError]s that can leave [load_config]: the one
    [_get_required_env] raises, and the one of [int()] or [float()] on a
    text that is no number. *)
Inductive error :=
| Missing (key : str)
| NotANumber (key : str).

Inductive result (A : Type) :=
| Ok (a : A)
| ValueError (e : error).
Arguments Ok {A} a.
Arguments ValueError {A} e.

Definition bind {A B : Type} (r : result A) (k : A -> result B)
  : result B :=
  match r with
  | Ok a => k a
  | ValueError e => ValueError e
  end.

(** [_get_required_env] *)
Definition _get_required_env (key : str) (env : environ) : result str :=
  match env key with
  | Some (c :: v) => Ok (c :: v)
  | _ => ValueError (Missing key)
  end.

(** [_get_optional_env] *)
Definition _get_optional_env (key default : str) (env : environ) : str :=
  match env key with
  | Some v => v
  | None => default
  end.

Section WithNumbers.

(** [int(value)]; [None] when it raises. *)
Variable int : str -> option Z.

(** Python floats and [float(value)]; the default temperature 0.7. *)
Variable float_t : Type.
Variable float : str -> option float_t.
Variable float_0_7 : float_t.

(** [_get_optional_int] *)
Definition _get_optional_int (key : str) (default : Z) (env : environ)
  : result Z :=
  match env key with
  | Some (c :: v) =>
      match int (c :: v) with
      | Some n => Ok n
      | None => ValueError (NotANumber key)
      end
  | _ => Ok default
  end.

(** [_get_optional_float] *)
Definition _get_optional_float (key : str) (default : float_t)
           (env : environ) : result float_t :=
  match env key with
  | Some (c :: v) =>
      match float (c :: v) with
      | Some x => Ok x
      | None => ValueError (NotANumber key)
      end
  | _ => Ok default
  end.

Record DeepgramConfig := mkDeepgramConfig {
  dg_api_key : str;
  stt_model : str;
  tts_model : str;
  sample_rate : Z;
  encoding : str;
  endpointing_ms : Z;
  utterance_end_ms : Z
}.

Record BedrockConfig := mkBedrockConfig {
  br_api_key : str;
  region : str;
  model_id : str;
  max_tokens : Z;
  temperature : float_t
}.

Record ServerConfig := mkServerConfig {
  host : str;
  port : Z;
  public_ws_url : str
}.

Record Config := mkConfig {
  telnyx : CallMgr.TelnyxConfig;
  deepgram : DeepgramConfig;
  bedrock : BedrockConfig;
  server : ServerConfig
}.

(** [load_config]: the arguments are evaluated in the order written. *)
Definition load_config (env : environ) : result Config :=
  bind (_get_required_env (lit "TELNYX_API_KEY") env) (fun t_key =>
  bind (_get_required_env (lit "TELNYX_CONNECTION_ID") env) (fun t_conn =>
  bind (_get_required_env (lit "TELNYX_PHONE_NUMBER") env) (fun t_phone =>
  bind (_get_required_env (lit "DEEPGRAM_API_KEY") env) (fun d_key =>
  let d_stt := _get_optional_env (lit "DEEPGRAM_STT_MODEL") (lit "nova-2")
                                 env in
  let d_tts := _get_optional_env (lit "DEEPGRAM_TTS_MODEL")
                                 (lit "aura-2-thalia-en") env in
  bind (_get_optional_int (lit "DEEPGRAM_ENDPOINTING_MS") 300 env)
       (fun d_end =>
  bind (_get_optional_int (lit "DEEPGRAM_UTTERANCE_END_MS") 1000 env)
       (fun d_utt =>
  bind (_get_required_env (lit "BEDROCK_API_KEY") env) (fun b_key =>
  let b_region := _get_optional_env (lit "AWS_REGION") (lit "us-east-1")
                                    env in
  let b_model := _get_optional_env (lit "BEDROCK_MODEL_ID")
                                   (lit "us.amazon.nova-pro-v1:0") env in
  bind (_get_optional_int (lit "BEDROCK_MAX_TOKENS") 50 env) (fun b_max =>
  bind (_get_optional_float (lit "BEDROCK_TEMPERATURE") float_0_7 env)
       (fun b_temp =>
  let s_host := _get_optional_env (lit "SERVER_HOST") (lit "0.0.0.0") env in
  bind (_get_optional_int (lit "SERVER_PORT") 8765 env) (fun s_port =>
  bind (_get_required_env (lit "PUBLIC_WS_URL") env) (fun s_url =>
  Ok (mkConfig
        (CallMgr.mkTelnyxConfig t_key t_conn t_phone)
        (mkDeepgramConfig d_key d_stt d_tts 8000 (lit "mulaw") d_end d_utt)
        (mkBedrockConfig b_key b_region b_model b_max b_temp)
        (mkServerConfig s_host s_port s_url))))))))))))).

End WithNumbers.

(** The variables [load_config] requires. *)
Definition required : list str :=
  [lit "TELNYX_API_KEY"; lit "TELNYX_CONNECTION_ID";
   lit "TELNYX_PHONE_NUMBER"; lit "DEEPGRAM_API_KEY";
   lit "BEDROCK_API_KEY"; lit "PUBLIC_WS_URL"].

(** The variables it reads as integers. *)
Definition integers : list str :=
  [lit "DEEPGRAM_ENDPOINTING_MS"; lit "DEEPGRAM_UTTERANCE_END_MS";
   lit "BEDROCK_MAX_TOKENS"; lit "SERVER_PORT"].

(** The variable is set to a non-empty text. *)
Definition present (env : environ) (key : str) : Prop :=
  exists c v, env key = Some (c :: v).

(** The variable is unset, empty, or a text the parser accepts. *)
Definition parses {A : Type} (parse : str -> option A) (env : environ)
           (key : str) : Prop :=
  match env key with
  | Some (c :: v) => parse (c :: v) <> None
  | _ => True
  end.

End Config.

Module FixtureEnv.
Import PyStr.

(** Only the six required variables are set; the port is set but empty. *)
Definition minimal : Config.environ :=
  fun key =>
    if existsb (Dict.key_eqb key) Config.required then Some (lit "x")
    else if Dict.key_eqb key (lit "SERVER_PORT") then Some []
    else if Dict.key_eqb key (lit "AWS_REGION") then Some []
    else None.

(** A parser of decimal digits, enough for the examples. *)
Definition digits (s : str) : option Z :=
  fold_left (fun acc c =>
               match acc with
               | Some n =>
                   if ((48 <=? c) && (c <=? 57))%N
                   then Some (10 * n + Z.of_N (c - 48))%Z
                   else None
               | None => None
               end) s (Some 0%Z).

End FixtureEnv.

(* ------------------------------------------------------------------ *)
(** ** Preparing the language model for a call *)

Module LLMSetup.
Import PyStr.

Definition squote : N := 39%N.

Definition DEFAULT_SYSTEM_PROMPT : str :=
  join [newline]
    [lit "You are a helpful AI assistant on a phone call. Follow these guidelines:";
     [];
     lit "1. Keep responses concise and natural - speak as you would in a real conversation";
     lit "2. Use short sentences that are easy to speak and understand";
     lit "3. Avoid lists, bullet points, or complex formatting - use flowing speech";
     lit "4. Don't use special characters, emojis, or markdown";
     lit "5. If you don't understand something, ask for clarification naturally";
     lit "6. Be friendly, warm, and conversational";
     lit "7. Acknowledge what the caller said before responding";
     lit "8. End responses naturally without asking unnecessary follow-up questions";
     [];
     lit "You're here to help the caller with their request."].

(** The text that names the purpose in a system prompt. *)
Definition purpose_suffix (purpose : str) : str :=
  [newline; newline] ++ lit "Call purpose: " ++ purpose.

(** [LLMHandler.__init__] *)
Definition __init__ (system_prompt purpose : option str) : LLM.LLMHandler :=
  let prompt :=
    match system_prompt with
    | Some (c :: p) => c :: p
    | _ => DEFAULT_SYSTEM_PROMPT
    end in
  let prompt :=
    match purpose with
    | Some (c :: p) => prompt ++ purpose_suffix (c :: p)
    | _ => prompt
    end in
  LLM.mkLLMHandler [] prompt purpose None.

(** What [_make_request] followed by [_extract_response_text] gives: the
    text of the completion, or [None] when the request or the extraction
    fails. *)
Definition reply := option str.

(** [generate_system_prompt] *)
Definition generate_system_prompt (purpose : str) (r : reply) : str :=
  match r with
  | Some (c :: text) => c :: text
  | _ => DEFAULT_SYSTEM_PROMPT ++ purpose_suffix purpose
  end.

(** [s.lstrip(chars)] and [s.strip(chars)] *)
Fixpoint lstrip_chars (chars : list N) (s : str) : str :=
  match s with
  | [] => []
  | c :: t => if existsb (N.eqb c) chars then lstrip_chars chars t else s
  end.

Definition strip_chars (chars : list N) (s : str) : str :=
  rev (lstrip_chars chars (rev (lstrip_chars chars s))).

(** [generate_greeting] *)
Definition generate_greeting (purpose : str) (r : reply) : str :=
  match r with
  | Some (c :: text) => strip_chars [dquote; squote] (strip (c :: text))
  | _ =>
      lit "Hello, this is an AI assistant calling about " ++ purpose
        ++ lit "."
  end.

(** [initialize_for_call]: the two requests only read the handler. *)
Definition initialize_for_call (purpose : str)
           (prompt_reply greeting_reply : reply) (h : LLM.LLMHandler)
  : LLM.LLMHandler * (str * str) :=
  let system_prompt := generate_system_prompt purpose prompt_reply in
  let greeting := generate_greeting purpose greeting_reply in
  (LLM.mkLLMHandler (LLM.messages h) system_prompt (Some purpose)
                    (Some greeting),
   (system_prompt, greeting)).

(** The attributes [run_server_and_call] leaves on [app.state]. *)
Record AppState := mkAppState {
  call_purpose : str;
  system_prompt : option str;
  pre_generated_greeting : option str;
  pre_generated_system_prompt : option str
}.

(** [run_server_and_call], the pre-generation before dialling. *)
Definition pre_generate (purpose : str) (system_prompt_arg : option str)
           (server_only : bool) (prompt_reply greeting_reply : reply)
  : AppState :=
  if truthy purpose && negb server_only then
    let llm := __init__ None None in
    let '(_, (system_prompt, greeting)) :=
      initialize_for_call purpose prompt_reply greeting_reply llm in
    mkAppState purpose system_prompt_arg (Some greeting)
               (Some system_prompt)
  else mkAppState purpose system_prompt_arg None None.

Definition default_greeting : str := lit "Hello, this is an AI assistant.".

(** [create_session], the choice of the handler and of the greeting.  The
    two replies are those of the requests made when nothing was
    pre-generated. *)
Definition choose_llm (app : AppState) (purpose : option str)
           (prompt_reply greeting_reply : reply)
  : LLM.LLMHandler * str :=
  match pre_generated_greeting app, pre_generated_system_prompt app with
  | Some (c :: g), Some (d :: p) =>
      (LLM.set_greeting_text (Some (c :: g))
                             (__init__ (Some (d :: p)) purpose),
       c :: g)
  | _, _ =>
      match purpose with
      | Some (c :: p) =>
          let '(llm, (_, greeting)) :=
            initialize_for_call (c :: p) prompt_reply greeting_reply
                                (__init__ None None) in
          (llm, greeting)
      | _ => (__init__ None None, default_greeting)
      end
  end.

(** [create_session] as the endpoint calls it on a ["start"] frame: the
    purpose is [app.state.call_purpose]. *)
Definition create_session (app : AppState)
           (call_control_id stream_id : str)
           (prompt_reply greeting_reply : reply)
           (websocket : Remote.conn Server.outbound) : Server.CallSession :=
  let '(llm, greeting) :=
    choose_llm app (Some (call_purpose app)) prompt_reply greeting_reply in
  Server.create_session call_control_id stream_id greeting llm websocket.

End LLMSetup.

(* ------------------------------------------------------------------ *)
(** ** main.py: the settings of a run *)

Module Main.
Import PyStr.

(** The [argparse.Namespace] of [parse_args]. *)
Record Args := mkArgs {
  to : option str;
  from_number : option str;
  purpose : str;
  system_prompt : option str;
  voice : str;
  server_only : bool;
  host : option str;
  port : option Z;
  debug : bool
}.

(** The default of [--voice]. *)
Definition default_voice : str := lit "aura-2-thalia-en".

Section WithNumbers.

Variable int : str -> option Z.
Variable float_t : Type.
Variable float : str -> option float_t.
Variable float_0_7 : float_t.

(** [replace(config, deepgram=replace(config.deepgram, tts_model=v))] *)
Definition replace_tts_model (v : str) (config : Config.Config float_t)
  : Config.Config float_t :=
  let d := Config.deepgram float_t config in
  Config.mkConfig float_t
    (Config.telnyx float_t config)
    (Config.mkDeepgramConfig
       (Config.dg_api_key d) (Config.stt_model d) v (Config.sample_rate d)
       (Config.encoding d) (Config.endpointing_ms d)
       (Config.utterance_end_ms d))
    (Config.bedrock float_t config)
    (Config.server float_t config).

(** [run_server_and_call]: the host, the port and the configuration the
    run goes on with. *)
Definition overrides (args : Args) (config : Config.Config float_t)
  : str * Z * Config.Config float_t :=
  let host :=
    match host args with
    | Some (c :: h) => c :: h
    | _ => Config.host (Config.server float_t config)
    end in
  let port :=
    match port args with
    | Some p =>
        if (p =? 0)%Z then Config.port (Config.server float_t config)
        else p
    | None => Config.port (Config.server float_t config)
    end in
  let config :=
    if truthy (voice args) then replace_tts_model (voice args) config
    else config in
  (host, port, config).

Definition settings (args : Args) (env : Config.environ)
  : Config.result (str * Z * Config.Config float_t) :=
  Config.bind (Config.load_config int float_t float float_0_7 env)
              (fun config => Config.Ok (overrides args config)).

End WithNumbers.

End Main.

Module FixtureMain.
Import PyStr.

(** [--to +15551234567] and nothing else on the command line. *)
Definition plain : Main.Args :=
  Main.mkArgs (Some (lit "+15551234567")) None [] None Main.default_voice
              false None None false.

(** The minimal environment with another voice configured. *)
Definition zeus : Config.environ :=
  fun key =>
    if Dict.key_eqb key (lit "DEEPGRAM_TTS_MODEL")
    then Some (lit "aura-2-zeus-en")
    else FixtureEnv.minimal key.

End FixtureMain.

(* ------------------------------------------------------------------ *)
(** ** The Telnyx endpoint as a loop *)

Module Endpoint.
Import PyStr.

(** A message of the socket, by its ["event"].  The stream id of a start
    frame is a text, possibly empty. *)
Inductive frame :=
| Connected
| Start (stream_id call_control_id : str)
        (prompt_reply greeting_reply : LLMSetup.reply)
| Media (m : Server.media)
| Stop
| Mark
| Other.

(** What one [await asyncio.wait_for(websocket.receive_text(), ...)] and
    the reading of the message come to: the timeout, an exception
    ([WebSocketDisconnect], or the one of [json.loads] or of a [get] on
    something that is no object), or a frame. *)
Inductive received :=
| Timeout
| Raised
| Frame (f : frame).

(** The session objects made so far, [session_manager.sessions] (which
    holds references to them), the socket, and the two locals of
    [telnyx_websocket]. *)
Record state := mkState {
  heap : list Server.CallSession;
  sessions : Dict.dict nat;
  websocket : Remote.conn Server.outbound;
  stream_id : option str;
  session : option nat
}.

Fixpoint modify {A : Type} (i : nat) (f : A -> A) (l : list A) : list A :=
  match l, i with
  | [], _ => []
  | x :: l', 0 => f x :: l'
  | x :: l', S j => x :: modify j f l'
  end.

Definition set_heap (h : list Server.CallSession) (e : state) : state :=
  mkState h (sessions e) (websocket e) (stream_id e) (session e).

(** What runs beside the endpoint: the callbacks and tasks of the
    sessions.  Frames, drains and [close_session] are the endpoint's own
    doing. *)
Definition in_background (ev : Server.event) : bool :=
  match ev with
  | Server.TelnyxMedia _ | Server.DrainTtsQueue | Server.CloseSession =>
      false
  | _ => true
  end.

Section WithApp.

Variable app : LLMSetup.AppState.
Variable base64_decode : str -> option bytes.

Definition run_background (bg : list (nat * Server.event)) (e : state)
  : state :=
  fold_left
    (fun e b =>
       if in_background (snd b)
       then set_heap
              (modify (fst b)
                      (fun s => Server.step base64_decode s (snd b))
                      (heap e)) e
       else e)
    bg e.

(** [drain_tts_queue]: the session's socket is the endpoint's. *)
Definition drain_tts_queue (e : state) : state :=
  match session e with
  | None => e
  | Some i =>
      match nth_error (heap e) i with
      | None => e
      | Some s =>
          let s := Server.drain_tts_queue
                     (Server.set_websocket (websocket e) s) in
          mkState (modify i (fun _ => s) (heap e)) (sessions e)
                  (Server.websocket s) (stream_id e) (session e)
      end
  end.

(** The ["start"] branch: [create_session] makes the session and
    registers it. *)
Definition create_session (call_control_id stream_id : str)
           (prompt_reply greeting_reply : LLMSetup.reply) (e : state)
  : state :=
  let s := LLMSetup.create_session app call_control_id stream_id
                                   prompt_reply greeting_reply
                                   (websocket e) in
  let i := length (heap e) in
  mkState (heap e ++ [s]) (Dict.set stream_id i (sessions e))
          (websocket e) (Some stream_id) (Some i).

(** [SessionManager.close_session] *)
Definition close_session (stream_id : str) (e : state) : state :=
  match Dict.get stream_id (sessions e) with
  | None => e
  | Some i =>
      mkState (modify i Server.close_session (heap e))
              (Dict.del stream_id (sessions e))
              (websocket e) (Endpoint.stream_id e) (session e)
  end.

(** [if stream_id and session_manager: await close_session(stream_id)] *)
Definition close_current (e : state) : state :=
  match stream_id e with
  | Some (c :: sid) => close_session (c :: sid) e
  | _ => e
  end.

(** One turn of the [while True]; the [bool] tells whether the loop goes
    on.  [bg] is what the sessions do while the endpoint waits for the
    message. *)
Definition turn (bg : list (nat * Server.event)) (r : received)
           (e : state) : state * bool :=
  let e := run_background bg (drain_tts_queue e) in
  match r with
  | Timeout => (e, true)
  | Raised => (e, false)
  | Frame (Start sid cid prompt_reply greeting_reply) =>
      (create_session cid sid prompt_reply greeting_reply e, true)
  | Frame (Media m) =>
      match session e with
      | None => (e, true)
      | Some i =>
          (set_heap (modify i (Server.endpoint_media base64_decode m)
                            (heap e)) e,
           true)
      end
  | Frame Stop => (close_current e, false)
  | Frame _ => (e, true)
  end.

(** The loop over what the socket delivers; [true] when it has not ended
    with these messages. *)
Fixpoint loop (rs : list (list (nat * Server.event) * received))
         (e : state) : state * bool :=
  match rs with
  | [] => (e, true)
  | r :: rs' =>
      let (e', go) := turn (fst r) (snd r) e in
      if go then loop rs' e' else (e', false)
  end.

(** [telnyx_websocket] from the accepted socket to its return, [finally]
    included; [None] while the loop is still running. *)
Definition telnyx_websocket
           (rs : list (list (nat * Server.event) * received)) (e : state)
  : option state :=
  let (e', go) := loop rs e in
  if go then None else Some (close_current e').

End WithApp.

(** The message ends the loop. *)
Definition ends (r : list (nat * Server.event) * received) : Prop :=
  snd r = Raised \/ snd r = Frame Stop.

(** The message neither ends the loop nor starts a stream. *)
Definition quiet (r : list (nat * Server.event) * received) : Prop :=
  match snd r with
  | Raised | Frame Stop | Frame (Start _ _ _ _) => False
  | _ => True
  end.

(** The message does not start the stream [sid]. *)
Definition starts_other (sid : str)
           (r : list (nat * Server.event) * received) : Prop :=
  match snd r with
  | Frame (Start sid' _ _ _) => sid' <> sid
  | _ => True
  end.

(** The endpoint as [telnyx_websocket] finds it: no stream yet, and the
    manager's references point at sessions that exist. *)
Definition accepted (e : state) : Prop :=
  stream_id e = None /\ session e = None
  /\ forall k i, Dict.get k (sessions e) = Some i -> i < length (heap e).

(** Nothing but the sessions changed, and no session was added, closed or
    reopened. *)
Definition same_activity (e e' : state) : Prop :=
  sessions e' = sessions e
  /\ stream_id e' = stream_id e
  /\ session e' = session e
  /\ length (heap e') = length (heap e)
  /\ forall i s,
      nth_error (heap e) i = Some s ->
      exists s', nth_error (heap e') i = Some s'
                 /\ Server.is_active s' = Server.is_active s.

(** The session registered under [sid] is the object [i], and it is
    active. *)
Definition open_under (sid : str) (i : nat) (e : state) : Prop :=
  Dict.get sid (sessions e) = Some i
  /\ exists s, nth_error (heap e) i = Some s
               /\ Server.is_active s = true.

(** The endpoint between a start frame and the end of the loop: its
    stream is registered and its session active. *)
Definition streaming (e0 e : state) : Prop :=
  match stream_id e, session e with
  | None, None => sessions e = sessions e0
  | Some sid, Some i => open_under sid i e
  | _, _ => False
  end.

(** The endpoint after it closed its stream. *)
Definition closed (e : state) : Prop :=
  exists c sid i s,
    stream_id e = Some (c :: sid) /\ session e = Some i
    /\ Dict.get (c :: sid) (sessions e) = None
    /\ nth_error (heap e) i = Some s
    /\ Server.is_active s = false.

(** The session [i] is open under [sid], and under no other id. *)
Definition only_under (sid : str) (i : nat) (e : state) : Prop :=
  open_under sid i e
  /\ forall k, k <> sid -> Dict.get k (sessions e) <> Some i.

End Endpoint.

Module FixtureEndpoint.
Import PyStr.

Definition app : LLMSetup.AppState :=
  LLMSetup.mkAppState [] None None None.

Definition socket : Endpoint.state :=
  Endpoint.mkState [] [] (Remote.fresh []) None None.

Definition start (sid : string) : list (nat * Server.event)
                                  * Endpoint.received :=
  ([], Endpoint.Frame (Endpoint.Start (lit sid) (lit "v3:call") None None)).

(** A stream starts, is replaced by a second one on the same socket, and
    the second one stops. *)
Definition restarted : list (list (nat * Server.event) * Endpoint.received) :=
  [start "stream-1"; ([], Endpoint.Timeout); start "stream-2";
   ([], Endpoint.Frame Endpoint.Stop)].

End FixtureEndpoint.

(* ------------------------------------------------------------------ *)
(** ** Fixtures: full queues, a failing synthesizer, overlapping runs *)

Module FixtureFull.
Import PyStr.

(** A frame that differs from [Fixture.frame], to tell the oldest apart. *)
Definition first_frame : bytes :=
  [Byte.x00; Byte.x00; Byte.x00; Byte.x00].

Definition inbound (payload : string) : Server.event :=
  Server.TelnyxMedia
    (Server.mkMedia (Some (lit payload)) (Some (lit "inbound"))).

(** A call in which the recognizer's socket closes after the greeting
    while the caller goes on for 500 frames, which are buffered, and the
    synthesizer then delivers 1000 frames of which none is drained. *)
Definition events : list Server.event :=
  [Server.DeepgramConnected (Remote.Opens []) (Remote.Opens []);
   Server.GreetingGateOff; Server.GreetingText; Server.GreetingFlush;
   Server.GreetingGateOn; Server.GreetingFinally; Server.SttClosed]
  ++ inbound "A" :: repeat (inbound "B") 499
  ++ Server.TtsMessage (TTS.Audio first_frame)
     :: repeat (Server.TtsMessage (TTS.Audio Fixture.frame)) 999.

Definition full : Server.CallSession :=
  Server.run Fixture.decode events Fixture.session.

End FixtureFull.

Module FixtureFlaky.
Import PyStr.

(** A handler whose socket is open and whose first send will raise. *)
Definition failing_send : TTS.TTSHandler :=
  fst (TTS.connect (Remote.Opens [true])
                   (TTS.on_complete (TTS.on_audio TTS.init))).

End FixtureFlaky.

(** *** Runs of [generate_response_stream] that may overlap

    [on_user_finished] starts a task for each transcript and waits for
    none, so a run can begin while earlier ones are still streaming.  A
    run touches the handler at two moments: when it begins (up to the
    [await] of the request) and when it ends (the assistant message, or
    the [CancelledError]). *)
Module LLMRuns.
Import PyStr.

Inductive event :=
| Begin (user_input : str)
| End (o : LLM.outcome).

Definition step (h : LLM.LLMHandler) (e : event) : LLM.LLMHandler :=
  match e with
  | Begin user_input => fst (LLM.request_phase user_input h)
  | End o => fst (fst (LLM.stream_phase o h))
  end.

Definition play (es : list event) (h : LLM.LLMHandler) : LLM.LLMHandler :=
  fold_left step es h.

(** No run ends before it began: [running] runs are under way. *)
Fixpoint balanced (running : nat) (es : list event) : bool :=
  match es with
  | [] => true
  | Begin _ :: es' => balanced (S running) es'
  | End _ :: es' =>
      match running with
      | 0 => false
      | S n => balanced n es'
      end
  end.

(** The runs come one after the other, each to its end before the next
    begins. *)
Definition sequential (ts : list (str * LLM.outcome)) : list event :=
  flat_map (fun t => [Begin (fst t); End (snd t)]) ts.

(** The request the next run posts. *)
Definition next_request (user_input : str) (es : list event)
           (h : LLM.LLMHandler) : LLM.request :=
  snd (LLM.request_phase user_input (play es h)).

End LLMRuns.

Module FixtureRuns.
Import PyStr.

(** One question, answered to the end. *)
Definition answered : list (str * LLM.outcome) :=
  [(lit "What's the weather?", LLM.Response FixtureLLM.sunny)].

(** A second transcript arrives while the first answer is streaming. *)
Definition overlapping : list LLMRuns.event :=
  [LLMRuns.Begin (lit "What's the weather?")].

End FixtureRuns.
(* ================================================================== *)
(** * Properties *)

(* ------------------------------------------------------------------ *)
(** ** The greeting *)

Section GreetingFacts.

Variable base64_decode : PyStr.str -> option bytes.
Variable interleaved : nat -> list Server.event.
Variable raises : nat -> option Server.exn.

Lemma greeting_finally_flags (s : Server.CallSession) :
  Server.stt_enabled (Server.greeting_finally s) = true
  /\ Server.barge_in_enabled (Server.greeting_finally s) = true
  /\ Server.is_bot_speaking (Server.greeting_finally s) = false.
Proof. repeat split. Qed.

(** However the [try] block ends, [_send_greeting] ends in its [finally]
    block. *)
Lemma send_greeting_ends_in_finally greeting st :
  exists s,
    fst (snd (Server._send_greeting base64_decode interleaved raises
                                    greeting st))
    = Server.greeting_finally s.
Proof.
  unfold Server._send_greeting.
  destruct (Server.greeting_try _ _ _ _ st) as [[[]|[]] [s n]];
    exists s; reflexivity.
Qed.

(** An [Exception] inside the [try] is swallowed: the routine returns
    normally. *)
Lemma send_greeting_swallows_exception greeting st :
  fst (Server.greeting_try base64_decode interleaved raises greeting st)
  = inr Server.Exception ->
  fst (Server._send_greeting base64_decode interleaved raises greeting st)
  = inl tt.
Proof.
  unfold Server._send_greeting.
  destruct (Server.greeting_try _ _ _ _ st) as [[[]|[]] [s n]];
    simpl; intros H; try discriminate; reflexivity.
Qed.

(** The second loop of the greeting leaves through its [break] at the
    latest: more fuel than the 501 rounds changes nothing. *)
Lemma wait_for_drain_fuel n : forall playback_chunks extra st,
  playback_chunks + n = 501 ->
  0 < n ->
  Server.wait_for_drain base64_decode interleaved raises
                        (n + extra) playback_chunks st
  = Server.wait_for_drain base64_decode interleaved raises
                          n playback_chunks st.
Proof.
  induction n as [|n IH]; intros pc extra st Hsum Hpos; [lia|].
  change (S n + extra) with (S (n + extra)).
  cbn [Server.wait_for_drain]. unfold Server.bind, Server.read.
  destruct (Deque.truthy _ || (pc <? 50)); [|reflexivity].
  unfold Server.sleep, Server.await.
  destruct (raises (snd st)); [reflexivity|].
  destruct (Nat.ltb_spec 500 (S pc)); [reflexivity|].
  apply IH; lia.
Qed.

End GreetingFacts.

(** C10: every completion of [_send_greeting], also one in which sending or
    flushing the greeting raises (an [Exception], which is logged, or the
    [CancelledError] of a cancelled task, which goes on to the caller), and
    whatever ran on the event loop while it was suspended, leaves the session
    with [stt_enabled = True], [barge_in_enabled = True] and
    [is_bot_speaking = False]. *)
Theorem send_greeting_reopens_gates :
  forall (base64_decode : PyStr.str -> option bytes)
         (interleaved : nat -> list Server.event)
         (raises : nat -> option Server.exn)
         (greeting : PyStr.str) (s : Server.CallSession) (n : nat),
    let s' := fst (snd (Server._send_greeting base64_decode interleaved
                                              raises greeting (s, n))) in
    Server.stt_enabled s' = true
    /\ Server.barge_in_enabled s' = true
    /\ Server.is_bot_speaking s' = false.
Proof.
  intros decode il rs g s n s'.
  destruct (send_greeting_ends_in_finally decode il rs g (s, n)) as [s1 E].
  subst s'. rewrite E. apply greeting_finally_flags.
Qed.

Example greeting_with_failing_send :
  let r := Server._send_greeting
             Fixture.decode (fun _ => [])
             (fun n => if n =? 0 then Some Server.Exception else None)
             (PyStr.lit "Hello!") (Fixture.session, 0) in
  fst r = inl tt
  /\ Server.stt_enabled (fst (snd r)) = true
  /\ Server.barge_in_enabled (fst (snd r)) = true
  /\ Server.is_bot_speaking (fst (snd r)) = false.
Proof. vm_compute. repeat split. Qed.

(* ------------------------------------------------------------------ *)
(** ** Bounded deques *)

Section DequeFacts.

Context {A : Type}.
Implicit Types (d : Deque.deque A) (x : A).

Lemma append_maxlen x d : Deque.maxlen (Deque.append x d) = Deque.maxlen d.
Proof. reflexivity. Qed.

Lemma append_len_le x d :
  Deque.len d <= Deque.maxlen d ->
  Deque.len (Deque.append x d) <= Deque.maxlen d.
Proof.
  unfold Deque.len, Deque.append; simpl. intros H.
  destruct (Nat.ltb_spec (Deque.maxlen d) (length (Deque.items d ++ [x])))
    as [Hlt | Hge]; [|exact Hge].
  rewrite length_app in Hlt; simpl in Hlt.
  destruct (Deque.items d) as [|y l]; simpl in *; [lia|].
  rewrite length_app; simpl; lia.
Qed.

(** Room left: the item is added on the right and nothing is lost. *)
Lemma append_room x d :
  Deque.len d < Deque.maxlen d ->
  Deque.items (Deque.append x d) = Deque.items d ++ [x].
Proof.
  unfold Deque.len, Deque.append; simpl. intros H.
  destruct (Nat.ltb_spec (Deque.maxlen d) (length (Deque.items d ++ [x])))
    as [Hlt | Hge]; [|reflexivity].
  rewrite length_app in Hlt; simpl in Hlt; lia.
Qed.

(** Full: the leftmost (oldest) item goes, the others keep their order,
    the new item is last. *)
Lemma append_full x d :
  Deque.len d = Deque.maxlen d ->
  Deque.items (Deque.append x d) = tl (Deque.items d ++ [x]).
Proof.
  unfold Deque.len, Deque.append; simpl. intros H.
  destruct (Nat.ltb_spec (Deque.maxlen d) (length (Deque.items d ++ [x])))
    as [Hlt | Hge]; [reflexivity|].
  rewrite length_app in Hge; simpl in Hge; lia.
Qed.

Lemma append_full_nonempty x d :
  0 < Deque.maxlen d ->
  Deque.len d = Deque.maxlen d ->
  exists oldest rest,
    Deque.items d = oldest :: rest
    /\ Deque.items (Deque.append x d) = rest ++ [x].
Proof.
  intros Hpos Hfull. rewrite (append_full x d Hfull).
  unfold Deque.len in Hfull.
  destruct (Deque.items d) as [|y l]; simpl in *; [lia|].
  exists y, l; split; reflexivity.
Qed.

Lemma popleft_len d x d' :
  Deque.popleft d = Some (x, d') ->
  Deque.maxlen d' = Deque.maxlen d /\ Deque.len d = S (Deque.len d')
  /\ Deque.items d = x :: Deque.items d'.
Proof.
  unfold Deque.popleft, Deque.len.
  destruct (Deque.items d) as [|y l] eqn:E; [discriminate|].
  intros H; inversion H; subst; simpl. repeat split.
Qed.

End DequeFacts.

Lemma within_capacity_deques s s' :
  deques s' = deques s -> within_capacity s -> within_capacity s'.
Proof.
  unfold deques, within_capacity. intros E; inversion E as [[E1 E2]].
  rewrite E1, E2. exact (fun H => H).
Qed.

Ltac same_deques :=
  repeat match goal with
         | |- context [match ?x with _ => _ end] => destruct x
         | |- context [if ?b then _ else _] => destruct b
         end;
  try reflexivity.

Lemma on_speech_started_deques s :
  deques (Server.on_speech_started s) = deques s.
Proof.
  unfold Server.on_speech_started, Server.cancel_task. simpl.
  same_deques.
Qed.

Lemma on_user_finished_deques t s :
  deques (Server.on_user_finished t s) = deques s.
Proof. unfold Server.on_user_finished. simpl. same_deques. Qed.

Lemma dispatch_stt_deques cbs : forall s,
  deques (fold_left Server.dispatch_stt cbs s) = deques s.
Proof.
  induction cbs as [|cb cbs IH]; intros s; simpl; [reflexivity|].
  rewrite IH. destruct cb; simpl;
    auto using on_speech_started_deques, on_user_finished_deques.
Qed.

Lemma stt_message_deques m s :
  deques (Server.stt_message m s) = deques s.
Proof.
  unfold Server.stt_message.
  destruct (STT._process_message m (Server.stt s)) as [h cbs].
  rewrite dispatch_stt_deques. reflexivity.
Qed.

Lemma on_tts_audio_within_capacity a s :
  within_capacity s -> within_capacity (Server.on_tts_audio a s).
Proof.
  unfold Server.on_tts_audio, within_capacity.
  intros (Hm1 & Hm2 & Hl1 & Hl2).
  destruct (Server.is_active s); simpl; [|tauto].
  repeat split; try assumption.
  rewrite <- Hm2. apply append_len_le. rewrite Hm2. exact Hl2.
Qed.

Lemma dispatch_tts_within_capacity cbs : forall s,
  within_capacity s -> within_capacity (fold_left Server.dispatch_tts cbs s).
Proof.
  induction cbs as [|cb cbs IH]; intros s H; simpl; [exact H|].
  apply IH. destruct cb; simpl.
  - apply on_tts_audio_within_capacity, H.
  - exact H.
Qed.

Lemma tts_message_within_capacity m s :
  within_capacity s -> within_capacity (Server.tts_message m s).
Proof.
  unfold Server.tts_message. intros H.
  destruct (TTS._process_message m (Server.tts s)) as [h cbs].
  apply dispatch_tts_within_capacity. exact H.
Qed.

Section ServerFacts.

Variable base64_decode : PyStr.str -> option bytes.

Lemma handle_media_within_capacity m s :
  within_capacity s ->
  within_capacity (Server.handle_media base64_decode m s).
Proof.
  unfold Server.handle_media, within_capacity.
  intros (Hm1 & Hm2 & Hl1 & Hl2).
  destruct (negb _); [tauto|].
  destruct (Server.payload m) as [[|c p]|]; [tauto| |tauto].
  destruct (base64_decode (c :: p)) as [a|]; [|tauto].
  destruct (_ && _); [simpl; tauto|].
  destruct (negb _); [tauto|]. simpl.
  repeat split; try assumption.
  rewrite <- Hm1. apply append_len_le. rewrite Hm1. exact Hl1.
Qed.

Lemma endpoint_media_within_capacity m s :
  within_capacity s ->
  within_capacity (Server.endpoint_media base64_decode m s).
Proof.
  unfold Server.endpoint_media. intros H.
  apply handle_media_within_capacity.
  destruct (TTS.str_eqb _ _); exact H.
Qed.

Lemma drain_loop_within_capacity budget : forall s,
  within_capacity s -> within_capacity (Server.drain_loop budget s).
Proof.
  induction budget as [|b IH]; intros s H; simpl; [exact H|].
  destruct (Deque.popleft (Server.tts_audio_queue s)) as [[a q]|] eqn:E;
    [|exact H].
  destruct (popleft_len _ _ _ E) as (Hm & Hl & _).
  assert (H1 : within_capacity (Server.set_tts_audio_queue q s)).
  { destruct H as (Hm1 & Hm2 & Hl1 & Hl2).
    unfold within_capacity; simpl. repeat split; try assumption; lia. }
  destruct (Remote.send _ _) as [ws raised].
  destruct raised; [exact H1|].
  apply IH. exact H1.
Qed.

Lemma connect_deepgram_within_capacity a1 a2 s :
  within_capacity s ->
  within_capacity (fst (Server.connect_deepgram a1 a2 s)).
Proof.
  unfold Server.connect_deepgram. intros (Hm1 & Hm2 & Hl1 & Hl2).
  destruct (STT.connect a1 (Server.stt s)) as [h1 r1].
  destruct (TTS.connect a2 (Server.tts s)) as [h2 r2].
  destruct (r1 && r2); simpl; [|repeat split; assumption].
  destruct (0 <? _); simpl; repeat split; try assumption.
  unfold Deque.len; simpl; lia.
Qed.

Lemma response_begin_deques i s :
  deques (Server.response_begin i s) = deques s.
Proof. unfold Server.response_begin. same_deques. Qed.

Lemma response_end_deques i o s :
  deques (Server.response_end i o s) = deques s.
Proof.
  unfold Server.response_end.
  destruct (LLM.stream_phase o (Server.llm s)) as [[h ys] c].
  reflexivity.
Qed.

Lemma close_session_deques s :
  deques (Server.close_session s) = deques s.
Proof.
  unfold Server.close_session, Server.cancel_task. simpl. same_deques.
Qed.

Lemma step_within_capacity e s :
  within_capacity s -> within_capacity (Server.step base64_decode s e).
Proof.
  intros H. destruct e; simpl.
  - apply endpoint_media_within_capacity, H.
  - apply drain_loop_within_capacity, H.
  - apply (within_capacity_deques s); [apply stt_message_deques | exact H].
  - apply tts_message_within_capacity, H.
  - exact H.
  - exact H.
  - apply connect_deepgram_within_capacity, H.
  - exact H.
  - exact H.
  - exact H.
  - exact H.
  - exact H.
  - apply (within_capacity_deques s);
      [apply response_begin_deques | exact H].
  - exact H.
  - exact H.
  - apply (within_capacity_deques s);
      [apply response_end_deques | exact H].
  - apply (within_capacity_deques s);
      [apply close_session_deques | exact H].
Qed.

Lemma run_within_capacity es : forall s,
  within_capacity s -> within_capacity (Server.run base64_decode es s).
Proof.
  induction es as [|e es IH]; intros s H; simpl; [exact H|].
  apply IH, step_within_capacity, H.
Qed.

Lemma create_session_within_capacity cid sid g llm ws :
  within_capacity (Server.create_session cid sid g llm ws).
Proof.
  unfold within_capacity, Deque.len; simpl.
  repeat split; try reflexivity; apply Nat.le_0_l.
Qed.

Lemma reachable_within_capacity s :
  Server.reachable base64_decode s -> within_capacity s.
Proof.
  intros (cid & sid & g & llm & ws & es & ->).
  apply run_within_capacity, create_session_within_capacity.
Qed.

End ServerFacts.

(** C8: at every reachable state the pre-greeting audio buffer holds at
    most 500 frames and the outbound TTS queue at most 1000; appending to
    either adds the frame at the end while there is room, and when it is
    full removes its oldest frame, keeps the others in their order and puts
    the new frame last. *)
Theorem queues_stay_bounded :
  forall (base64_decode : PyStr.str -> option bytes) (s : Server.CallSession),
    Server.reachable base64_decode s ->
    (Deque.len (Server.audio_buffer s) <= 500
     /\ Deque.len (Server.tts_audio_queue s) <= 1000)
    /\ (forall frame,
          (Deque.len (Server.audio_buffer s) < 500 ->
           Deque.items (Deque.append frame (Server.audio_buffer s))
           = Deque.items (Server.audio_buffer s) ++ [frame])
          /\ (Deque.len (Server.audio_buffer s) = 500 ->
              exists oldest rest,
                Deque.items (Server.audio_buffer s) = oldest :: rest
                /\ Deque.items (Deque.append frame (Server.audio_buffer s))
                   = rest ++ [frame]))
    /\ (forall frame,
          (Deque.len (Server.tts_audio_queue s) < 1000 ->
           Deque.items (Deque.append frame (Server.tts_audio_queue s))
           = Deque.items (Server.tts_audio_queue s) ++ [frame])
          /\ (Deque.len (Server.tts_audio_queue s) = 1000 ->
              exists oldest rest,
                Deque.items (Server.tts_audio_queue s) = oldest :: rest
                /\ Deque.items
                     (Deque.append frame (Server.tts_audio_queue s))
                   = rest ++ [frame])).
Proof.
  intros decode s Hr.
  destruct (reachable_within_capacity decode s Hr) as (Hm1 & Hm2 & Hl1 & Hl2).
  split; [split; assumption|]. split; intros frame; split.
  - intros Hroom. apply append_room. rewrite Hm1. exact Hroom.
  - intros Hfull. apply append_full_nonempty; rewrite Hm1; [lia | exact Hfull].
  - intros Hroom. apply append_room. rewrite Hm2. exact Hroom.
  - intros Hfull. apply append_full_nonempty; rewrite Hm2; [lia | exact Hfull].
Qed.

(** Both queues can fill up: [FixtureFull.full] is a reachable state with
    500 buffered frames and 1000 queued ones. *)
Lemma full_is_reachable :
  Server.reachable Fixture.decode FixtureFull.full.
Proof.
  exists (PyStr.lit "v3:call"), (PyStr.lit "stream-1"), (PyStr.lit "Hello!"),
    Fixture.llm, (Remote.fresh []), FixtureFull.events.
  reflexivity.
Qed.

Lemma queues_stay_bounded_witness :
  (Deque.items (Server.audio_buffer FixtureFull.full)
   = [Byte.x41] :: repeat [Byte.x42] 499
   /\ Deque.items (Deque.append Fixture.frame
                                (Server.audio_buffer FixtureFull.full))
      = repeat [Byte.x42] 499 ++ [Fixture.frame])
  /\ (Deque.items (Server.tts_audio_queue FixtureFull.full)
      = FixtureFull.first_frame :: repeat Fixture.frame 999
      /\ Deque.items (Deque.append Fixture.frame
                                   (Server.tts_audio_queue FixtureFull.full))
         = repeat Fixture.frame 999 ++ [Fixture.frame]).
Proof.
  destruct (queues_stay_bounded Fixture.decode FixtureFull.full
                                full_is_reachable)
    as (_ & Hbuffer & Hqueue).
  assert (E1 : Deque.items (Server.audio_buffer FixtureFull.full)
               = [Byte.x41] :: repeat [Byte.x42] 499)
    by (vm_compute; reflexivity).
  assert (E2 : Deque.items (Server.tts_audio_queue FixtureFull.full)
               = FixtureFull.first_frame :: repeat Fixture.frame 999)
    by (vm_compute; reflexivity).
  split; split; try assumption.
  - destruct (proj2 (Hbuffer Fixture.frame)) as (oldest & rest & Hi & Ha).
    + unfold Deque.len. rewrite E1. vm_compute. reflexivity.
    + rewrite E1 in Hi. inversion Hi; subst. exact Ha.
  - destruct (proj2 (Hqueue Fixture.frame)) as (oldest & rest & Hi & Ha).
    + unfold Deque.len. rewrite E2. vm_compute. reflexivity.
    + rewrite E2 in Hi. inversion Hi; subst. exact Ha.
Defined.

Example mid_answer_state :
  Server.is_bot_speaking Fixture.mid_answer = true
  /\ Server.barge_in_enabled Fixture.mid_answer = true
  /\ Server.tts_audio_sent Fixture.mid_answer = 12
  /\ Deque.items (Server.tts_audio_queue Fixture.mid_answer)
     = [Fixture.frame; Fixture.frame; Fixture.frame]
  /\ Server.tasks Fixture.mid_answer
     = [Server.mkTask (PyStr.lit "What's the weather?") Server.Running]
  /\ Server.pending_response_task Fixture.mid_answer = Some 0.
Proof. vm_compute. repeat split. Qed.

(* ------------------------------------------------------------------ *)
(** ** Barge-in *)

Lemma nth_error_update_task f ts : forall i,
  nth_error (Server.update_task i f ts) i = option_map f (nth_error ts i).
Proof.
  induction ts as [|t ts IH]; intros [|i]; simpl; try reflexivity.
  apply IH.
Qed.

Lemma tts_cancel_sets_flag h : TTS._cancel_event (TTS.cancel h) = true.
Proof.
  unfold TTS.cancel; simpl.
  destruct (TTS.connection h); [|reflexivity].
  destruct (TTS.is_connected (TTS.state h)); reflexivity.
Qed.

Lemma tts_cancel_sends_clear h c :
  TTS.connection h = Some c ->
  TTS.is_connected (TTS.state h) = true ->
  TTS.wire (TTS.cancel h) = Remote.calls c ++ [TTS.SpeakV1Clear].
Proof.
  intros Hc Hup. unfold TTS.cancel, TTS.wire; simpl.
  rewrite Hc, Hup; simpl.
  unfold Remote.send. destruct (Remote.faults c); reflexivity.
Qed.

(** The guard of [on_speech_started] is a conjunction: with one conjunct
    false nothing at all happens. *)
Lemma on_speech_started_below_threshold s :
  Server.tts_audio_sent s <= 10 -> Server.on_speech_started s = s.
Proof.
  intros H. unfold Server.on_speech_started.
  destruct (Nat.ltb_spec 10 (Server.tts_audio_sent s)); [lia|].
  rewrite andb_false_r. reflexivity.
Qed.

(** C1, as the code has it: when [speech_started] fires while the bot is
    speaking, barge-in is armed and more than 10 TTS chunks have been sent,
    the session invokes [tts.cancel()] (local cancel flag set, [Clear] sent
    to the synthesizer when connected), clears [is_bot_speaking], resets
    [tts_audio_sent] to 0 and asks the pending response task, if it is still
    running, to cancel; the frames already in the outbound TTS queue are left
    there.  With at most 10 chunks sent none of this happens: the session is
    unchanged. *)
Theorem barge_in_cancels_and_resets :
  forall s : Server.CallSession,
    (Server.is_bot_speaking s = true ->
     Server.barge_in_enabled s = true ->
     10 < Server.tts_audio_sent s ->
     let s' := Server.on_speech_started s in
     Server.tts s' = TTS.cancel (Server.tts s)
     /\ TTS._cancel_event (Server.tts s') = true
     /\ (forall c, TTS.connection (Server.tts s) = Some c ->
                   TTS.is_connected (TTS.state (Server.tts s)) = true ->
                   TTS.wire (Server.tts s')
                   = Remote.calls c ++ [TTS.SpeakV1Clear])
     /\ Server.is_bot_speaking s' = false
     /\ Server.tts_audio_sent s' = 0
     /\ (forall i t, Server.pending_response_task s = Some i ->
                     nth_error (Server.tasks s) i = Some t ->
                     Server.status t = Server.Running ->
                     nth_error (Server.tasks s') i
                     = Some (Server.mkTask (Server.user_input t)
                                           Server.CancelRequested))
     /\ Server.tts_audio_queue s' = Server.tts_audio_queue s)
    /\ (Server.tts_audio_sent s <= 10 -> Server.on_speech_started s = s).
Proof.
  intros s. split; [|apply on_speech_started_below_threshold].
  intros Hsp Harm Hsent s'.
  assert (Etts : Server.tts s' = TTS.cancel (Server.tts s)).
  { subst s'. unfold Server.on_speech_started.
    rewrite Hsp, Harm. apply Nat.ltb_lt in Hsent. rewrite Hsent. simpl.
    destruct (Server.pending_response_task s) as [i|]; [|reflexivity].
    destruct (negb _); reflexivity. }
  split; [exact Etts|].
  split; [rewrite Etts; apply tts_cancel_sets_flag|].
  split; [intros c Hc Hup; rewrite Etts; apply tts_cancel_sends_clear;
          assumption|].
  subst s'. unfold Server.on_speech_started.
  rewrite Hsp, Harm. apply Nat.ltb_lt in Hsent. rewrite Hsent.
  cbv beta iota zeta. unfold andb.
  set (base := Server.set_tts_audio_sent 0
                 (Server.set_is_bot_speaking false
                    (Server.set_tts (TTS.cancel (Server.tts s)) s))).
  change (Server.pending_response_task base)
    with (Server.pending_response_task s).
  destruct (Server.pending_response_task s) as [j|] eqn:Ep.
  - destruct (Server.done j base) eqn:Ed; simpl.
    + repeat split.
      intros i t Hi Ht Hrun. inversion Hi; subst i.
      unfold Server.done in Ed. simpl in Ed. rewrite Ht, Hrun in Ed.
      discriminate.
    + repeat split.
      intros i t Hi Ht Hrun. inversion Hi; subst i.
      rewrite nth_error_update_task, Ht; simpl. rewrite Hrun. reflexivity.
  - repeat split. intros i t Hi. discriminate.
Qed.

Lemma barge_in_cancels_and_resets_witness :
  Server.tts_audio_sent (Server.on_speech_started Fixture.mid_answer) = 0
  /\ Server.on_speech_started Fixture.session = Fixture.session.
Proof.
  split.
  - apply (proj1 (barge_in_cancels_and_resets Fixture.mid_answer));
      vm_compute; [reflexivity | reflexivity | lia].
  - apply (proj2 (barge_in_cancels_and_resets Fixture.session)).
    vm_compute. lia.
Defined.

(** C1 as the specification words it fails on the queue: in the middle of
    an answer, with 12 chunks sent and three more queued, [speech_started]
    triggers the barge-in and the three frames are still queued. *)
Lemma barge_in_leaves_queued_frames :
  Server.is_bot_speaking Fixture.mid_answer = true
  /\ Server.barge_in_enabled Fixture.mid_answer = true
  /\ Server.tts_audio_sent Fixture.mid_answer = 12
  /\ Deque.items
       (Server.tts_audio_queue
          (Server.stt_message STT.SpeechStarted Fixture.mid_answer))
     = [Fixture.frame; Fixture.frame; Fixture.frame]
  /\ Deque.items
       (Server.tts_audio_queue
          (Server.stt_message STT.SpeechStarted Fixture.mid_answer))
     <> [].
Proof. vm_compute. repeat split. discriminate. Qed.

(* ------------------------------------------------------------------ *)
(** ** Inbound audio before the greeting *)

Section ConnectingFacts.

Variable base64_decode : PyStr.str -> option bytes.

(** With the STT gate off [handle_media] takes its second branch at best:
    the frame is dropped, whether or not Deepgram is ready. *)
Lemma handle_media_gate_off m s :
  Server.stt_enabled s = false ->
  Server.handle_media base64_decode m s = s.
Proof.
  intros Hoff. unfold Server.handle_media.
  destruct (negb _); [reflexivity|].
  destruct (Server.payload m) as [[|c p]|]; try reflexivity.
  destruct (base64_decode (c :: p)); [|reflexivity].
  rewrite Hoff, andb_false_r. reflexivity.
Qed.

Lemma endpoint_media_gate_off m s :
  Server.stt_enabled s = false ->
  let s' := Server.endpoint_media base64_decode m s in
  Server.stt_enabled s' = false
  /\ Server.is_ready s' = Server.is_ready s
  /\ Server.audio_buffer s' = Server.audio_buffer s.
Proof.
  intros Hoff. unfold Server.endpoint_media.
  destruct (TTS.str_eqb _ _); cbv zeta;
    rewrite handle_media_gate_off by exact Hoff; simpl; auto.
Qed.

Lemma connecting_media_run ms : forall s,
  Server.stt_enabled s = false ->
  let s' := Server.run base64_decode (map Server.TelnyxMedia ms) s in
  Server.stt_enabled s' = false
  /\ Server.is_ready s' = Server.is_ready s
  /\ Server.audio_buffer s' = Server.audio_buffer s.
Proof.
  induction ms as [|m ms IH]; intros s Hoff; simpl; [auto|].
  destruct (endpoint_media_gate_off m s Hoff) as (H1 & H2 & H3).
  destruct (IH _ H1) as (H4 & H5 & H6).
  cbv zeta. unfold Server.run in *. simpl in *.
  rewrite H5, H6, H2, H3. auto.
Qed.

End ConnectingFacts.

(** C3 fails on the code: from [create_session] on, and for as long as only
    media frames arrive (the Connecting phase: Deepgram not ready, STT gate
    not yet on), [handle_media] appends nothing to the pre-greeting buffer.
    [stt_enabled] starts [False], so the branch commented "Discard audio
    during greeting" is taken before the branch that buffers. *)
Theorem connecting_frames_are_not_buffered :
  forall (base64_decode : PyStr.str -> option bytes)
         (call_control_id stream_id greeting : PyStr.str)
         (llm : LLM.LLMHandler) (websocket : Remote.conn Server.outbound)
         (frames : list Server.media),
    let s := Server.run base64_decode (map Server.TelnyxMedia frames)
               (Server.create_session call_control_id stream_id greeting
                                      llm websocket) in
    Server.is_ready s = false
    /\ Server.stt_enabled s = false
    /\ Deque.items (Server.audio_buffer s) = [].
Proof.
  intros decode cid sid g llm ws frames s.
  destruct (connecting_media_run decode frames
              (Server.create_session cid sid g llm ws) eq_refl)
    as (H1 & H2 & H3).
  subst s. rewrite H1, H2, H3. repeat split.
Qed.

Example connecting_frame_is_lost :
  let m := Server.mkMedia (Some (PyStr.lit "/////w==")) (Some (PyStr.lit "inbound")) in
  Fixture.decode (PyStr.lit "/////w==") <> None
  /\ Server.handle_media Fixture.decode m Fixture.session = Fixture.session
  /\ Deque.items (Server.audio_buffer Fixture.session) = [].
Proof. vm_compute. repeat split. discriminate. Qed.

(* ------------------------------------------------------------------ *)
(** ** The synthesizer client *)

Lemma last_char_snoc (pre : PyStr.str) ch :
  PyStr.last_char (pre ++ [ch]) = Some ch.
Proof. unfold PyStr.last_char. rewrite rev_app_distr. reflexivity. Qed.

Lemma truthy_snoc (pre : PyStr.str) ch : PyStr.truthy (pre ++ [ch]) = true.
Proof. destruct pre; reflexivity. Qed.

Lemma in_chars_In c cs : TTS.in_chars c cs = true <-> In c cs.
Proof.
  unfold TTS.in_chars. rewrite existsb_exists. split.
  - intros (x & Hin & Heq). apply N.eqb_eq in Heq. subst. exact Hin.
  - intros Hin. exists c. split; [exact Hin | apply N.eqb_refl].
Qed.

Lemma send_logs_call {M : Type} (m : M) (c : Remote.conn M) :
  Remote.calls (fst (Remote.send m c)) = Remote.calls c ++ [m].
Proof. unfold Remote.send. destruct (Remote.faults c); reflexivity. Qed.

(** C9: on a connected handler and for a non-empty text, [send_text]
    hands the text to the synthesizer.  If that send does not raise, a flush
    follows if and only if the last character of the text is one of
    [. ! ? : ;].  If it raises, the exception is swallowed: no flush follows
    whatever the last character, and the handler stays marked connected. *)
Theorem send_text_flushes_after_sentence_end :
  forall (h : TTS.TTSHandler) (c : Remote.conn TTS.SpeakMsg)
         (pre : PyStr.str) (ch : N),
    TTS.connection h = Some c ->
    TTS.is_connected (TTS.state h) = true ->
    let text := pre ++ [ch] in
    let raised := snd (Remote.send (TTS.SpeakV1Text text) c) in
    (raised = false ->
     (In ch (PyStr.lit ".!?:;") ->
      TTS.wire (TTS.send_text text h)
      = Remote.calls c ++ [TTS.SpeakV1Text text; TTS.SpeakV1Flush])
     /\ (~ In ch (PyStr.lit ".!?:;") ->
         TTS.wire (TTS.send_text text h)
         = Remote.calls c ++ [TTS.SpeakV1Text text]))
    /\ (raised = true ->
        TTS.wire (TTS.send_text text h)
        = Remote.calls c ++ [TTS.SpeakV1Text text]
        /\ TTS.is_connected (TTS.state (TTS.send_text text h)) = true).
Proof.
  intros h c pre ch Hc Hup text raised.
  assert (E : TTS.wire (TTS.send_text text h)
              = Remote.calls c ++ [TTS.SpeakV1Text text]
                ++ (if negb raised && TTS.in_chars ch TTS.FLUSH_CHARS
                    then [TTS.SpeakV1Flush] else [])
              /\ (raised = true ->
                  TTS.is_connected (TTS.state (TTS.send_text text h))
                  = true)).
  { unfold TTS.send_text. rewrite Hc, Hup. subst raised text.
    rewrite truthy_snoc, last_char_snoc. simpl negb at 1 2. cbv iota.
    pose proof (send_logs_call (TTS.SpeakV1Text (pre ++ [ch])) c) as Ec1.
    destruct (Remote.send (TTS.SpeakV1Text (pre ++ [ch])) c)
      as [c1 bad].
    cbn [fst snd] in *.
    destruct bad; cbn [negb andb].
    - unfold TTS.wire. cbn. split; [exact Ec1 | intros _; exact Hup].
    - split; [|discriminate].
      destruct (TTS.in_chars ch TTS.FLUSH_CHARS); unfold TTS.wire; cbn.
      + rewrite send_logs_call, Ec1, <- app_assoc. reflexivity.
      + exact Ec1. }
  destruct E as [E Eup]. split.
  - intros Hok. rewrite Hok in E. cbn [negb andb] in E.
    split; intros Hin.
    + apply in_chars_In in Hin.
      change (PyStr.lit ".!?:;") with TTS.FLUSH_CHARS in Hin.
      rewrite E, Hin. reflexivity.
    + destruct (TTS.in_chars ch TTS.FLUSH_CHARS) eqn:Hc'.
      * exfalso. apply Hin. apply in_chars_In. exact Hc'.
      * rewrite E. reflexivity.
  - intros Hbad. split; [|exact (Eup Hbad)].
    rewrite Hbad in E. exact E.
Qed.

Lemma send_text_flushes_after_sentence_end_witness :
  TTS.wire (TTS.send_text (PyStr.lit "Hello!") FixtureTTS.connected)
  = [TTS.SpeakV1Text (PyStr.lit "Hello!"); TTS.SpeakV1Flush]
  /\ TTS.wire (TTS.send_text (PyStr.lit "Hello") FixtureTTS.connected)
     = [TTS.SpeakV1Text (PyStr.lit "Hello")]
  /\ TTS.wire (TTS.send_text (PyStr.lit "Hello!") FixtureFlaky.failing_send)
     = [TTS.SpeakV1Text (PyStr.lit "Hello!")].
Proof.
  split; [|split].
  - refine (proj1 (proj1 (send_text_flushes_after_sentence_end
                            FixtureTTS.connected (Remote.fresh [])
                            (PyStr.lit "Hello") 33%N eq_refl eq_refl)
                         eq_refl) _).
    vm_compute. tauto.
  - refine (proj2 (proj1 (send_text_flushes_after_sentence_end
                            FixtureTTS.connected (Remote.fresh [])
                            (PyStr.lit "Hell") 111%N eq_refl eq_refl)
                         eq_refl) _).
    vm_compute. intros H. repeat (destruct H as [H|H]; [discriminate|]).
    exact H.
  - exact (proj1 (proj2 (send_text_flushes_after_sentence_end
                           FixtureFlaky.failing_send (Remote.fresh [true])
                           (PyStr.lit "Hello") 33%N eq_refl eq_refl)
                        eq_refl)).
Defined.

(** C9 as the specification words it fails: the connection is up and the
    text ["Hi."] ends with a flush character, but the send of the text
    raises, so [send_text] leaves through its [except] and no flush is
    issued. *)
Lemma raising_send_skips_the_flush :
  TTS.is_connected (TTS.state FixtureFlaky.failing_send) = true
  /\ PyStr.last_char (PyStr.lit "Hi.") = Some 46%N
  /\ In 46%N (PyStr.lit ".!?:;")
  /\ TTS.wire (TTS.send_text (PyStr.lit "Hi.") FixtureFlaky.failing_send)
     = [TTS.SpeakV1Text (PyStr.lit "Hi.")]
  /\ ~ (In 46%N (PyStr.lit ".!?:;")
        <-> In TTS.SpeakV1Flush
               (TTS.wire (TTS.send_text (PyStr.lit "Hi.")
                                        FixtureFlaky.failing_send))).
Proof.
  repeat split; try reflexivity.
  - vm_compute. tauto.
  - intros [H _].
    assert (Hin : In 46%N (PyStr.lit ".!?:;")) by (vm_compute; tauto).
    apply H in Hin. vm_compute in Hin.
    destruct Hin as [Hin|[]]. discriminate Hin.
Qed.

(** *** Cancellation *)

Lemma send_text_flags text h :
  TTS._cancel_event (TTS.send_text text h) = TTS._cancel_event h
  /\ TTS._on_audio (TTS.send_text text h) = TTS._on_audio h.
Proof.
  unfold TTS.send_text.
  destruct (TTS.connection h) as [c|]; [|auto].
  destruct (negb _); [auto|]. destruct (negb _); [auto|].
  destruct (Remote.send _ c) as [c1 raised].
  destruct raised; [auto|].
  destruct (PyStr.last_char text) as [ch|]; [|auto].
  destruct (TTS.in_chars ch TTS.FLUSH_CHARS); auto.
Qed.

Lemma flush_flags h :
  TTS._cancel_event (TTS.flush h) = TTS._cancel_event h
  /\ TTS._on_audio (TTS.flush h) = TTS._on_audio h.
Proof.
  unfold TTS.flush. destruct (TTS.connection h); [|auto].
  destruct (TTS.is_connected _); auto.
Qed.

Lemma stream_text_loop_flags tokens : forall buffer h,
  TTS._cancel_event (fst (TTS.stream_text_loop tokens buffer h))
  = TTS._cancel_event h
  /\ TTS._on_audio (fst (TTS.stream_text_loop tokens buffer h))
     = TTS._on_audio h.
Proof.
  induction tokens as [|token rest IH]; intros buffer h; simpl; [auto|].
  destruct (TTS._cancel_event h) eqn:E; [simpl; auto|].
  destruct (_ || _).
  - destruct (IH [] (TTS.send_text (buffer ++ token) h)) as [H1 H2].
    destruct (send_text_flags (buffer ++ token) h) as [H3 H4].
    rewrite H1, H2, H3, H4. auto.
  - destruct (IH (buffer ++ token) h) as [H1 H2]. rewrite H1, H2. auto.
Qed.

Lemma stream_text_flags tokens h :
  TTS._cancel_event (TTS.stream_text tokens h) = TTS._cancel_event h
  /\ TTS._on_audio (TTS.stream_text tokens h) = TTS._on_audio h.
Proof.
  unfold TTS.stream_text.
  destruct (stream_text_loop_flags tokens [] h) as [H1 H2].
  destruct (TTS.stream_text_loop tokens [] h) as [h1 buffer].
  simpl in H1, H2.
  destruct (_ && _); [|auto].
  destruct (flush_flags (TTS.send_text buffer h1)) as [H3 H4].
  destruct (send_text_flags buffer h1) as [H5 H6].
  rewrite H3, H4, H5, H6. auto.
Qed.

Lemma close_flags h :
  TTS._cancel_event (TTS.close h) = TTS._cancel_event h
  /\ TTS._on_audio (TTS.close h) = TTS._on_audio h.
Proof.
  unfold TTS.close. destruct (TTS.connection h); simpl;
    destruct (TTS._context_manager h); auto.
Qed.

Lemma process_message_flags m h :
  TTS._cancel_event (fst (TTS._process_message m h)) = TTS._cancel_event h
  /\ TTS._on_audio (fst (TTS._process_message m h)) = TTS._on_audio h.
Proof.
  destruct m as [data|[ty|]]; simpl.
  - destruct (_ && _); auto.
  - destruct (TTS.str_eqb _ _); auto.
  - auto.
Qed.

(** While the cancel flag is up, a message from the synthesizer causes no
    [on_audio] invocation. *)
Lemma process_message_cancelled m h :
  TTS._cancel_event h = true ->
  forallb (fun cb => negb (TTS.is_audio cb)) (snd (TTS._process_message m h))
  = true.
Proof.
  intros Hc. destruct m as [data|[ty|]]; simpl.
  - rewrite Hc, andb_false_r. reflexivity.
  - destruct (TTS.str_eqb _ _); [|reflexivity].
    simpl. destruct (TTS._on_complete h); reflexivity.
  - reflexivity.
Qed.

(** Every call but [reset_cancel] leaves a raised cancel flag raised and adds
    no [on_audio] invocation. *)
Lemma perform_cancelled c h cbs :
  c <> TTS.ResetCancel ->
  TTS._cancel_event h = true ->
  forallb (fun cb => negb (TTS.is_audio cb)) cbs = true ->
  TTS._cancel_event (fst (TTS.perform (h, cbs) c)) = true
  /\ forallb (fun cb => negb (TTS.is_audio cb))
             (snd (TTS.perform (h, cbs) c)) = true.
Proof.
  intros Hne Hc Hcbs. destruct c; simpl.
  - split; [|exact Hcbs]. destruct a; exact Hc.
  - split; [|exact Hcbs]. rewrite (proj1 (send_text_flags _ _)). exact Hc.
  - split; [|exact Hcbs]. rewrite (proj1 (stream_text_flags _ _)). exact Hc.
  - split; [|exact Hcbs]. rewrite (proj1 (flush_flags _)). exact Hc.
  - split; [|exact Hcbs]. apply tts_cancel_sets_flag.
  - congruence.
  - split; [|exact Hcbs]. rewrite (proj1 (close_flags _)). exact Hc.
  - split; [exact Hc | exact Hcbs].
  - pose proof (process_message_flags m h) as [H1 _].
    pose proof (process_message_cancelled m h Hc) as H2.
    destruct (TTS._process_message m h) as [h' new]; simpl in *.
    split; [congruence|]. rewrite forallb_app, Hcbs, H2. reflexivity.
Qed.

Lemma life_cancelled cs : forall h cbs,
  ~ In TTS.ResetCancel cs ->
  TTS._cancel_event h = true ->
  forallb (fun cb => negb (TTS.is_audio cb)) cbs = true ->
  TTS._cancel_event (fst (fold_left TTS.perform cs (h, cbs))) = true
  /\ forallb (fun cb => negb (TTS.is_audio cb))
             (snd (fold_left TTS.perform cs (h, cbs))) = true.
Proof.
  induction cs as [|c cs IH]; intros h cbs Hno Hc Hcbs; [simpl; auto|].
  cbn [fold_left].
  assert (Hne : c <> TTS.ResetCancel) by (intros ->; apply Hno; left; auto).
  destruct (perform_cancelled c h cbs Hne Hc Hcbs) as [H1 H2].
  destruct (TTS.perform (h, cbs) c) as [h' cbs'] eqn:E.
  apply IH; [intros Hin; apply Hno; right; exact Hin | exact H1 | exact H2].
Qed.

Lemma perform_on_audio c h cbs :
  TTS._on_audio h = true ->
  TTS._on_audio (fst (TTS.perform (h, cbs) c)) = true.
Proof.
  intros Hr. destruct c; simpl; try exact Hr.
  - destruct a; exact Hr.
  - rewrite (proj2 (send_text_flags _ _)). exact Hr.
  - rewrite (proj2 (stream_text_flags _ _)). exact Hr.
  - rewrite (proj2 (flush_flags _)). exact Hr.
  - unfold TTS.cancel; simpl. destruct (TTS.connection h); [|exact Hr].
    destruct (TTS.is_connected _); exact Hr.
  - rewrite (proj2 (close_flags _)). exact Hr.
  - pose proof (process_message_flags m h) as [_ H2].
    destruct (TTS._process_message m h) as [h' new]; simpl in *. congruence.
Qed.

Lemma life_on_audio cs : forall h cbs,
  TTS._on_audio h = true ->
  TTS._on_audio (fst (fold_left TTS.perform cs (h, cbs))) = true.
Proof.
  induction cs as [|c cs IH]; intros h cbs Hr; [exact Hr|].
  cbn [fold_left].
  pose proof (perform_on_audio c h cbs Hr) as H.
  destruct (TTS.perform (h, cbs) c) as [h' cbs']. apply IH. exact H.
Qed.

(** At the session: while the flag is up, whatever happens short of a new
    turn, the outbound queue only loses frames from its front. *)
Section SessionCancelled.

Variable base64_decode : PyStr.str -> option bytes.

Lemma only_drained_refl s : only_drained s s.
Proof. exists 0. reflexivity. Qed.

Lemma only_drained_same s s' :
  Server.tts_audio_queue s' = Server.tts_audio_queue s -> only_drained s s'.
Proof. intros E. exists 0. rewrite E. reflexivity. Qed.

Lemma only_drained_trans s1 s2 s3 :
  only_drained s1 s2 -> only_drained s2 s3 -> only_drained s1 s3.
Proof.
  intros [j Hj] [k Hk]. exists (j + k).
  rewrite Hk, Hj, skipn_skipn, Nat.add_comm. reflexivity.
Qed.

Lemma handle_media_tts m s :
  Server.tts (Server.handle_media base64_decode m s) = Server.tts s
  /\ Server.tts_audio_queue (Server.handle_media base64_decode m s)
     = Server.tts_audio_queue s.
Proof.
  unfold Server.handle_media.
  destruct (negb _); [auto|].
  destruct (Server.payload m) as [[|c p]|]; auto.
  destruct (base64_decode (c :: p)); [|auto].
  destruct (_ && _); [auto|]. destruct (negb _); auto.
Qed.

Lemma endpoint_media_tts m s :
  Server.tts (Server.endpoint_media base64_decode m s) = Server.tts s
  /\ Server.tts_audio_queue (Server.endpoint_media base64_decode m s)
     = Server.tts_audio_queue s.
Proof.
  unfold Server.endpoint_media.
  destruct (TTS.str_eqb _ _); cbv zeta;
    match goal with
    | |- context [Server.handle_media _ _ ?x] =>
        destruct (handle_media_tts m x) as [H1 H2]; rewrite H1, H2
    end; auto.
Qed.

Lemma drain_loop_tts budget : forall s,
  Server.tts (Server.drain_loop budget s) = Server.tts s
  /\ only_drained s (Server.drain_loop budget s).
Proof.
  induction budget as [|b IH]; intros s; simpl;
    [split; [reflexivity | apply only_drained_refl]|].
  destruct (Deque.popleft (Server.tts_audio_queue s)) as [[a q]|] eqn:E;
    [|split; [reflexivity | apply only_drained_refl]].
  destruct (popleft_len _ _ _ E) as (_ & _ & Hi).
  assert (H1 : only_drained s (Server.set_tts_audio_queue q s)).
  { exists 1. simpl. rewrite Hi. reflexivity. }
  destruct (Remote.send _ _) as [ws raised].
  destruct raised; [split; [reflexivity | exact H1]|].
  match goal with
  | |- context [Server.drain_loop b ?x] => destruct (IH x) as [H2 H3]
  end.
  split; [rewrite H2; reflexivity|].
  eapply only_drained_trans; [exact H1|].
  destruct H3 as [k Hk]. exists k. rewrite Hk. reflexivity.
Qed.

Lemma dispatch_tts_no_audio cbs : forall s,
  forallb (fun cb => negb (TTS.is_audio cb)) cbs = true ->
  Server.tts (fold_left Server.dispatch_tts cbs s) = Server.tts s
  /\ Server.tts_audio_queue (fold_left Server.dispatch_tts cbs s)
     = Server.tts_audio_queue s.
Proof.
  induction cbs as [|cb cbs IH]; intros s H; simpl; [auto|].
  simpl in H. apply andb_prop in H. destruct H as [Hcb Hrest].
  destruct cb; [discriminate|]. simpl.
  destruct (IH (Server.on_tts_complete s) Hrest) as [H1 H2].
  rewrite H1, H2. auto.
Qed.

Lemma tts_message_cancelled m s :
  flag_up s ->
  flag_up (Server.tts_message m s)
  /\ Server.tts_audio_queue (Server.tts_message m s)
     = Server.tts_audio_queue s.
Proof.
  unfold flag_up, Server.tts_message. intros Hup.
  pose proof (process_message_flags m (Server.tts s)) as [Hf _].
  pose proof (process_message_cancelled m (Server.tts s) Hup) as Hn.
  destruct (TTS._process_message m (Server.tts s)) as [h cbs].
  simpl in Hf, Hn.
  destruct (dispatch_tts_no_audio cbs (Server.set_tts h s) Hn) as [H1 H2].
  rewrite H1, H2. simpl. split; [congruence | reflexivity].
Qed.

Lemma tts_messages_cancelled ms : forall s,
  flag_up s ->
  Server.tts_audio_queue
    (Server.run base64_decode (map Server.TtsMessage ms) s)
  = Server.tts_audio_queue s.
Proof.
  induction ms as [|m ms IH]; intros s Hup; [reflexivity|].
  unfold Server.run in *. simpl.
  destruct (tts_message_cancelled m s Hup) as [H1 H2].
  rewrite IH by exact H1. exact H2.
Qed.

Lemma step_cancelled e s :
  not_from_stt e = true ->
  flag_up s ->
  flag_up (Server.step base64_decode s e)
  /\ only_drained s (Server.step base64_decode s e).
Proof.
  unfold flag_up. intros Hne Hup. destruct e; simpl; try discriminate.
  - destruct (endpoint_media_tts m s) as [H1 H2].
    rewrite H1. split; [exact Hup | apply only_drained_same, H2].
  - destruct (drain_loop_tts 5 s) as [H1 H2].
    unfold Server.drain_tts_queue. rewrite H1. auto.
  - destruct (tts_message_cancelled m s Hup) as [H1 H2].
    split; [exact H1 | apply only_drained_same, H2].
  - split; [exact Hup | apply only_drained_same; reflexivity].
  - split; [exact Hup | apply only_drained_same; reflexivity].
  - unfold Server.connect_deepgram.
    destruct (STT.connect stt_attempt (Server.stt s)) as [h1 r1].
    destruct (TTS.connect tts_attempt (Server.tts s)) as [h2 r2] eqn:E.
    assert (Hh2 : TTS._cancel_event h2 = true).
    { unfold TTS.connect in E. destruct tts_attempt; inversion E; exact Hup. }
    destruct (r1 && r2); simpl; [destruct (0 <? _); simpl|];
      (split; [exact Hh2 | apply only_drained_same; reflexivity]).
  - split; [exact Hup | apply only_drained_same; reflexivity].
  - rewrite (proj1 (send_text_flags _ _)).
    split; [exact Hup | apply only_drained_same; reflexivity].
  - rewrite (proj1 (flush_flags _)).
    split; [exact Hup | apply only_drained_same; reflexivity].
  - split; [exact Hup | apply only_drained_same; reflexivity].
  - split; [exact Hup | apply only_drained_same; reflexivity].
  - unfold Server.response_begin.
    destruct (nth_error (Server.tasks s) i); simpl;
      (split; [exact Hup | apply only_drained_same; reflexivity]).
  - rewrite (proj1 (send_text_flags _ _)).
    split; [exact Hup | apply only_drained_same; reflexivity].
  - rewrite (proj1 (flush_flags _)).
    split; [exact Hup | apply only_drained_same; reflexivity].
  - unfold Server.response_end.
    destruct (LLM.stream_phase o (Server.llm s)) as [[h ys] c]. simpl.
    split; [exact Hup | apply only_drained_same; reflexivity].
  - unfold Server.close_session. simpl.
    rewrite (proj1 (close_flags _)).
    split; [|apply only_drained_same; same_deques].
    destruct (Server.pending_response_task s) as [i|]; [|exact Hup].
    destruct (negb _); exact Hup.
Qed.

Lemma run_cancelled es : forall s,
  forallb not_from_stt es = true ->
  flag_up s ->
  flag_up (Server.run base64_decode es s)
  /\ only_drained s (Server.run base64_decode es s).
Proof.
  induction es as [|e es IH]; intros s Hes Hup;
    [split; [exact Hup | apply only_drained_refl]|].
  simpl in Hes. apply andb_prop in Hes. destruct Hes as [He Hes].
  destruct (step_cancelled e s He Hup) as [H1 H2].
  unfold Server.run in *. simpl.
  destruct (IH _ Hes H1) as [H3 H4].
  split; [exact H3 | eapply only_drained_trans; eassumption].
Qed.

End SessionCancelled.

(** C6: after [tts.cancel()] and for as long as [reset_cancel()] is not
    called, whatever else is called on the handler and whatever the
    synthesizer sends, [on_audio] is never invoked; at the session, nothing
    is appended to the outbound TTS queue in that interval (draining may
    shorten it); and once [reset_cancel()] is called the next audio message
    is handed to [on_audio] again. *)
Theorem cancelled_tts_drops_audio :
  forall (h : TTS.TTSHandler) (cs : list TTS.call),
    ~ In TTS.ResetCancel cs ->
    (forall data,
        ~ In (TTS.OnAudio data) (snd (TTS.life cs (TTS.cancel h))))
    /\ (forall (base64_decode : PyStr.str -> option bytes)
               (s : Server.CallSession) (es : list Server.event),
           Server.tts s = fst (TTS.life cs (TTS.cancel h)) ->
           forallb not_from_stt es = true ->
           only_drained s (Server.run base64_decode es s))
    /\ (TTS._on_audio h = true ->
        forall data,
          snd (TTS._process_message
                 (TTS.Audio data)
                 (TTS.reset_cancel (fst (TTS.life cs (TTS.cancel h)))))
          = [TTS.OnAudio data]).
Proof.
  intros h cs Hno.
  destruct (life_cancelled cs (TTS.cancel h) [] Hno
              (tts_cancel_sets_flag h) eq_refl) as [Hflag Hnone].
  split; [|split].
  - intros data Hin. unfold TTS.life in Hin.
    rewrite forallb_forall in Hnone. specialize (Hnone _ Hin).
    discriminate.
  - intros decode s es Htts Hes.
    apply run_cancelled; [exact Hes|].
    unfold flag_up, TTS.life. rewrite Htts. exact Hflag.
  - intros Hreg data.
    assert (Hreg' : TTS._on_audio (fst (TTS.life cs (TTS.cancel h))) = true).
    { apply life_on_audio. unfold TTS.cancel; simpl.
      destruct (TTS.connection h); [|exact Hreg].
      destruct (TTS.is_connected _); exact Hreg. }
    simpl. rewrite Hreg'. reflexivity.
Qed.

Lemma cancelled_tts_drops_audio_witness :
  (forall data,
      ~ In (TTS.OnAudio data)
           (snd (TTS.life FixtureTTS.after_cancel
                          (TTS.cancel FixtureTTS.connected))))
  /\ snd (TTS._process_message
            (TTS.Audio Fixture.frame)
            (TTS.reset_cancel
               (fst (TTS.life FixtureTTS.after_cancel
                              (TTS.cancel FixtureTTS.connected)))))
     = [TTS.OnAudio Fixture.frame].
Proof.
  assert (Hno : ~ In TTS.ResetCancel FixtureTTS.after_cancel).
  { simpl. intros H.
    repeat (destruct H as [H|H]; [discriminate|]). exact H. }
  pose proof (cancelled_tts_drops_audio FixtureTTS.connected
                FixtureTTS.after_cancel Hno) as (H1 & _ & H3).
  split; [exact H1 | exact (H3 eq_refl Fixture.frame)].
Defined.

Example late_audio_is_dropped :
  snd (TTS.life FixtureTTS.after_cancel (TTS.cancel FixtureTTS.connected))
  = [TTS.OnComplete]
  /\ snd (TTS.life FixtureTTS.after_cancel FixtureTTS.connected)
     = [TTS.OnAudio Fixture.frame; TTS.OnAudio Fixture.frame;
        TTS.OnComplete; TTS.OnAudio Fixture.frame].
Proof. vm_compute. split; reflexivity. Qed.

(* ------------------------------------------------------------------ *)
(** ** Transcripts and turns *)

Lemma lstrip_keeps c (s : PyStr.str) :
  In c s -> PyStr.isspace c = false -> In c (PyStr.lstrip s).
Proof.
  intros Hin Hns. induction s as [|a s IH]; [destruct Hin|].
  simpl. destruct (PyStr.isspace a) eqn:Ea; [|exact Hin].
  destruct Hin as [-> | Hin]; [congruence | apply IH, Hin].
Qed.

Lemma rstrip_keeps c (s : PyStr.str) :
  In c s -> PyStr.isspace c = false -> In c (PyStr.rstrip s).
Proof.
  intros Hin Hns. unfold PyStr.rstrip.
  apply in_rev. rewrite rev_involutive.
  apply lstrip_keeps; [apply in_rev; rewrite rev_involutive|]; assumption.
Qed.

Lemma strip_keeps c (s : PyStr.str) :
  In c s -> PyStr.isspace c = false -> In c (PyStr.strip s).
Proof.
  intros Hin Hns. unfold PyStr.strip.
  apply rstrip_keeps; [apply lstrip_keeps|]; assumption.
Qed.

Lemma has_speech_strip t : has_speech t -> has_speech (PyStr.strip t).
Proof.
  intros (c & Hin & Hns). exists c. split; [apply strip_keeps|]; assumption.
Qed.

Lemma has_speech_truthy t : has_speech t -> PyStr.truthy t = true.
Proof. intros (c & Hin & _). destruct t; [destruct Hin | reflexivity]. Qed.

Lemma join_keeps c sep t parts :
  In c t -> In t parts -> In c (PyStr.join sep parts).
Proof.
  intros Hc. induction parts as [|p ps IH]; intros Hin; [destruct Hin|].
  simpl. destruct ps as [|q qs].
  - destruct Hin as [-> | []]. exact Hc.
  - apply in_or_app. destruct Hin as [-> | Hin]; [left; exact Hc|].
    right. apply in_or_app. right. apply IH, Hin.
Qed.

Lemma has_speech_full_transcript t parts :
  has_speech t ->
  has_speech (PyStr.strip (PyStr.join [PyStr.space] (parts ++ [t]))).
Proof.
  intros (c & Hin & Hns). apply has_speech_strip. exists c.
  split; [|exact Hns].
  apply (join_keeps c _ t); [exact Hin|].
  apply in_or_app. right. left. reflexivity.
Qed.

(** What [_handle_transcript] does with a final transcript that ends the
    utterance, and [_handle_utterance_end] right after it. *)
Lemma speech_final_then_utterance_end h result t others :
  STT._on_speech_ended h = true ->
  STT.channel result
  = Some (STT.mkChannel (Some (STT.mkAlternative (Some t) :: others))) ->
  STT.r_is_final result = Some true ->
  STT.r_speech_final result = Some true ->
  has_speech t ->
  let full :=
    PyStr.strip (PyStr.join [PyStr.space]
                            (STT.transcript_parts (STT.state h) ++ [t])) in
  let h1 := fst (STT._handle_transcript result h) in
  let calls1 := snd (STT._handle_transcript result h) in
  user_finished_calls calls1 = [full]
  /\ (exists r, calls1 = (if STT._on_transcript h
                          then [STT.OnTranscript r] else [])
                         ++ [STT.OnSpeechEnded full])
  /\ STT.transcript_parts (STT.state h1) = []
  /\ STT._on_utterance_end h1 = STT._on_utterance_end h
  /\ snd (STT._handle_utterance_end h1) = []
  /\ STT.transcript_parts (STT.state (fst (STT._handle_utterance_end h1)))
     = [].
Proof.
  intros Hreg Hch Hfin Hsfin Hsp full h1 calls1.
  pose proof (has_speech_truthy _ (has_speech_full_transcript
                t (STT.transcript_parts (STT.state h)) Hsp)) as Hfull.
  fold full in Hfull.
  assert (Ht : exists c0 t', t = c0 :: t').
  { destruct Hsp as (c & Hin & _). destruct t as [|c0 t'];
      [destruct Hin | eauto]. }
  destruct Ht as (c0 & t' & Et).
  assert (E : STT._handle_transcript result h
              = (STT.reset_transcript
                   (STT.set_state
                      (STT.mkSTTState
                         (STT.is_connected (STT.state h))
                         (STT.is_speaking (STT.state h))
                         (STT.current_transcript (STT.state h))
                         (STT.transcript_parts (STT.state h) ++ [t])) h),
                 (if STT._on_transcript h
                  then [STT.OnTranscript (STT.mkTranscriptResult t true true)]
                  else [])
                 ++ [STT.OnSpeechEnded full])).
  { unfold STT._handle_transcript. rewrite Hch, Hfin, Hsfin. simpl.
    rewrite Et. simpl. rewrite <- Et.
    unfold STT.get_full_transcript. simpl. fold full.
    rewrite Hfull, Hreg. reflexivity. }
  subst h1 calls1. rewrite E. simpl.
  split; [|split; [|split; [|split; [|split]]]]; try reflexivity.
  - unfold user_finished_calls. rewrite flat_map_app.
    destruct (STT._on_transcript h); reflexivity.
  - eexists. reflexivity.
Qed.

Lemma on_user_finished_spawns t s :
  has_speech t ->
  Server.tasks (Server.on_user_finished t s)
  = Server.tasks s ++ [Server.mkTask t Server.Running]
  /\ Server.pending_response_task (Server.on_user_finished t s)
     = Some (length (Server.tasks s))
  /\ Server.stt (Server.on_user_finished t s) = Server.stt s.
Proof.
  intros Hsp. unfold Server.on_user_finished.
  rewrite (has_speech_truthy _ (has_speech_strip _ Hsp)). simpl.
  repeat split.
Qed.

(** C5: a final transcript with [speech_final] set (and some speech in it),
    followed at once by [utterance_end], invokes the user-finished handler
    exactly once, with the composed transcript: the first event consumes and
    resets the transcript buffer, the second composes an empty transcript and
    invokes no callback; the session starts one response task, not two. *)
Theorem speech_final_then_utterance_end_is_one_turn :
  forall (s : Server.CallSession) (result : STT.ListenV1Results)
         (t : PyStr.str) (others : list STT.Alternative),
    STT._on_speech_ended (Server.stt s) = true ->
    STT.channel result
    = Some (STT.mkChannel (Some (STT.mkAlternative (Some t) :: others))) ->
    STT.r_is_final result = Some true ->
    STT.r_speech_final result = Some true ->
    has_speech t ->
    let full :=
      PyStr.strip
        (PyStr.join [PyStr.space]
           (STT.transcript_parts (STT.state (Server.stt s)) ++ [t])) in
    let first := STT._process_message (STT.Results result) (Server.stt s) in
    let second := STT._process_message STT.UtteranceEnd (fst first) in
    user_finished_calls (snd first ++ snd second) = [full]
    /\ STT.transcript_parts (STT.state (fst first)) = []
    /\ snd second = []
    /\ Server.tasks
         (Server.stt_message STT.UtteranceEnd
            (Server.stt_message (STT.Results result) s))
       = Server.tasks s ++ [Server.mkTask full Server.Running].
Proof.
  intros s result t others Hreg Hch Hfin Hsfin Hsp full first second.
  destruct (speech_final_then_utterance_end
              (Server.stt s) result t others Hreg Hch Hfin Hsfin Hsp)
    as (Hcalls & (r & Hshape) & Hparts & _ & Hnone & _).
  fold full in Hcalls, Hshape.
  subst first second. simpl STT._process_message.
  rewrite Hnone, app_nil_r.
  split; [exact Hcalls|]. split; [exact Hparts|]. split; [reflexivity|].
  unfold Server.stt_message at 2. simpl STT._process_message.
  destruct (STT._handle_transcript result (Server.stt s)) as [h1 calls1].
  cbn [fst snd] in Hshape, Hnone. subst calls1.
  assert (Hsp' : has_speech full).
  { apply has_speech_full_transcript, Hsp. }
  rewrite fold_left_app.
  assert (E : fold_left Server.dispatch_stt
                (if STT._on_transcript (Server.stt s)
                 then [STT.OnTranscript r] else [])
                (Server.set_stt h1 s) = Server.set_stt h1 s).
  { destruct (STT._on_transcript (Server.stt s)); reflexivity. }
  rewrite E. cbn [fold_left Server.dispatch_stt].
  destruct (on_user_finished_spawns full (Server.set_stt h1 s) Hsp')
    as (Htasks & _ & Hstt).
  unfold Server.stt_message. cbn [STT._process_message].
  rewrite Hstt. cbn [Server.stt Server.set_stt].
  destruct (STT._handle_utterance_end h1) as [h2 calls2].
  cbn [fst snd] in Hnone. subst calls2.
  cbn [fold_left]. exact Htasks.
Qed.

Lemma speech_final_then_utterance_end_is_one_turn_witness :
  Server.tasks
    (Server.stt_message STT.UtteranceEnd
       (Server.stt_message
          (Fixture.final_transcript (PyStr.lit "What's the weather?"))
          Fixture.session))
  = [Server.mkTask (PyStr.lit "What's the weather?") Server.Running].
Proof.
  refine (proj2 (proj2 (proj2
    (speech_final_then_utterance_end_is_one_turn
       Fixture.session
       (STT.mkResults
          (Some (STT.mkChannel
                   (Some [STT.mkAlternative
                            (Some (PyStr.lit "What's the weather?"))])))
          (Some true) (Some true))
       (PyStr.lit "What's the weather?") [] eq_refl eq_refl eq_refl eq_refl
       _)))).
  exists 87%N. split; [left; reflexivity | reflexivity].
Defined.

(* ------------------------------------------------------------------ *)
(** ** The streaming generator *)

Lemma startswith_singleton (s : PyStr.str) c :
  PyStr.startswith s [c] = true <-> exists t, s = c :: t.
Proof.
  destruct s as [|a t]; simpl.
  - split; [discriminate | intros (t & H); discriminate].
  - rewrite andb_true_r. split.
    + intros H. apply N.eqb_eq in H. subst. eauto.
    + intros (t' & H). inversion H. apply N.eqb_refl.
Qed.

Lemma endswith_singleton (s : PyStr.str) c :
  PyStr.endswith s [c] = true <-> PyStr.last_char s = Some c.
Proof.
  unfold PyStr.endswith, PyStr.last_char. simpl rev.
  rewrite startswith_singleton. destruct (rev s) as [|a t].
  - split; [intros (t & H); discriminate | discriminate].
  - split; [intros (t' & H); inversion H; reflexivity|].
    intros H; inversion H; eauto.
Qed.

Lemma endswith_sentence_end (s : PyStr.str) :
  PyStr.endswith_any s LLM.sentence_ends = true
  <-> exists c, PyStr.last_char s = Some c /\ In c (PyStr.lit ".!?").
Proof.
  unfold PyStr.endswith_any, LLM.sentence_ends. rewrite existsb_exists.
  split.
  - intros (suf & Hin & He).
    simpl in Hin. destruct Hin as [<-|[<-|[<-|[]]]];
      apply endswith_singleton in He; eexists; (split; [exact He|]);
      simpl; auto.
  - intros (c & Hl & Hin). exists [c]. split.
    + simpl in Hin. destruct Hin as [<-|[<-|[<-|[]]]]; simpl; auto.
    + apply endswith_singleton, Hl.
Qed.

Lemma code_yields_spec (text_buffer text : PyStr.str) :
  LLM.code_yields text_buffer text = true
  <-> at_sentence_end text_buffer \/ at_long_word_end text_buffer text.
Proof.
  unfold LLM.code_yields, at_sentence_end, at_long_word_end.
  rewrite orb_true_iff, andb_true_iff, endswith_sentence_end,
    Nat.ltb_lt, endswith_singleton.
  reflexivity.
Qed.

(** One non-empty fragment through the loop body. *)
Lemma on_match_decoded l (text : PyStr.str) :
  text <> [] ->
  LLM.on_match l (LLM.Decoded text)
  = if LLM.code_yields (LLM.text_buffer l ++ text) text
    then LLM.mkLocals (LLM.full_response l ++ text) []
                      (LLM.yielded l ++ [LLM.text_buffer l ++ text])
    else LLM.mkLocals (LLM.full_response l ++ text)
                      (LLM.text_buffer l ++ text) (LLM.yielded l).
Proof.
  intros Hne. unfold LLM.on_match, LLM.code_yields.
  destruct text as [|c t]; [congruence|]. cbn [PyStr.truthy].
  destruct (PyStr.endswith_any _ _); [reflexivity|].
  simpl orb. destruct (_ && _); reflexivity.
Qed.

Lemma on_match_accounted l m : accounted l -> accounted (LLM.on_match l m).
Proof.
  unfold accounted. intros H. destruct m as [text|]; [|exact H].
  destruct text as [|c t]; [exact H|].
  rewrite on_match_decoded by discriminate.
  destruct (LLM.code_yields _ _); simpl.
  - rewrite concat_app. simpl. rewrite !app_nil_r, <- H, app_assoc.
    reflexivity.
  - rewrite <- H, app_assoc. reflexivity.
Qed.

Lemma on_chunk_accounted ms : forall l,
  accounted l -> accounted (LLM.on_chunk l ms).
Proof.
  unfold LLM.on_chunk.
  induction ms as [|m ms IH]; intros l H; simpl; [exact H|].
  apply IH, on_match_accounted, H.
Qed.

Lemma stream_accounted cs : accounted (LLM.stream cs).
Proof.
  unfold LLM.stream.
  assert (G : forall l, accounted l -> accounted (fold_left LLM.on_chunk cs l)).
  { induction cs as [|ms cs IH]; intros l H; simpl; [exact H|].
    apply IH, on_chunk_accounted, H. }
  apply G. reflexivity.
Qed.

Lemma on_match_full_response l m :
  LLM.full_response (LLM.on_match l m)
  = LLM.full_response l
    ++ concat (match m with
               | LLM.Decoded (c :: t) => [c :: t]
               | _ => []
               end).
Proof.
  destruct m as [[|c t]|]; try (simpl; rewrite app_nil_r; reflexivity).
  rewrite on_match_decoded by discriminate.
  simpl concat. rewrite app_nil_r.
  destruct (LLM.code_yields _ _); reflexivity.
Qed.

Lemma on_chunk_full_response ms : forall l,
  LLM.full_response (LLM.on_chunk l ms)
  = LLM.full_response l
    ++ concat (flat_map (fun m => match m with
                                  | LLM.Decoded (c :: t) => [c :: t]
                                  | _ => []
                                  end) ms).
Proof.
  unfold LLM.on_chunk.
  induction ms as [|m ms IH]; intros l; cbn [fold_left flat_map];
    [simpl; rewrite app_nil_r; reflexivity|].
  rewrite IH, on_match_full_response, concat_app, app_assoc. reflexivity.
Qed.

(** [full_response] is the concatenation of the extracted fragments. *)
Lemma stream_full_response cs :
  LLM.full_response (LLM.stream cs) = concat (extracted cs).
Proof.
  unfold LLM.stream, extracted.
  assert (G : forall l,
             LLM.full_response (fold_left LLM.on_chunk cs l)
             = LLM.full_response l
               ++ concat (flat_map
                            (flat_map (fun m => match m with
                                                | LLM.Decoded (c :: t) =>
                                                    [c :: t]
                                                | _ => []
                                                end)) cs)).
  { induction cs as [|ms cs IH]; intros l; cbn [fold_left flat_map];
      [simpl; rewrite app_nil_r; reflexivity|].
    rewrite IH, on_chunk_full_response, concat_app, app_assoc.
    reflexivity. }
  rewrite G. reflexivity.
Qed.

Lemma stream_empty cs :
  LLM.full_response (LLM.stream cs) = [] ->
  LLM.yielded (LLM.stream cs) = [] /\ LLM.text_buffer (LLM.stream cs) = [].
Proof.
  intros H. pose proof (stream_accounted cs) as A. unfold accounted in A.
  rewrite H in A. apply app_eq_nil in A. destruct A as [A1 A2].
  split; [|exact A2].
  (* every yielded fragment is non-empty, so an empty concatenation means
     none was yielded *)
  assert (G : forall cs' l,
             Forall (fun y => y <> []) (LLM.yielded l) ->
             Forall (fun y => y <> [])
                    (LLM.yielded (fold_left LLM.on_chunk cs' l))).
  { induction cs' as [|ms cs' IH]; intros l Hl; simpl; [exact Hl|].
    apply IH. unfold LLM.on_chunk.
    revert l Hl. induction ms as [|m ms IHm]; intros l Hl; simpl;
      [exact Hl|].
    apply IHm. destruct m as [[|c t]|]; try exact Hl.
    rewrite on_match_decoded by discriminate.
    destruct (LLM.code_yields _ _); [|exact Hl]. simpl.
    apply Forall_app. split; [exact Hl|].
    constructor; [|constructor].
    destruct (LLM.text_buffer l); discriminate. }
  specialize (G cs (LLM.mkLocals [] [] []) (Forall_nil _)).
  fold (LLM.stream cs) in G.
  destruct (LLM.yielded (LLM.stream cs)) as [|y ys]; [reflexivity|].
  inversion G; subst. simpl in A1. apply app_eq_nil in A1.
  destruct A1; contradiction.
Qed.

Lemma request_phase_messages user_input h :
  LLM.messages (fst (LLM.request_phase user_input h))
  = LLM.messages h ++ [LLM.mkMessage LLM.user user_input].
Proof.
  unfold LLM.request_phase. simpl.
  destruct (LLM._greeting_text h) as [[|c g]|]; try reflexivity.
  destruct (LLM.messages h) eqn:E; simpl; rewrite ?E; reflexivity.
Qed.

Lemma app_two {A : Type} (l : list A) a b : (l ++ [a]) ++ [b] = l ++ [a; b].
Proof. rewrite <- app_assoc. reflexivity. Qed.

(** An uncancelled run leaves the history longer by a user turn and an
    assistant turn. *)
Lemma uncancelled_run_history user_input o h :
  is_cancelled o = false ->
  exists reply,
    LLM.messages (LLM.handler (LLM.generate_response_stream user_input o h))
    = LLM.messages h ++ [LLM.mkMessage LLM.user user_input;
                         LLM.mkMessage LLM.assistant reply].
Proof.
  intros Hnc. unfold LLM.generate_response_stream.
  pose proof (request_phase_messages user_input h) as Hm.
  destruct (LLM.request_phase user_input h) as [h1 rq]. simpl in Hm.
  destruct o as [| |b]; simpl in Hnc; try discriminate.
  - eexists. simpl. rewrite Hm, app_two. reflexivity.
  - unfold LLM.stream_phase.
    destruct (LLM.ending b) as [[| |]|]; try discriminate;
      try (eexists; simpl; rewrite Hm, app_two; reflexivity).
    destruct (PyStr.truthy _);
      eexists; simpl; rewrite Hm, app_two; reflexivity.
Qed.

(** C4: a run of [generate_response_stream] that no [CancelledError] leaves
    appends, after the user message, exactly one assistant message: the
    concatenation of all extracted text fragments when the stream ends well
    and is not empty, and otherwise one canned apology, which is also the
    last fragment yielded (the only one when the request failed or the
    completion was empty). *)
Theorem uncancelled_run_appends_one_assistant_message :
  forall (user_input : PyStr.str) (o : LLM.outcome) (h : LLM.LLMHandler),
    is_cancelled o = false ->
    let r := LLM.generate_response_stream user_input o h in
    exists reply,
      LLM.messages (LLM.handler r)
      = LLM.messages h ++ [LLM.mkMessage LLM.user user_input;
                           LLM.mkMessage LLM.assistant reply]
      /\ LLM.cancelled r = false
      /\ match o with
         | LLM.NoResponse =>
             reply = LLM.fallback_no_response /\ LLM.fragments r = [reply]
         | LLM.RequestCancelled => False
         | LLM.Response b =>
             match LLM.ending b with
             | None =>
                 if PyStr.truthy (concat (extracted (LLM.chunks b)))
                 then reply = concat (extracted (LLM.chunks b))
                      /\ concat (LLM.fragments r) = reply
                 else reply = LLM.fallback_empty
                      /\ LLM.fragments r = [reply]
             | Some LLM.ClientError =>
                 reply = LLM.fallback_client_error
                 /\ exists before, LLM.fragments r = before ++ [reply]
             | Some LLM.OtherException =>
                 reply = LLM.fallback_exception
                 /\ exists before, LLM.fragments r = before ++ [reply]
             | Some LLM.CancelledError => False
             end
         end.
Proof.
  intros ui o h Hnc r. subst r. unfold LLM.generate_response_stream.
  pose proof (request_phase_messages ui h) as Hm.
  destruct (LLM.request_phase ui h) as [h1 rq]. simpl in Hm.
  destruct o as [| |b]; simpl in Hnc; try discriminate.
  - eexists. simpl. rewrite Hm, app_two. repeat split.
  - unfold LLM.stream_phase.
    destruct (LLM.ending b) as [[| |]|] eqn:Ee; try discriminate.
    + eexists. simpl. rewrite Hm, app_two. repeat split. eauto.
    + eexists. simpl. rewrite Hm, app_two. repeat split. eauto.
    + rewrite <- stream_full_response.
      destruct (PyStr.truthy (LLM.full_response (LLM.stream (LLM.chunks b))))
        eqn:Et.
      * eexists. simpl. rewrite Hm, app_two. repeat split.
        pose proof (stream_accounted (LLM.chunks b)) as A.
        unfold accounted in A. rewrite concat_app, <- A.
        destruct (LLM.text_buffer _); simpl; rewrite ?app_nil_r;
          reflexivity.
      * eexists. simpl. rewrite Hm, app_two. repeat split.
        assert (E : LLM.full_response (LLM.stream (LLM.chunks b)) = []).
        { destruct (LLM.full_response _); [reflexivity | discriminate]. }
        destruct (stream_empty _ E) as [-> ->]. reflexivity.
Qed.

Lemma uncancelled_run_appends_one_assistant_message_witness :
  exists reply,
    LLM.messages
      (LLM.handler
         (LLM.generate_response_stream
            (PyStr.lit "What's the weather?")
            (LLM.Response FixtureLLM.sunny) Fixture.llm))
    = [LLM.mkMessage LLM.user (PyStr.lit "What's the weather?");
       LLM.mkMessage LLM.assistant reply].
Proof.
  destruct (uncancelled_run_appends_one_assistant_message
              (PyStr.lit "What's the weather?")
              (LLM.Response FixtureLLM.sunny) Fixture.llm eq_refl)
    as (reply & Hm & _).
  exists reply. exact Hm.
Defined.

Example sunny_run :
  let r := LLM.generate_response_stream (PyStr.lit "What's the weather?")
             (LLM.Response FixtureLLM.sunny) Fixture.llm in
  LLM.fragments r = [PyStr.lit "It's sunny. "; PyStr.lit "Enjoy your day"]
  /\ LLM.messages (LLM.handler r)
     = [LLM.mkMessage LLM.user (PyStr.lit "What's the weather?");
        LLM.mkMessage LLM.assistant (PyStr.lit "It's sunny. Enjoy your day")]
  /\ LLM._greeting_text (LLM.handler r) = None.
Proof. vm_compute. repeat split. Qed.

Example http_500_run :
  let r := LLM.generate_response_stream (PyStr.lit "What's the weather?")
             LLM.NoResponse Fixture.llm in
  LLM.fragments r
  = [PyStr.lit "I'm sorry, I'm having trouble responding right now."]
  /\ LLM.roles (LLM.handler r) = [LLM.user; LLM.assistant].
Proof. vm_compute. repeat split. Qed.

(** C7, as the code has it: after each non-empty extracted fragment the
    accumulated buffer is yielded (and emptied) exactly when, trailing
    whitespace set aside, it ends with [.], [!] or [?], or else when it is
    longer than 40 characters and the fragment ends with a space; at the end
    of the stream a non-empty rest is yielded; so on a successful run the
    yielded fragments concatenate to the full response, which is the
    assistant message appended. *)
Theorem chunks_end_at_sentences_or_long_words :
  (forall (l : LLM.locals) (text : PyStr.str),
      text <> [] ->
      let text_buffer := LLM.text_buffer l ++ text in
      let l' := LLM.on_match l (LLM.Decoded text) in
      (at_sentence_end text_buffer \/ at_long_word_end text_buffer text ->
       LLM.yielded l' = LLM.yielded l ++ [text_buffer]
       /\ LLM.text_buffer l' = [])
      /\ (~ (at_sentence_end text_buffer
             \/ at_long_word_end text_buffer text) ->
          LLM.yielded l' = LLM.yielded l
          /\ LLM.text_buffer l' = text_buffer))
  /\ (forall (user_input : PyStr.str) (b : LLM.body) (h : LLM.LLMHandler),
         LLM.ending b = None ->
         LLM.full_response (LLM.stream (LLM.chunks b)) <> [] ->
         let l := LLM.stream (LLM.chunks b) in
         let r := LLM.generate_response_stream user_input
                    (LLM.Response b) h in
         LLM.fragments r
         = LLM.yielded l
           ++ (if PyStr.truthy (LLM.text_buffer l)
               then [LLM.text_buffer l] else [])
         /\ concat (LLM.fragments r) = LLM.full_response l
         /\ LLM.messages (LLM.handler r)
            = LLM.messages h
              ++ [LLM.mkMessage LLM.user user_input;
                  LLM.mkMessage LLM.assistant (concat (LLM.fragments r))]).
Proof.
  split.
  - intros l text Hne text_buffer l'. subst l'.
    rewrite on_match_decoded by exact Hne. fold text_buffer.
    pose proof (code_yields_spec text_buffer text) as Hiff.
    destruct (LLM.code_yields text_buffer text); simpl; split.
    + auto.
    + intros Hn. exfalso. apply Hn, Hiff. reflexivity.
    + intros Hy. apply Hiff in Hy. discriminate.
    + auto.
  - intros ui b h He Hfull l r.
    assert (Ht : PyStr.truthy (LLM.full_response l) = true).
    { subst l. destruct (LLM.full_response _); [congruence | reflexivity]. }
    assert (Ef : LLM.fragments r
                 = LLM.yielded l
                   ++ (if PyStr.truthy (LLM.text_buffer l)
                       then [LLM.text_buffer l] else [])).
    { subst r. unfold LLM.generate_response_stream.
      destruct (LLM.request_phase ui h) as [h1 rq].
      unfold LLM.stream_phase. rewrite He. fold l. rewrite Ht.
      reflexivity. }
    assert (Ec : concat (LLM.fragments r) = LLM.full_response l).
    { rewrite Ef, concat_app.
      pose proof (stream_accounted (LLM.chunks b)) as A.
      unfold accounted in A. fold l in A. rewrite <- A.
      destruct (LLM.text_buffer l); simpl; rewrite ?app_nil_r;
        reflexivity. }
    split; [exact Ef|]. split; [exact Ec|].
    rewrite Ec. subst r. unfold LLM.generate_response_stream.
    pose proof (request_phase_messages ui h) as Hm.
    destruct (LLM.request_phase ui h) as [h1 rq]. simpl in Hm.
    unfold LLM.stream_phase. rewrite He. fold l. rewrite Ht.
    simpl. rewrite Hm, app_two. reflexivity.
Qed.

Lemma chunks_end_at_sentences_or_long_words_witness :
  LLM.yielded (LLM.on_match (LLM.mkLocals (PyStr.lit "It's ")
                                          (PyStr.lit "It's ") [])
                            (LLM.Decoded (PyStr.lit "sunny. ")))
  = [PyStr.lit "It's sunny. "]
  /\ concat (LLM.fragments
               (LLM.generate_response_stream
                  (PyStr.lit "What's the weather?")
                  (LLM.Response FixtureLLM.sunny) Fixture.llm))
     = PyStr.lit "It's sunny. Enjoy your day".
Proof.
  split.
  - refine (proj1 (proj1 (proj1 chunks_end_at_sentences_or_long_words
                            (LLM.mkLocals (PyStr.lit "It's ")
                                          (PyStr.lit "It's ") [])
                            (PyStr.lit "sunny. ") _) _)).
    + discriminate.
    + left. exists 46%N. split; [reflexivity | simpl; auto].
  - refine (proj1 (proj2 (proj2 chunks_end_at_sentences_or_long_words
                            (PyStr.lit "What's the weather?")
                            FixtureLLM.sunny Fixture.llm eq_refl _))).
    vm_compute. discriminate.
Defined.

(** C7 as the specification words it fails: the buffer ["Hi. "] ends with a
    space, not with [.], and is short, yet it is yielded; the rest of the
    answer comes as a fragment of its own. *)
Lemma buffer_with_trailing_space_is_yielded :
  LLM.spec_yields (PyStr.lit "Hi. ") (PyStr.lit "Hi. ") = false
  /\ LLM.yielded (LLM.on_match (LLM.mkLocals [] [] [])
                               (LLM.Decoded (PyStr.lit "Hi. ")))
     = [PyStr.lit "Hi. "]
  /\ LLM.fragments
       (LLM.generate_response_stream
          (PyStr.lit "Hello")
          (LLM.Response
             (LLM.mkBody [[LLM.Decoded (PyStr.lit "Hi. ");
                           LLM.Decoded (PyStr.lit "there")]] None))
          Fixture.llm)
     = [PyStr.lit "Hi. "; PyStr.lit "there"].
Proof. vm_compute. repeat split. Qed.

(* ------------------------------------------------------------------ *)
(** ** The order of turns *)

Lemma alternates_snoc_pair rs :
  LLM.alternates rs = true ->
  awaiting_user rs = true ->
  LLM.alternates (rs ++ [LLM.user; LLM.assistant]) = true
  /\ awaiting_user (rs ++ [LLM.user; LLM.assistant]) = true.
Proof.
  intros Ha Hw. split.
  - induction rs as [|a rs IH]; [reflexivity|].
    destruct rs as [|b rs'].
    + destruct a; [discriminate Hw | reflexivity].
    + simpl in Ha. apply andb_prop in Ha. destruct Ha as [Hab Ha].
      change ((a :: b :: rs') ++ [LLM.user; LLM.assistant])
        with (a :: (b :: rs') ++ [LLM.user; LLM.assistant]).
      cbn [LLM.alternates app]. cbn [app] in IH.
      rewrite Hab. apply IH; [exact Ha|].
      unfold awaiting_user in *. simpl rev in *.
      destruct (rev rs' ++ [b]) as [|x xs] eqn:E.
      * destruct (rev rs'); discriminate.
      * simpl in Hw. exact Hw.
  - unfold awaiting_user. rewrite rev_app_distr. reflexivity.
Qed.

(** Turns that run one after the other and are never cancelled keep the
    history alternating. *)
Lemma uncancelled_turns_alternate ts : forall h,
  forallb (fun t => negb (is_cancelled (snd t))) ts = true ->
  LLM.alternates (LLM.roles h) = true ->
  awaiting_user (LLM.roles h) = true ->
  LLM.alternates (LLM.roles (LLM.turns ts h)) = true
  /\ awaiting_user (LLM.roles (LLM.turns ts h)) = true.
Proof.
  unfold LLM.turns.
  induction ts as [|[ui o] ts IH]; intros h Hnc Ha Hw; [auto|].
  simpl in Hnc. apply andb_prop in Hnc. destruct Hnc as [Ho Hts].
  apply negb_true_iff in Ho.
  destruct (uncancelled_run_history ui o h Ho)
    as (reply & Hm).
  cbn [fold_left fst snd].
  apply IH; [exact Hts| |]; unfold LLM.roles; rewrite Hm, map_app;
    apply alternates_snoc_pair; assumption.
Qed.

(** C2 fails on the code: a caller interrupts the first answer (the task is
    cancelled after one chunk, so no assistant turn is appended) and speaks
    again; the history then holds two user turns in a row. *)
Theorem interrupted_call_has_two_user_turns :
  let h := LLM.turns FixtureLLM.interrupted_call Fixture.llm in
  LLM.messages h
  = [LLM.mkMessage LLM.user (PyStr.lit "What's the weather?");
     LLM.mkMessage LLM.user (PyStr.lit "Sorry, go on.");
     LLM.mkMessage LLM.assistant (PyStr.lit "Sure.")]
  /\ LLM.alternates (LLM.roles h) = false.
Proof. vm_compute. split; reflexivity. Qed.

(** The same history arises in a whole call: the barge-in of
    [Fixture.mid_answer] asks task 0 to cancel, the task ends without an
    assistant turn, and the next utterance adds a second user turn. *)
Example barge_in_call_history :
  Server.tasks (Server.stt_message STT.SpeechStarted Fixture.mid_answer)
  = [Server.mkTask (PyStr.lit "What's the weather?") Server.CancelRequested]
  /\ LLM.roles (Server.llm FixtureCall.after_barge_in)
     = [LLM.user; LLM.user; LLM.assistant]
  /\ map Server.status (Server.tasks FixtureCall.after_barge_in)
     = [Server.Finished; Server.Finished].
Proof. vm_compute. repeat split. Qed.

(* ================================================================== *)
(** * Further properties of the code *)

(* ------------------------------------------------------------------ *)
(** ** Draining the outbound queue *)

Lemma reliable_send {M : Type} (m : M) (c : Remote.conn M) :
  reliable c ->
  Remote.send m c
  = (Remote.mk (Remote.calls c ++ [m]) (tl (Remote.faults c)), false)
  /\ reliable (fst (Remote.send m c)).
Proof.
  unfold reliable, Remote.send. intros H.
  destruct (Remote.faults c) as [|b script]; simpl.
  - split; [reflexivity | constructor].
  - inversion H; subst. split; [reflexivity | assumption].
Qed.

Lemma drain_loop_reliable budget : forall s,
  reliable (Server.websocket s) ->
  let k := Nat.min budget (Deque.len (Server.tts_audio_queue s)) in
  let s' := Server.drain_loop budget s in
  Remote.calls (Server.websocket s')
  = Remote.calls (Server.websocket s)
    ++ map (Server.MediaOut (Server.stream_id s))
           (firstn k (Deque.items (Server.tts_audio_queue s)))
  /\ Deque.items (Server.tts_audio_queue s')
     = skipn k (Deque.items (Server.tts_audio_queue s))
  /\ Server.tts_audio_sent s' = Server.tts_audio_sent s + k
  /\ reliable (Server.websocket s').
Proof.
  induction budget as [|b IH]; intros s Hrel; cbv zeta.
  - simpl. rewrite app_nil_r, Nat.add_0_r. auto.
  - cbn [Server.drain_loop]. unfold Deque.popleft, Deque.len.
    destruct (Deque.items (Server.tts_audio_queue s)) as [|f q] eqn:Eq.
    + simpl. rewrite Eq, app_nil_r, Nat.add_0_r. auto.
    + destruct (reliable_send
                  (Server.MediaOut
                     (Server.stream_id
                        (Server.set_tts_audio_queue
                           (Deque.mk q (Deque.maxlen
                                          (Server.tts_audio_queue s))) s))
                     f)
                  (Server.websocket
                     (Server.set_tts_audio_queue
                        (Deque.mk q (Deque.maxlen
                                       (Server.tts_audio_queue s))) s))
                  Hrel) as [Es Hrel'].
      rewrite Es in *. cbn [fst] in Hrel'.
      match goal with
      | |- context [Server.drain_loop b ?x] =>
          specialize (IH x Hrel'); cbv zeta in IH;
          destruct IH as (H1 & H2 & H3 & H4);
          set (next := x) in *
      end.
      assert (En : Deque.items (Server.tts_audio_queue next) = q)
        by reflexivity.
      assert (El : Deque.len (Server.tts_audio_queue next) = length q)
        by reflexivity.
      rewrite En in H1, H2. rewrite El in H1, H2, H3.
      change (length (f :: q)) with (S (length q)).
      rewrite <- Nat.succ_min_distr.
      cbn [firstn skipn map].
      rewrite H1, H2, H3. subst next. simpl.
      rewrite <- app_assoc. simpl.
      repeat split; try reflexivity; [lia | exact H4].
Qed.

(** X1: with a Telnyx socket that does not raise, [drain_tts_queue] sends
    the oldest [min(5, len(queue))] frames, oldest first, each wrapped with
    the session's stream id; it leaves the other frames queued in their
    order and adds the number of frames sent to [tts_audio_sent]. *)
Theorem drain_sends_oldest_frames_first :
  forall s : Server.CallSession,
    reliable (Server.websocket s) ->
    let k := Nat.min 5 (Deque.len (Server.tts_audio_queue s)) in
    let s' := Server.drain_tts_queue s in
    Remote.calls (Server.websocket s')
    = Remote.calls (Server.websocket s)
      ++ map (Server.MediaOut (Server.stream_id s))
             (firstn k (Deque.items (Server.tts_audio_queue s)))
    /\ Deque.items (Server.tts_audio_queue s')
       = skipn k (Deque.items (Server.tts_audio_queue s))
    /\ Server.tts_audio_sent s' = Server.tts_audio_sent s + k.
Proof.
  intros s Hrel k s'.
  destruct (drain_loop_reliable 5 s Hrel) as (H1 & H2 & H3 & _).
  auto.
Qed.

Lemma drain_sends_oldest_frames_first_witness :
  Server.tts_audio_sent (Server.drain_tts_queue Fixture.mid_answer) = 15
  /\ Deque.items
       (Server.tts_audio_queue (Server.drain_tts_queue Fixture.mid_answer))
     = [].
Proof.
  assert (Hrel : reliable (Server.websocket Fixture.mid_answer))
    by (vm_compute; constructor).
  destruct (drain_sends_oldest_frames_first Fixture.mid_answer Hrel)
    as (_ & H2 & H3).
  split; [exact H3 | exact H2].
Defined.

Lemma drain_loop_failing budget : forall s j,
  fails_after j (Server.websocket s) ->
  j < Nat.min budget (Deque.len (Server.tts_audio_queue s)) ->
  let s' := Server.drain_loop budget s in
  Remote.calls (Server.websocket s')
  = Remote.calls (Server.websocket s)
    ++ map (Server.MediaOut (Server.stream_id s))
           (firstn (S j) (Deque.items (Server.tts_audio_queue s)))
  /\ Deque.items (Server.tts_audio_queue s')
     = skipn (S j) (Deque.items (Server.tts_audio_queue s))
  /\ Server.tts_audio_sent s' = Server.tts_audio_sent s + j.
Proof.
  induction budget as [|b IH]; intros s j Hf Hj; cbv zeta; [simpl in Hj; lia|].
  cbn [Server.drain_loop]. unfold Deque.popleft.
  unfold Deque.len in Hj.
  destruct (Deque.items (Server.tts_audio_queue s)) as [|f q] eqn:Eq;
    [simpl in Hj; lia|].
  destruct Hf as [later Hf].
  unfold Remote.send. cbn [Server.websocket Server.set_tts_audio_queue].
  rewrite Hf. destruct j as [|j].
  - simpl. rewrite Nat.add_0_r. auto.
  - cbn [repeat app].
    match goal with
    | |- context [Server.drain_loop b ?x] => set (next := x)
    end.
    assert (Hf' : fails_after j (Server.websocket next))
      by (exists later; reflexivity).
    assert (Hj' : j < Nat.min b (Deque.len (Server.tts_audio_queue next))).
    { change (Deque.len (Server.tts_audio_queue next)) with (length q).
      simpl in Hj. lia. }
    destruct (IH next j Hf' Hj') as (H1 & H2 & H3).
    change (Deque.items (Server.tts_audio_queue next)) with q in H1, H2.
    rewrite H1, H2, H3. subst next. simpl.
    rewrite <- app_assoc. simpl. repeat split; try reflexivity. lia.
Qed.

(** X2: when the send of a frame to Telnyx raises, [drain_tts_queue] stops
    there; the frame has already been popped and is not put back, and it is
    not counted in [tts_audio_sent]: after [j] good sends and one that
    raises, [j + 1] frames have left the queue and the counter grew by
    [j]. *)
Theorem drain_loses_the_frame_whose_send_raises :
  forall (s : Server.CallSession) (j : nat),
    fails_after j (Server.websocket s) ->
    j < Nat.min 5 (Deque.len (Server.tts_audio_queue s)) ->
    let s' := Server.drain_tts_queue s in
    Deque.items (Server.tts_audio_queue s')
    = skipn (S j) (Deque.items (Server.tts_audio_queue s))
    /\ Server.tts_audio_sent s' = Server.tts_audio_sent s + j
    /\ Remote.calls (Server.websocket s')
       = Remote.calls (Server.websocket s)
         ++ map (Server.MediaOut (Server.stream_id s))
                (firstn (S j) (Deque.items (Server.tts_audio_queue s))).
Proof.
  intros s j Hf Hj s'.
  destruct (drain_loop_failing 5 s j Hf Hj) as (H1 & H2 & H3). auto.
Qed.

Lemma drain_loses_the_frame_whose_send_raises_witness :
  Deque.items (Server.tts_audio_queue
                 (Server.drain_tts_queue FixtureDrain.flaky))
  = [Fixture.frame]
  /\ Server.tts_audio_sent (Server.drain_tts_queue FixtureDrain.flaky) = 13.
Proof.
  assert (Hf : fails_after 1 (Server.websocket FixtureDrain.flaky))
    by (exists []; reflexivity).
  assert (Hj : 1 < Nat.min 5 (Deque.len (Server.tts_audio_queue
                                            FixtureDrain.flaky)))
    by (vm_compute; lia).
  destruct (drain_loses_the_frame_whose_send_raises
              FixtureDrain.flaky 1 Hf Hj) as (H1 & H2 & _).
  split; [exact H1 | exact H2].
Defined.

(* ------------------------------------------------------------------ *)
(** ** The recognizer client *)

Lemma send_audio_disconnected frame h :
  STT.is_connected (STT.state h) = false -> STT.send_audio frame h = h.
Proof.
  intros H. unfold STT.send_audio.
  destruct (STT.connection h); [rewrite H|]; reflexivity.
Qed.

Lemma send_audio_all_disconnected frames : forall h,
  STT.is_connected (STT.state h) = false -> send_audio_all frames h = h.
Proof.
  unfold send_audio_all.
  induction frames as [|f fs IH]; intros h H; simpl; [reflexivity|].
  rewrite send_audio_disconnected by exact H. apply IH, H.
Qed.

(** X3: once a [send_audio] raises, the handler marks itself disconnected
    and sends nothing more: of a run of frames, those up to and including
    the one whose send raises are handed to the socket in order, the later
    ones are dropped without a call, and [_audio_count] has counted the
    sends that succeeded. *)
Theorem send_audio_stops_after_a_failed_send :
  forall (frames : list bytes) (h : STT.STTHandler)
         (c : Remote.conn STT.ListenMsg) (j : nat),
    STT.connection h = Some c ->
    STT.is_connected (STT.state h) = true ->
    fails_after j c ->
    j < length frames ->
    let h' := send_audio_all frames h in
    stt_wire h' = Remote.calls c ++ map STT.Media (firstn (S j) frames)
    /\ STT.is_connected (STT.state h') = false
    /\ STT._audio_count h' = STT._audio_count h + j.
Proof.
  intros frames.
  induction frames as [|f fs IH]; intros h c j Hc Hup [later Hf] Hj;
    [simpl in Hj; lia|].
  cbv zeta. unfold send_audio_all. cbn [fold_left].
  fold (send_audio_all fs (STT.send_audio f h)).
  destruct j as [|j].
  - assert (E : STT.send_audio f h
                = STT.set_connected false
                    (STT.set_connection
                       (Some (Remote.mk (Remote.calls c ++ [STT.Media f])
                                        later)) h)).
    { unfold STT.send_audio. rewrite Hc, Hup. cbn [negb].
      unfold Remote.send. rewrite Hf. reflexivity. }
    rewrite E, send_audio_all_disconnected by reflexivity.
    unfold stt_wire. simpl. rewrite Nat.add_0_r. auto.
  - assert (E : STT.send_audio f h
                = STT.mkSTTHandler
                    (Some (Remote.mk (Remote.calls c ++ [STT.Media f])
                                     (repeat false j ++ true :: later)))
                    (STT.state h) (STT._context_manager h)
                    (STT._on_transcript h) (STT._on_speech_started h)
                    (STT._on_speech_ended h) (STT._on_utterance_end h)
                    (S (STT._audio_count h))).
    { unfold STT.send_audio. rewrite Hc, Hup. cbn [negb].
      unfold Remote.send. rewrite Hf. reflexivity. }
    rewrite E.
    match goal with
    | |- context [send_audio_all fs ?x] => set (next := x)
    end.
    assert (Hj' : j < length fs) by (simpl in Hj; lia).
    destruct (IH next (Remote.mk (Remote.calls c ++ [STT.Media f])
                                 (repeat false j ++ true :: later)) j
                 eq_refl Hup (ex_intro _ later eq_refl) Hj')
      as (H1 & H2 & H3).
    rewrite H1, H2, H3. subst next. simpl.
    rewrite <- app_assoc. simpl. repeat split; try reflexivity. lia.
Qed.

Lemma send_audio_stops_after_a_failed_send_witness :
  stt_wire (send_audio_all FixtureSTT.four_frames FixtureSTT.failing_third)
  = [STT.Media [Byte.x01]; STT.Media [Byte.x02]; STT.Media [Byte.x03]]
  /\ STT._audio_count
       (send_audio_all FixtureSTT.four_frames FixtureSTT.failing_third)
     = 2.
Proof.
  destruct (send_audio_stops_after_a_failed_send
              FixtureSTT.four_frames FixtureSTT.failing_third
              (Remote.fresh [false; false; true]) 2
              eq_refl eq_refl (ex_intro _ [] eq_refl))
    as (H1 & _ & H3); [vm_compute; lia|].
  split; [exact H1 | exact H3].
Defined.

Lemma handle_transcript_mid_utterance r h :
  STT.or_False (STT.r_speech_final r) = false ->
  STT.transcript_parts (STT.state (fst (STT._handle_transcript r h)))
  = STT.transcript_parts (STT.state h) ++ final_texts [r]
  /\ user_finished_calls (snd (STT._handle_transcript r h)) = []
  /\ STT._on_utterance_end (fst (STT._handle_transcript r h))
     = STT._on_utterance_end h.
Proof.
  intros Hsf. unfold STT._handle_transcript, final_texts, result_text.
  cbn [flat_map]. rewrite !app_nil_r.
  destruct (STT.channel r) as [ch|]; [|simpl; rewrite app_nil_r; auto].
  destruct (STT.alternatives ch) as [[|alt alts]|];
    try (simpl; rewrite app_nil_r; auto).
  destruct (STT.transcript alt) as [[|c t]|];
    try (simpl; rewrite app_nil_r; auto).
  rewrite Hsf.
  destruct (STT.or_False (STT.r_is_final r)); simpl;
    rewrite ?app_nil_r; (split; [reflexivity|]);
    destruct (STT._on_transcript h); auto.
Qed.

Lemma stt_life_results rs : forall h cbs,
  mid_utterance rs ->
  let hc := fold_left
              (fun hc m =>
                 let (h', new) := STT._process_message m (fst hc) in
                 (h', snd hc ++ new))
              (map STT.Results rs) (h, cbs) in
  STT.transcript_parts (STT.state (fst hc))
  = STT.transcript_parts (STT.state h) ++ final_texts rs
  /\ user_finished_calls (snd hc) = user_finished_calls cbs
  /\ STT._on_utterance_end (fst hc) = STT._on_utterance_end h.
Proof.
  induction rs as [|r rs IH]; intros h cbs Hmid; cbv zeta.
  - simpl. rewrite app_nil_r. auto.
  - inversion Hmid as [|? ? Hr Hrs]; subst.
    cbn [map fold_left fst snd STT._process_message].
    destruct (handle_transcript_mid_utterance r h Hr) as (H1 & H2 & H3).
    destruct (STT._handle_transcript r h) as [h1 new]. cbn [fst snd] in *.
    destruct (IH h1 (cbs ++ new) Hrs) as (H4 & H5 & H6).
    rewrite H4, H5, H6, H1, H3.
    unfold user_finished_calls in *. rewrite flat_map_app, H2, app_nil_r.
    assert (E : final_texts (r :: rs) = final_texts [r] ++ final_texts rs).
    { unfold final_texts. cbn [flat_map]. rewrite app_nil_r. reflexivity. }
    rewrite E, app_assoc. auto.
Qed.

(** X4: how an utterance is put together.  Over any run of results that do
    not end the utterance, the handler collects the texts of the final
    results in order (interim results and results without text add nothing)
    and invokes neither end-of-speech callback; the [UtteranceEnd] that
    follows hands the collected segments, joined by single spaces and
    stripped, to [on_utterance_end] once (not at all if that text is empty)
    and leaves the collection empty. *)
Theorem utterance_is_joined_from_final_segments :
  forall (rs : list STT.ListenV1Results) (h : STT.STTHandler),
    mid_utterance rs ->
    STT._on_utterance_end h = true ->
    let full :=
      PyStr.strip (PyStr.join [PyStr.space]
                              (STT.transcript_parts (STT.state h)
                               ++ final_texts rs)) in
    let before := stt_life (map STT.Results rs) h in
    let after := stt_life (map STT.Results rs ++ [STT.UtteranceEnd]) h in
    user_finished_calls (snd before) = []
    /\ user_finished_calls (snd after)
       = (if PyStr.truthy full then [full] else [])
    /\ STT.transcript_parts (STT.state (fst after)) = []
    /\ STT.current_transcript (STT.state (fst after)) = [].
Proof.
  intros rs h Hmid Hreg full before after.
  destruct (stt_life_results rs h [] Hmid) as (H1 & H2 & H3).
  fold (stt_life (map STT.Results rs) h) in H1, H2, H3. fold before in H1, H2, H3.
  split; [exact H2|].
  subst after. unfold stt_life. rewrite fold_left_app.
  fold (stt_life (map STT.Results rs) h). fold before.
  cbn [fold_left STT._process_message].
  unfold STT._handle_utterance_end. cbn [fst snd].
  unfold STT.get_full_transcript. cbn [STT.set_speaking STT.set_state
    STT.state STT.transcript_parts STT._on_utterance_end].
  rewrite H1, H3, Hreg. fold full.
  unfold user_finished_calls in *. rewrite flat_map_app, H2.
  rewrite andb_true_r.
  destruct (PyStr.truthy full); simpl; auto.
Qed.

Lemma utterance_is_joined_from_final_segments_witness :
  user_finished_calls
    (snd (stt_life (map STT.Results FixtureUtterance.segments
                    ++ [STT.UtteranceEnd])
                   FixtureUtterance.listening))
  = [PyStr.lit "Book a table for two"].
Proof.
  assert (Hmid : mid_utterance FixtureUtterance.segments)
    by (repeat constructor).
  destruct (utterance_is_joined_from_final_segments
              FixtureUtterance.segments FixtureUtterance.listening
              Hmid eq_refl) as (_ & H & _).
  exact H.
Defined.

(* ------------------------------------------------------------------ *)
(** ** Streaming text to the synthesizer *)

Lemma speak_texts_app a b : speak_texts (a ++ b) = speak_texts a ++ speak_texts b.
Proof. unfold speak_texts. apply flat_map_app. Qed.

(** [send_text] on an open socket: the text, unless empty, is the one text
    added to the wire. *)
Lemma send_text_texts text h :
  tts_up h ->
  tts_up (TTS.send_text text h)
  /\ speak_texts (TTS.wire (TTS.send_text text h))
     = speak_texts (TTS.wire h)
       ++ (if PyStr.truthy text then [text] else []).
Proof.
  intros [[c Hc] Hup]. unfold TTS.send_text, TTS.wire, tts_up.
  rewrite Hc, Hup. cbn [negb].
  destruct (PyStr.truthy text) eqn:Et; cbn [negb].
  2:{ rewrite Hc, app_nil_r. eauto. }
  pose proof (send_logs_call (TTS.SpeakV1Text text) c) as Hl.
  destruct (Remote.send (TTS.SpeakV1Text text) c) as [c1 raised].
  cbn [fst] in Hl.
  assert (E1 : speak_texts (Remote.calls c1)
               = speak_texts (Remote.calls c) ++ [text]).
  { rewrite Hl, speak_texts_app. reflexivity. }
  destruct raised; [simpl; eauto|].
  destruct (PyStr.last_char text) as [ch|]; [|simpl; eauto].
  destruct (TTS.in_chars ch TTS.FLUSH_CHARS); [|simpl; eauto].
  simpl. rewrite send_logs_call, speak_texts_app, E1. simpl.
  rewrite app_nil_r. eauto.
Qed.

Lemma flush_texts h :
  speak_texts (TTS.wire (TTS.flush h)) = speak_texts (TTS.wire h).
Proof.
  unfold TTS.flush, TTS.wire.
  destruct (TTS.connection h) as [c|] eqn:Hc; [|rewrite Hc; reflexivity].
  destruct (TTS.is_connected (TTS.state h)); [|rewrite Hc; reflexivity].
  simpl. rewrite send_logs_call, speak_texts_app. simpl.
  apply app_nil_r.
Qed.

Lemma stream_text_loop_texts tokens : forall buffer h,
  tts_up h ->
  TTS._cancel_event h = false ->
  let r := TTS.stream_text_loop tokens buffer h in
  tts_up (fst r)
  /\ concat (speak_texts (TTS.wire (fst r))) ++ snd r
     = concat (speak_texts (TTS.wire h)) ++ buffer ++ concat tokens.
Proof.
  induction tokens as [|token rest IH]; intros buffer h Hup Hnc; cbv zeta.
  - simpl. rewrite app_nil_r. auto.
  - cbn [TTS.stream_text_loop]. rewrite Hnc.
    destruct (_ || _).
    + destruct (send_text_texts (buffer ++ token) h Hup) as [Hup1 Ht].
      assert (Hnc1 : TTS._cancel_event (TTS.send_text (buffer ++ token) h)
                     = false).
      { rewrite (proj1 (send_text_flags _ _)). exact Hnc. }
      destruct (IH [] _ Hup1 Hnc1) as [Hup2 Hc].
      split; [exact Hup2|]. rewrite Hc, Ht, concat_app.
      cbn [concat]. rewrite (app_assoc buffer token).
      clear. generalize (buffer ++ token). intros bt.
      destruct bt; simpl; rewrite ?app_nil_r, <- ?app_assoc; reflexivity.
    + destruct (IH (buffer ++ token) h Hup Hnc) as [Hup2 Hc].
      split; [exact Hup2|]. rewrite Hc. simpl.
      rewrite <- !app_assoc. reflexivity.
Qed.

(** X5: [stream_text] on an open socket hands the whole token stream to the
    synthesizer exactly once and in order: the texts it sends, put together,
    are the tokens put together, however the tokens were cut; and with the
    cancel flag set it sends nothing at all. *)
Theorem stream_text_sends_every_token_once :
  forall (tokens : list PyStr.str) (h : TTS.TTSHandler),
    (tts_up h ->
     TTS._cancel_event h = false ->
     concat (speak_texts (TTS.wire (TTS.stream_text tokens h)))
     = concat (speak_texts (TTS.wire h)) ++ concat tokens)
    /\ (TTS._cancel_event h = true -> TTS.stream_text tokens h = h).
Proof.
  intros tokens h. split.
  - intros Hup Hnc. unfold TTS.stream_text.
    destruct (stream_text_loop_texts tokens [] h Hup Hnc) as [Hup1 Hc].
    pose proof (proj1 (stream_text_loop_flags tokens [] h)) as Hf.
    destruct (TTS.stream_text_loop tokens [] h) as [h1 buffer].
    cbn [fst snd] in *. rewrite Hnc in Hf. rewrite Hf.
    destruct buffer as [|c t]; cbn [PyStr.truthy andb negb].
    + rewrite app_nil_r in Hc. exact Hc.
    + rewrite flush_texts.
      rewrite (proj2 (send_text_texts (c :: t) h1 Hup1)).
      cbn [PyStr.truthy]. rewrite concat_app. simpl.
      rewrite app_nil_r. exact Hc.
  - intros Hc. unfold TTS.stream_text.
    destruct tokens as [|token rest]; cbn [TTS.stream_text_loop];
      [reflexivity|].
    rewrite Hc. reflexivity.
Qed.

Lemma stream_text_sends_every_token_once_witness :
  concat (speak_texts
            (TTS.wire (TTS.stream_text
                         [PyStr.lit "It's sunny. "; PyStr.lit "Enjoy ";
                          PyStr.lit "your day"]
                         FixtureTTS.connected)))
  = PyStr.lit "It's sunny. Enjoy your day"
  /\ TTS.stream_text [PyStr.lit "It's sunny. "]
                     (TTS.cancel FixtureTTS.connected)
     = TTS.cancel FixtureTTS.connected.
Proof.
  split.
  - refine (proj1 (stream_text_sends_every_token_once
                     [PyStr.lit "It's sunny. "; PyStr.lit "Enjoy ";
                      PyStr.lit "your day"] FixtureTTS.connected)
                  _ eq_refl).
    split; [eexists; reflexivity | reflexivity].
  - apply (proj2 (stream_text_sends_every_token_once
                    [PyStr.lit "It's sunny. "]
                    (TTS.cancel FixtureTTS.connected))).
    reflexivity.
Defined.

(* ------------------------------------------------------------------ *)
(** ** The language model client *)

Lemma stream_phase_keeps_prompt o h :
  let h' := fst (fst (LLM.stream_phase o h)) in
  LLM.system_prompt h' = LLM.system_prompt h
  /\ LLM._greeting_text h' = LLM._greeting_text h.
Proof.
  unfold LLM.stream_phase. destruct o as [| |b]; simpl; auto.
  destruct (LLM.ending b) as [[| |]|]; simpl; auto.
  destruct (PyStr.truthy _); simpl; auto.
Qed.

Lemma run_keeps_prompt ui o h :
  let r := LLM.generate_response_stream ui o h in
  LLM.system_prompt (LLM.handler r) = LLM.system_prompt h
  /\ (LLM._greeting_text h = None ->
      LLM._greeting_text (LLM.handler r) = None
      /\ LLM.req_system_text (LLM.posted r) = LLM.system_prompt h).
Proof.
  cbv zeta. unfold LLM.generate_response_stream.
  assert (Hp : LLM.system_prompt (fst (LLM.request_phase ui h))
               = LLM.system_prompt h).
  { unfold LLM.request_phase. simpl.
    destruct (LLM._greeting_text h) as [[|c g]|]; try reflexivity.
    destruct (LLM.messages h); reflexivity. }
  assert (Hg : LLM._greeting_text h = None ->
               LLM._greeting_text (fst (LLM.request_phase ui h)) = None
               /\ LLM.req_system_text (snd (LLM.request_phase ui h))
                  = LLM.system_prompt h).
  { intros E. unfold LLM.request_phase. rewrite E. simpl. auto. }
  destruct (LLM.request_phase ui h) as [h1 rq]. cbn [fst snd] in *.
  pose proof (stream_phase_keeps_prompt o h1) as [Hs1 Hs2].
  destruct (LLM.stream_phase o h1) as [[h2 ys] c]. cbn [fst] in *.
  simpl. split; [congruence|].
  intros E. destruct (Hg E) as [Hg1 Hg2]. split; congruence.
Qed.

Lemma turns_keep_prompt ts : forall h,
  LLM._greeting_text h = None ->
  LLM.system_prompt (LLM.turns ts h) = LLM.system_prompt h
  /\ LLM._greeting_text (LLM.turns ts h) = None.
Proof.
  unfold LLM.turns.
  induction ts as [|[ui o] ts IH]; intros h E; [auto|].
  cbn [fold_left fst snd].
  destruct (run_keeps_prompt ui o h) as [H1 H2].
  destruct (H2 E) as [H3 _].
  destruct (IH _ H3) as [H4 H5]. split; congruence.
Qed.

(** X6: the greeting goes with exactly one request.  On a handler with a
    greeting and no history, the first [generate_response_stream] posts the
    system prompt extended by the greeting context; whatever becomes of that
    run (answered, failed or cancelled), every later request posts the
    system prompt as it is, and the prompt itself never changes. *)
Theorem greeting_context_is_posted_once :
  forall (h : LLM.LLMHandler) (greeting user_input : PyStr.str)
         (o : LLM.outcome),
    LLM._greeting_text h = Some greeting ->
    greeting <> [] ->
    LLM.messages h = [] ->
    let first := LLM.generate_response_stream user_input o h in
    LLM.req_system_text (LLM.posted first)
    = LLM.greeting_context (LLM.system_prompt h) greeting
    /\ forall (between : list (PyStr.str * LLM.outcome))
              (user_input' : PyStr.str) (o' : LLM.outcome),
         LLM.req_system_text
           (LLM.posted
              (LLM.generate_response_stream
                 user_input' o' (LLM.turns between (LLM.handler first))))
         = LLM.system_prompt h.
Proof.
  intros h g ui o Hg Hne Hm first.
  assert (E : LLM.req_system_text (LLM.posted first)
              = LLM.greeting_context (LLM.system_prompt h) g
              /\ LLM._greeting_text (LLM.handler first) = None
              /\ LLM.system_prompt (LLM.handler first)
                 = LLM.system_prompt h).
  { subst first. unfold LLM.generate_response_stream, LLM.request_phase.
    rewrite Hg, Hm. destruct g as [|c g]; [congruence|].
    match goal with
    | |- context [LLM.stream_phase o ?x] =>
        pose proof (stream_phase_keeps_prompt o x) as [H1 H2];
        destruct (LLM.stream_phase o x) as [[h2 ys] cn]
    end.
    cbn [fst] in H1, H2. simpl. auto. }
  destruct E as (E1 & E2 & E3). split; [exact E1|].
  intros between ui' o'.
  destruct (turns_keep_prompt between (LLM.handler first) E2) as [H1 H2].
  destruct (run_keeps_prompt ui' o' (LLM.turns between (LLM.handler first)))
    as [_ H3].
  destruct (H3 H2) as [_ H4]. congruence.
Qed.

Lemma greeting_context_is_posted_once_witness :
  LLM.req_system_text
    (LLM.posted
       (LLM.generate_response_stream
          (PyStr.lit "Sorry, go on.") (LLM.Response FixtureLLM.sure)
          (LLM.handler
             (LLM.generate_response_stream
                (PyStr.lit "What's the weather?")
                (LLM.Response FixtureLLM.sunny_cancelled) Fixture.llm))))
  = LLM.system_prompt Fixture.llm.
Proof.
  refine (proj2 (greeting_context_is_posted_once
                   Fixture.llm (PyStr.lit "Hello!")
                   (PyStr.lit "What's the weather?")
                   (LLM.Response FixtureLLM.sunny_cancelled)
                   eq_refl _ eq_refl) [] _ _).
  discriminate.
Defined.

(** X7: what [generate_response] returns against what the history records.
    When the request fails or the stream ends cleanly, the text returned is
    the assistant turn appended.  When the stream breaks off with an
    exception, the fragments already yielded come back followed by the
    apology, and the apology alone is appended: text that was handed on
    before the error is not in the history, and text still buffered is
    neither returned nor recorded. *)
Theorem generate_response_returns_more_than_it_records :
  forall (user_input : PyStr.str) (o : LLM.outcome) (h : LLM.LLMHandler),
    is_cancelled o = false ->
    exists reply,
      LLM.messages (fst (LLM.generate_response user_input o h))
      = LLM.messages h ++ [LLM.mkMessage LLM.user user_input;
                           LLM.mkMessage LLM.assistant reply]
      /\ match o with
         | LLM.Response b =>
             match broke_off b with
             | Some apology =>
                 reply = apology
                 /\ snd (LLM.generate_response user_input o h)
                    = concat (LLM.yielded (LLM.stream (LLM.chunks b)))
                      ++ apology
             | None => snd (LLM.generate_response user_input o h) = reply
             end
         | _ => snd (LLM.generate_response user_input o h) = reply
         end.
Proof.
  intros ui o h Hnc. unfold LLM.generate_response.
  cbn [fst snd]. unfold LLM.generate_response_stream.
  pose proof (request_phase_messages ui h) as Hm.
  destruct (LLM.request_phase ui h) as [h1 rq]. cbn [fst] in Hm.
  destruct o as [| |b]; simpl in Hnc; try discriminate.
  - eexists. simpl. rewrite Hm, app_two. split; reflexivity.
  - unfold LLM.stream_phase, broke_off.
    destruct (LLM.ending b) as [[| |]|] eqn:Ee; try discriminate.
    + eexists. cbn [fst snd LLM.handler LLM.fragments].
      split; [simpl; rewrite Hm, app_two; reflexivity|].
      split; [reflexivity|].
      rewrite concat_app. cbn [concat]. rewrite app_nil_r. reflexivity.
    + eexists. cbn [fst snd LLM.handler LLM.fragments].
      split; [simpl; rewrite Hm, app_two; reflexivity|].
      split; [reflexivity|].
      rewrite concat_app. cbn [concat]. rewrite app_nil_r. reflexivity.
    + pose proof (stream_accounted (LLM.chunks b)) as A.
      unfold accounted in A.
      destruct (PyStr.truthy (LLM.full_response (LLM.stream (LLM.chunks b))))
        eqn:Et.
      * eexists. simpl. rewrite Hm, app_two. split; [reflexivity|].
        rewrite concat_app, <- A.
        destruct (LLM.text_buffer _); simpl; rewrite ?app_nil_r;
          reflexivity.
      * eexists. simpl. rewrite Hm, app_two. split; [reflexivity|].
        assert (E : LLM.full_response (LLM.stream (LLM.chunks b)) = []).
        { destruct (LLM.full_response _); [reflexivity | discriminate]. }
        destruct (stream_empty _ E) as [-> ->]. reflexivity.
Qed.

Lemma generate_response_returns_more_than_it_records_witness :
  exists reply,
    LLM.messages
      (fst (LLM.generate_response (PyStr.lit "What's the weather?")
                                  (LLM.Response FixtureBroken.dropped)
                                  Fixture.llm))
    = [LLM.mkMessage LLM.user (PyStr.lit "What's the weather?");
       LLM.mkMessage LLM.assistant reply]
    /\ reply = PyStr.lit "I'm sorry, I'm having trouble connecting."
    /\ snd (LLM.generate_response (PyStr.lit "What's the weather?")
                                  (LLM.Response FixtureBroken.dropped)
                                  Fixture.llm)
       = PyStr.lit "It's sunny. I'm sorry, I'm having trouble connecting.".
Proof.
  destruct (generate_response_returns_more_than_it_records
              (PyStr.lit "What's the weather?")
              (LLM.Response FixtureBroken.dropped) Fixture.llm eq_refl)
    as (reply & Hm & Hr & Hs).
  exists reply. split; [exact Hm|]. split; [exact Hr | exact Hs].
Defined.

(* ------------------------------------------------------------------ *)
(** ** A closed session *)

Ltac by_cases :=
  repeat match goal with
         | |- context [match ?x with _ => _ end] => destruct x
         end;
  try reflexivity.

Lemma on_speech_started_active s :
  Server.is_active (Server.on_speech_started s) = Server.is_active s.
Proof.
  unfold Server.on_speech_started, Server.cancel_task. simpl. by_cases.
Qed.

Lemma on_user_finished_active t s :
  Server.is_active (Server.on_user_finished t s) = Server.is_active s.
Proof. unfold Server.on_user_finished. simpl. by_cases. Qed.

Lemma stt_message_active m s :
  Server.is_active (Server.stt_message m s) = Server.is_active s.
Proof.
  unfold Server.stt_message.
  destruct (STT._process_message m (Server.stt s)) as [h cbs].
  change (Server.is_active s) with (Server.is_active (Server.set_stt h s)).
  generalize (Server.set_stt h s). clear.
  induction cbs as [|cb cbs IH]; intros s; simpl; [reflexivity|].
  rewrite IH. destruct cb; simpl;
    auto using on_speech_started_active, on_user_finished_active.
Qed.

Lemma tts_message_closed m s :
  Server.is_active s = false ->
  Server.is_active (Server.tts_message m s) = false
  /\ Server.tts_audio_queue (Server.tts_message m s)
     = Server.tts_audio_queue s.
Proof.
  unfold Server.tts_message. intros Hc.
  destruct (TTS._process_message m (Server.tts s)) as [h cbs].
  assert (Hc' : Server.is_active (Server.set_tts h s) = false) by exact Hc.
  change (Server.tts_audio_queue s)
    with (Server.tts_audio_queue (Server.set_tts h s)).
  revert Hc'. generalize (Server.set_tts h s). clear.
  induction cbs as [|cb cbs IH]; intros s Hc; simpl; [auto|].
  destruct cb; simpl.
  - unfold Server.on_tts_audio. rewrite Hc. simpl. apply IH, Hc.
  - destruct (IH (Server.on_tts_complete s) Hc) as [H1 H2]. auto.
Qed.

Lemma drain_loop_active budget : forall s,
  Server.is_active (Server.drain_loop budget s) = Server.is_active s.
Proof.
  induction budget as [|b IH]; intros s; simpl; [reflexivity|].
  destruct (Deque.popleft (Server.tts_audio_queue s)) as [[a q]|];
    [|reflexivity].
  destruct (Remote.send _ _) as [ws raised].
  destruct raised; [reflexivity|]. rewrite IH. reflexivity.
Qed.

Section ClosedSession.

Variable base64_decode : PyStr.str -> option bytes.

Lemma handle_media_active m s :
  Server.is_active (Server.handle_media base64_decode m s)
  = Server.is_active s.
Proof. unfold Server.handle_media. by_cases. Qed.

Lemma step_closed e s :
  Server.is_active s = false ->
  Server.is_active (Server.step base64_decode s e) = false
  /\ only_drained s (Server.step base64_decode s e).
Proof.
  intros Hc. destruct e; simpl.
  - split.
    + unfold Server.endpoint_media. rewrite handle_media_active.
      destruct (TTS.str_eqb _ _); exact Hc.
    + apply only_drained_same.
      apply (proj2 (endpoint_media_tts base64_decode m s)).
  - unfold Server.drain_tts_queue. rewrite drain_loop_active.
    split; [exact Hc | apply (proj2 (drain_loop_tts 5 s))].
  - rewrite stt_message_active. split; [exact Hc|].
    apply only_drained_same.
    pose proof (stt_message_deques m s) as E. unfold deques in E.
    inversion E. reflexivity.
  - destruct (tts_message_closed m s Hc) as [H1 H2].
    split; [exact H1 | apply only_drained_same, H2].
  - split; [exact Hc | apply only_drained_same; reflexivity].
  - split; [exact Hc | apply only_drained_same; reflexivity].
  - unfold Server.connect_deepgram.
    destruct (STT.connect stt_attempt (Server.stt s)) as [h1 r1].
    destruct (TTS.connect tts_attempt (Server.tts s)) as [h2 r2].
    destruct (r1 && r2); simpl; [destruct (0 <? _); simpl|];
      (split; [exact Hc | apply only_drained_same; reflexivity]).
  - split; [exact Hc | apply only_drained_same; reflexivity].
  - split; [exact Hc | apply only_drained_same; reflexivity].
  - split; [exact Hc | apply only_drained_same; reflexivity].
  - split; [exact Hc | apply only_drained_same; reflexivity].
  - split; [exact Hc | apply only_drained_same; reflexivity].
  - unfold Server.response_begin.
    destruct (nth_error (Server.tasks s) i); simpl;
      (split; [exact Hc | apply only_drained_same; reflexivity]).
  - split; [exact Hc | apply only_drained_same; reflexivity].
  - split; [exact Hc | apply only_drained_same; reflexivity].
  - unfold Server.response_end.
    destruct (LLM.stream_phase o (Server.llm s)) as [[h ys] c]. simpl.
    split; [exact Hc | apply only_drained_same; reflexivity].
  - unfold Server.close_session. simpl.
    split; [by_cases | apply only_drained_same; same_deques].
Qed.

Lemma run_closed es : forall s,
  Server.is_active s = false ->
  Server.is_active (Server.run base64_decode es s) = false
  /\ only_drained s (Server.run base64_decode es s).
Proof.
  induction es as [|e es IH]; intros s Hc;
    [split; [exact Hc | apply only_drained_refl]|].
  destruct (step_closed e s Hc) as [H1 H2].
  unfold Server.run in *. simpl.
  destruct (IH _ H1) as [H3 H4].
  split; [exact H3 | eapply only_drained_trans; eassumption].
Qed.

End ClosedSession.

(** X8: [close_session] is final for the outbound audio.  Whatever happens
    to a session after it was closed (late synthesizer audio, transcripts,
    media frames, a response task still unwinding), the session stays
    inactive and no frame is ever appended to its outbound queue again: the
    queue can only lose frames at its front. *)
Theorem closed_session_queues_no_more_audio :
  forall (base64_decode : PyStr.str -> option bytes)
         (s : Server.CallSession) (es : list Server.event),
    let closed := Server.close_session s in
    Server.is_active (Server.run base64_decode es closed) = false
    /\ only_drained closed (Server.run base64_decode es closed).
Proof.
  intros decode s es closed. apply run_closed.
  subst closed. unfold Server.close_session. simpl.
  destruct (Server.pending_response_task s) as [i|]; [|reflexivity].
  destruct (negb _); reflexivity.
Qed.

(* ------------------------------------------------------------------ *)
(** ** How long the greeting takes *)

Section GreetingClock.

Variable base64_decode : PyStr.str -> option bytes.
Variable interleaved : nat -> list Server.event.
Variable raises : nat -> option Server.exn.

Lemma bind_read {A B : Type} (f : Server.CallSession -> A)
      (k : A -> Server.co B) st :
  Server.bind (Server.read f) k st = k (f (fst st)) st.
Proof. reflexivity. Qed.

Lemma at_most_bind {A B : Type} a b (c : Server.co A)
      (k : A -> Server.co B) :
  at_most a c -> (forall x, at_most b (k x)) ->
  at_most (a + b) (Server.bind c k).
Proof.
  intros Hc Hk st. unfold Server.bind.
  specialize (Hc st). destruct (c st) as [[x|e] st']; simpl in *.
  - specialize (Hk x st'). lia.
  - lia.
Qed.

Lemma at_least_bind {A B : Type} a b (c : Server.co A)
      (k : A -> Server.co B) :
  at_least a c -> (forall x, at_least b (k x)) ->
  at_least (a + b) (Server.bind c k).
Proof.
  intros Hc Hk st. unfold Server.bind.
  destruct (Hc st) as [[x Hx] Hlo].
  destruct (c st) as [[x'|e] st']; simpl in *; [|discriminate].
  destruct (Hk x' st') as [Hy Hlo']. split; [exact Hy | lia].
Qed.

Lemma at_most_write f : at_most 0 (Server.write f).
Proof. intros st. simpl. lia. Qed.

Lemma at_most_await f :
  at_most 1 (Server.await base64_decode interleaved raises f).
Proof.
  intros st. unfold Server.await. destruct (raises (snd st)); simpl; lia.
Qed.

Lemma at_most_wait_for_audio r :
  at_most r (Server.wait_for_audio base64_decode interleaved raises r).
Proof.
  induction r as [|r IH]; intros st; [simpl; lia|].
  cbn [Server.wait_for_audio]. rewrite bind_read.
  destruct (10 <? _); [simpl; lia|].
  exact (at_most_bind 1 r _ (fun _ => Server.wait_for_audio
                                        base64_decode interleaved raises r)
           (at_most_await (fun s => s)) (fun _ => IH) st).
Qed.

Lemma at_most_wait_for_drain fuel : forall pc,
  at_most fuel
          (Server.wait_for_drain base64_decode interleaved raises fuel pc).
Proof.
  induction fuel as [|fuel IH]; intros pc st; [simpl; lia|].
  cbn [Server.wait_for_drain]. rewrite bind_read.
  destruct (_ || _); [|simpl; lia].
  assert (Hk : forall x : unit,
             at_most fuel
               (if 500 <? S pc then Server.ret tt
                else Server.wait_for_drain base64_decode interleaved raises
                                           fuel (S pc))).
  { intros _. destruct (500 <? S pc); [|apply IH].
    intros st'. simpl. lia. }
  exact (at_most_bind 1 fuel _ _ (at_most_await (fun s => s)) Hk st).
Qed.

Lemma greeting_try_at_most greeting :
  at_most 554 (Server.greeting_try base64_decode interleaved raises greeting).
Proof.
  unfold Server.greeting_try.
  change 554 with (0 + (1 + (1 + (50 + (501 + (1 + 0)))))).
  apply at_most_bind; [apply at_most_write | intros _].
  apply at_most_bind; [apply at_most_await | intros _].
  apply at_most_bind; [apply at_most_await | intros _].
  apply at_most_bind; [apply at_most_wait_for_audio | intros _].
  apply at_most_bind; [apply at_most_wait_for_drain | intros _].
  apply at_most_bind; [apply at_most_await | intros _].
  apply at_most_write.
Qed.

Hypothesis undisturbed : forall n, raises n = None.

Lemma at_least_write f : at_least 0 (Server.write f).
Proof. intros st. simpl. split; [eauto | lia]. Qed.

Lemma at_least_await f :
  at_least 1 (Server.await base64_decode interleaved raises f).
Proof.
  intros st. unfold Server.await. rewrite undisturbed. simpl.
  split; [eauto | lia].
Qed.

Lemma at_least_wait_for_audio r :
  at_least 0 (Server.wait_for_audio base64_decode interleaved raises r).
Proof.
  induction r as [|r IH]; intros st; [simpl; split; [eauto | lia]|].
  cbn [Server.wait_for_audio]. rewrite bind_read.
  destruct (10 <? _); [simpl; split; [eauto | lia]|].
  destruct (at_least_bind 1 0 _ (fun _ => Server.wait_for_audio
                                            base64_decode interleaved
                                            raises r)
              (at_least_await (fun s => s)) (fun _ => IH) st) as [H1 H2].
  split; [exact H1 | eapply Nat.le_trans; [|exact H2]; lia].
Qed.

Lemma at_least_wait_for_drain fuel : forall pc,
  50 - pc <= fuel ->
  at_least (50 - pc)
           (Server.wait_for_drain base64_decode interleaved raises fuel pc).
Proof.
  induction fuel as [|fuel IH]; intros pc Hf st.
  - cbn [Server.wait_for_drain Server.ret fst snd]. split; [eauto | lia].
  - cbn [Server.wait_for_drain]. rewrite bind_read.
    destruct (Nat.ltb_spec pc 50) as [Hlt | Hge].
    + rewrite orb_true_r.
      assert (Hk : forall x : unit,
                 at_least (50 - S pc)
                   (if 500 <? S pc then Server.ret tt
                    else Server.wait_for_drain base64_decode interleaved
                                               raises fuel (S pc))).
      { intros _. destruct (Nat.ltb_spec 500 (S pc)); [lia|].
        apply IH. lia. }
      destruct (at_least_bind 1 (50 - S pc) _ _
                  (at_least_await (fun s => s)) Hk st) as [H1 H2].
      split; [exact H1 | eapply Nat.le_trans; [|exact H2]; lia].
    + rewrite orb_false_r. replace (50 - pc) with 0 by lia.
      destruct (Deque.truthy _);
        [|cbn [Server.ret fst snd]; split; [eauto | lia]].
      assert (Hk : forall x : unit,
                 at_least 0
                   (if 500 <? S pc then Server.ret tt
                    else Server.wait_for_drain base64_decode interleaved
                                               raises fuel (S pc))).
      { intros _. destruct (Nat.ltb_spec 500 (S pc)).
        - intros st'. cbn [Server.ret fst snd]. split; [eauto | lia].
        - intros st'. destruct fuel as [|fuel'].
          + cbn [Server.wait_for_drain Server.ret fst snd].
            split; [eauto | lia].
          + destruct (IH (S pc) ltac:(lia) st') as [H1 H2].
            split; [exact H1 | lia]. }
      destruct (at_least_bind 1 0 _ _ (at_least_await (fun s => s)) Hk st)
        as [H1 H2].
      split; [exact H1 | eapply Nat.le_trans; [|exact H2]; lia].
Qed.

Lemma greeting_try_at_least greeting :
  at_least 53 (Server.greeting_try base64_decode interleaved raises greeting).
Proof.
  unfold Server.greeting_try.
  change 53 with (0 + (1 + (1 + (0 + ((50 - 0) + (1 + 0)))))).
  apply at_least_bind; [apply at_least_write | intros _].
  apply at_least_bind; [apply at_least_await | intros _].
  apply at_least_bind; [apply at_least_await | intros _].
  apply at_least_bind; [apply at_least_wait_for_audio | intros _].
  apply at_least_bind; [apply at_least_wait_for_drain; lia | intros _].
  apply at_least_bind; [apply at_least_await | intros _].
  apply at_least_write.
Qed.

End GreetingClock.

(** X9: the greeting routine cannot hang and cannot be rushed.  Whatever
    the synthesizer and the caller do meanwhile, [_send_greeting] suspends at
    most 554 times before it is over (two sends, at most 50 polls for the
    first audio, at most 501 polls for the queue to drain, one settling
    sleep); and when nothing raises it returns normally after at least 53
    suspensions, because the drain loop polls at least 50 times even when
    the queue is empty. *)
Theorem greeting_suspends_between_53_and_554_times :
  forall (base64_decode : PyStr.str -> option bytes)
         (interleaved : nat -> list Server.event)
         (raises : nat -> option Server.exn)
         (greeting : PyStr.str) (s : Server.CallSession) (n : nat),
    let r := Server._send_greeting base64_decode interleaved raises
                                   greeting (s, n) in
    n <= snd (snd r) <= n + 554
    /\ ((forall k, raises k = None) ->
        fst r = inl tt /\ n + 53 <= snd (snd r)).
Proof.
  intros decode il rs g s n r.
  assert (E : snd (snd r)
              = snd (snd (Server.greeting_try decode il rs g (s, n)))
              /\ (forall a, fst (Server.greeting_try decode il rs g (s, n))
                            = inl a -> fst r = inl tt)).
  { subst r. unfold Server._send_greeting.
    destruct (Server.greeting_try decode il rs g (s, n))
      as [[[]|[]] [s1 n1]]; simpl; split; try reflexivity;
      intros a H; discriminate. }
  destruct E as [Ec Ei]. rewrite Ec. split.
  - apply (greeting_try_at_most decode il rs g (s, n)).
  - intros Hq.
    destruct (greeting_try_at_least decode il rs Hq g (s, n))
      as [[a Ha] Hlo].
    split; [exact (Ei a Ha) | exact Hlo].
Qed.

Lemma greeting_suspends_between_53_and_554_times_witness :
  let r := Server._send_greeting Fixture.decode FixtureGreeting.caller_audio
             FixtureGreeting.undisturbed (PyStr.lit "Hello!")
             (FixtureGreeting.connected, 0) in
  fst r = inl tt /\ 53 <= snd (snd r) <= 554.
Proof.
  destruct (greeting_suspends_between_53_and_554_times
              Fixture.decode FixtureGreeting.caller_audio
              FixtureGreeting.undisturbed (PyStr.lit "Hello!")
              FixtureGreeting.connected 0) as [[_ Hhi] Hlo].
  destruct (Hlo (fun _ => eq_refl)) as [Hok H53].
  split; [exact Hok | split; [exact H53 | exact Hhi]].
Defined.

(* ------------------------------------------------------------------ *)
(** ** The recognizer hears nothing of the greeting *)

Lemma stt_process_message_connection m h :
  STT.connection (fst (STT._process_message m h)) = STT.connection h.
Proof.
  destruct m as [r| | |]; simpl; try reflexivity.
  unfold STT._handle_transcript. by_cases.
Qed.

Lemma on_speech_started_stt s :
  Server.stt (Server.on_speech_started s) = Server.stt s
  /\ Server.stt_enabled (Server.on_speech_started s) = Server.stt_enabled s.
Proof.
  unfold Server.on_speech_started, Server.cancel_task. simpl.
  split; by_cases.
Qed.

Lemma on_user_finished_stt t s :
  Server.stt (Server.on_user_finished t s) = Server.stt s
  /\ Server.stt_enabled (Server.on_user_finished t s) = Server.stt_enabled s.
Proof. unfold Server.on_user_finished. simpl. split; by_cases. Qed.

Lemma dispatch_stt_stt cbs : forall s,
  Server.stt (fold_left Server.dispatch_stt cbs s) = Server.stt s
  /\ Server.stt_enabled (fold_left Server.dispatch_stt cbs s)
     = Server.stt_enabled s.
Proof.
  induction cbs as [|cb cbs IH]; intros s; simpl; [auto|].
  destruct (IH (Server.dispatch_stt s cb)) as [H1 H2]. rewrite H1, H2.
  destruct cb; simpl;
    auto using on_speech_started_stt, on_user_finished_stt.
Qed.

Lemma dispatch_tts_stt cbs : forall s,
  Server.stt (fold_left Server.dispatch_tts cbs s) = Server.stt s
  /\ Server.stt_enabled (fold_left Server.dispatch_tts cbs s)
     = Server.stt_enabled s.
Proof.
  induction cbs as [|cb cbs IH]; intros s; simpl; [auto|].
  destruct (IH (Server.dispatch_tts s cb)) as [H1 H2]. rewrite H1, H2.
  destruct cb; simpl; [|auto].
  unfold Server.on_tts_audio. destruct (negb _); auto.
Qed.

Lemma drain_loop_stt budget : forall s,
  Server.stt (Server.drain_loop budget s) = Server.stt s
  /\ Server.stt_enabled (Server.drain_loop budget s) = Server.stt_enabled s.
Proof.
  induction budget as [|b IH]; intros s; simpl; [auto|].
  destruct (Deque.popleft (Server.tts_audio_queue s)) as [[a q]|]; [|auto].
  destruct (Remote.send _ _) as [ws raised].
  destruct raised; [auto|].
  match goal with
  | |- context [Server.drain_loop b ?x] => destruct (IH x) as [H1 H2]
  end.
  rewrite H1, H2. auto.
Qed.

Section GreetingSilence.

Variable base64_decode : PyStr.str -> option bytes.
Variable interleaved : nat -> list Server.event.
Variable raises : nat -> option Server.exn.
Variable wire : list STT.ListenMsg.

Hypothesis greeting_only :
  forall n, forallb during_greeting (interleaved n) = true.

Lemma step_gated e s :
  during_greeting e = true ->
  gated wire s -> gated wire (Server.step base64_decode s e).
Proof.
  unfold gated. intros He [Hoff Hw]. destruct e; simpl; try discriminate.
  - unfold Server.endpoint_media.
    destruct (TTS.str_eqb _ _); cbv zeta;
      rewrite handle_media_gate_off by exact Hoff; simpl; auto.
  - destruct (drain_loop_stt 5 s) as [H1 H2].
    unfold Server.drain_tts_queue. rewrite H1, H2. auto.
  - unfold Server.stt_message.
    pose proof (stt_process_message_connection m (Server.stt s)) as Hc.
    destruct (STT._process_message m (Server.stt s)) as [h cbs].
    destruct (dispatch_stt_stt cbs (Server.set_stt h s)) as [H1 H2].
    rewrite H1, H2. simpl in *. split; [exact Hoff|].
    unfold stt_wire in *. rewrite Hc. exact Hw.
  - unfold Server.tts_message.
    destruct (TTS._process_message m (Server.tts s)) as [h cbs].
    destruct (dispatch_tts_stt cbs (Server.set_tts h s)) as [H1 H2].
    rewrite H1, H2. auto.
  - auto.
  - auto.
  - auto.
  - auto.
  - auto.
  - unfold Server.response_begin.
    destruct (nth_error (Server.tasks s) i); simpl; auto.
  - auto.
  - auto.
  - unfold Server.response_end.
    destruct (LLM.stream_phase o (Server.llm s)) as [[h ys] c]. simpl. auto.
Qed.

Lemma run_gated es : forall s,
  forallb during_greeting es = true ->
  gated wire s -> gated wire (Server.run base64_decode es s).
Proof.
  induction es as [|e es IH]; intros s Hes Hg; [exact Hg|].
  simpl in Hes. apply andb_prop in Hes. destruct Hes as [He Hes].
  unfold Server.run in *. simpl. apply IH; [exact Hes|].
  apply step_gated; assumption.
Qed.

Lemma stays_gated_bind {A B : Type} (c : Server.co A)
      (k : A -> Server.co B) :
  stays_gated wire c -> (forall x, stays_gated wire (k x)) ->
  stays_gated wire (Server.bind c k).
Proof.
  intros Hc Hk st Hg. unfold Server.bind.
  specialize (Hc st Hg). destruct (c st) as [[x|e] st']; simpl in *.
  - apply Hk, Hc.
  - exact Hc.
Qed.

Lemma stays_gated_await f :
  (forall s, gated wire s -> gated wire (f s)) ->
  stays_gated wire (Server.await base64_decode interleaved raises f).
Proof.
  intros Hf st Hg. unfold Server.await.
  assert (H : gated wire (Server.run base64_decode (interleaved (snd st))
                                     (f (fst st)))).
  { apply run_gated; [apply greeting_only | apply Hf, Hg]. }
  destruct (raises (snd st)); exact H.
Qed.

Lemma stays_gated_wait_for_audio r :
  stays_gated wire (Server.wait_for_audio base64_decode interleaved raises r).
Proof.
  induction r as [|r IH]; intros st Hg; [exact Hg|].
  cbn [Server.wait_for_audio]. rewrite bind_read.
  destruct (10 <? _); [exact Hg|].
  apply (stays_gated_bind _ (fun _ => Server.wait_for_audio
                                        base64_decode interleaved raises r));
    [apply stays_gated_await; auto | intros _; exact IH | exact Hg].
Qed.

Lemma stays_gated_wait_for_drain fuel : forall pc,
  stays_gated wire (Server.wait_for_drain base64_decode interleaved raises
                                     fuel pc).
Proof.
  induction fuel as [|fuel IH]; intros pc st Hg; [exact Hg|].
  cbn [Server.wait_for_drain]. rewrite bind_read.
  destruct (_ || _); [|exact Hg].
  apply (stays_gated_bind
           (Server.sleep base64_decode interleaved raises)
           (fun _ => if 500 <? S pc then Server.ret tt
                     else Server.wait_for_drain base64_decode interleaved
                                                raises fuel (S pc)));
    [apply stays_gated_await; auto | | exact Hg].
  intros _. destruct (500 <? S pc); [intros st' H; exact H | apply IH].
Qed.

End GreetingSilence.

(** X10: the recognizer hears nothing of the greeting.  From the start of
    [_send_greeting] to its end, whatever media frames, synthesizer audio,
    recognizer messages or drains run while it is suspended and wherever it
    raises, no call is made on the STT socket: every inbound frame of that
    time is discarded. *)
Theorem greeting_forwards_no_audio_to_stt :
  forall (base64_decode : PyStr.str -> option bytes)
         (interleaved : nat -> list Server.event)
         (raises : nat -> option Server.exn)
         (greeting : PyStr.str) (s : Server.CallSession) (n : nat),
    (forall k, forallb during_greeting (interleaved k) = true) ->
    stt_wire
      (Server.stt
         (fst (snd (Server._send_greeting base64_decode interleaved raises
                                          greeting (s, n)))))
    = stt_wire (Server.stt s).
Proof.
  intros decode il rs g s n Hev.
  set (wire := stt_wire (Server.stt s)).
  assert (Hbind : forall (A B : Type) (c : Server.co A) (k : A -> Server.co B),
             stays_gated wire c ->
             (forall x, keeps_wire wire (k x)) ->
             keeps_wire wire (Server.bind c k)).
  { intros A B c k Hc Hk st Hg. unfold Server.bind.
    specialize (Hc st Hg). destruct (c st) as [[x|e] st']; cbn [fst snd] in *.
    - apply Hk, Hc.
    - exact (proj2 Hc). }
  assert (Hrest : forall st,
             gated wire (fst st) ->
             stt_wire (Server.stt
                         (fst (snd (Server.greeting_try decode il rs g st))))
             = wire).
  { intros st Hg. unfold Server.greeting_try.
    unfold Server.bind at 1, Server.write at 1. cbn [fst snd].
    match goal with
    | |- stt_wire (Server.stt (fst (snd (?c ?st0)))) = _ =>
        assert (Hk : keeps_wire wire c); [|apply (Hk st0)]
    end.
    - apply Hbind; [apply stays_gated_await; [exact Hev | auto]|intros _].
      apply Hbind; [apply stays_gated_await; [exact Hev | auto]|intros _].
      apply Hbind; [apply stays_gated_wait_for_audio, Hev|intros _].
      apply Hbind; [apply stays_gated_wait_for_drain, Hev|intros _].
      apply Hbind; [apply stays_gated_await; [exact Hev | auto]|intros _].
      intros st' Hg'. exact (proj2 Hg').
    - destruct Hg as [_ Hg]. split; [reflexivity | exact Hg]. }
  assert (Hany : stt_wire
                   (Server.stt
                      (fst (snd (Server.greeting_try decode il rs g (s, n)))))
                 = wire).
  { unfold Server.greeting_try.
    unfold Server.bind at 1, Server.write at 1. cbn [fst snd].
    pose proof (Hrest (Server.set_stt_enabled false s, n)) as H.
    unfold Server.greeting_try in H.
    unfold Server.bind at 1, Server.write at 1 in H. cbn [fst snd] in H.
    apply H. split; reflexivity. }
  unfold Server._send_greeting.
  destruct (Server.greeting_try decode il rs g (s, n)) as [[[]|[]] [s1 n1]];
    exact Hany.
Qed.

Lemma greeting_forwards_no_audio_to_stt_witness :
  stt_wire
    (Server.stt
       (fst (snd (Server._send_greeting
                    Fixture.decode FixtureGreeting.caller_audio
                    FixtureGreeting.undisturbed (PyStr.lit "Hello!")
                    (FixtureGreeting.connected, 0)))))
  = [].
Proof.
  refine (greeting_forwards_no_audio_to_stt
            Fixture.decode FixtureGreeting.caller_audio
            FixtureGreeting.undisturbed (PyStr.lit "Hello!")
            FixtureGreeting.connected 0 _).
  intros k. reflexivity.
Defined.

(* ------------------------------------------------------------------ *)
(** ** Inbound audio after the greeting *)

Section Forwarding.

Variable base64_decode : PyStr.str -> option bytes.

Lemma handle_media_listening m s :
  listening s ->
  listening (Server.handle_media base64_decode m s)
  /\ stt_wire (Server.stt (Server.handle_media base64_decode m s))
     = stt_wire (Server.stt s)
       ++ map STT.Media (inbound_audio base64_decode [m])
  /\ deques (Server.handle_media base64_decode m s) = deques s
  /\ Server.inbound_count (Server.handle_media base64_decode m s)
     = Server.inbound_count s
  /\ Server.outbound_count (Server.handle_media base64_decode m s)
     = Server.outbound_count s.
Proof.
  intros Hl. pose proof Hl as (Hr & He & Hup & c & Hc & Hrel).
  unfold Server.handle_media, inbound_audio. cbn [flat_map].
  rewrite app_nil_r.
  destruct (TTS.str_eqb _ _); cbn [negb];
    [|simpl; rewrite app_nil_r; auto].
  destruct (Server.payload m) as [[|ch p]|];
    try (simpl; rewrite app_nil_r; auto).
  destruct (base64_decode (ch :: p)) as [audio_data|];
    [|simpl; rewrite app_nil_r; auto].
  rewrite Hr, He, Hup. cbn [andb].
  assert (E : STT.send_audio audio_data (Server.stt s)
              = STT.mkSTTHandler
                  (Some (Remote.mk (Remote.calls c ++ [STT.Media audio_data])
                                   (tl (Remote.faults c))))
                  (STT.state (Server.stt s))
                  (STT._context_manager (Server.stt s))
                  (STT._on_transcript (Server.stt s))
                  (STT._on_speech_started (Server.stt s))
                  (STT._on_speech_ended (Server.stt s))
                  (STT._on_utterance_end (Server.stt s))
                  (S (STT._audio_count (Server.stt s)))).
  { unfold STT.send_audio. rewrite Hc, Hup. cbn [negb].
    rewrite (proj1 (reliable_send (STT.Media audio_data) c Hrel)).
    reflexivity. }
  rewrite E. unfold listening, stt_wire. simpl. rewrite Hc.
  repeat split; try assumption; try reflexivity.
  eexists. split; [reflexivity|].
  pose proof (proj2 (reliable_send (STT.Media audio_data) c Hrel)) as H.
  rewrite (proj1 (reliable_send (STT.Media audio_data) c Hrel)) in H.
  exact H.
Qed.

Lemma endpoint_media_listening m s :
  listening s ->
  let s' := Server.endpoint_media base64_decode m s in
  listening s'
  /\ stt_wire (Server.stt s')
     = stt_wire (Server.stt s)
       ++ map STT.Media (inbound_audio base64_decode [m])
  /\ deques s' = deques s
  /\ Server.inbound_count s' + Server.outbound_count s'
     = S (Server.inbound_count s + Server.outbound_count s).
Proof.
  intros Hl. cbv zeta. unfold Server.endpoint_media.
  destruct (TTS.str_eqb (Server.track_or (PyStr.lit "unknown") m) _);
    cbv zeta;
    match goal with
    | |- context [Server.handle_media _ _ ?x] =>
        destruct (handle_media_listening m x Hl) as (H1 & H2 & H3 & H4 & H5)
    end;
    (split; [exact H1|]); rewrite H2, H3, H4, H5; simpl;
    repeat split; try reflexivity; lia.
Qed.

End Forwarding.

(** X11: once the greeting is over and while the STT socket holds, inbound
    audio reaches the recognizer in arrival order and nowhere else: over any
    run of media frames, the calls made on the STT socket grow by exactly the
    decoded payloads of the inbound frames, in order; frames of another
    track and frames with a missing, empty or undecodable payload add
    nothing; neither deque changes; and every frame is counted once. *)
Theorem inbound_audio_reaches_stt_in_order :
  forall (base64_decode : PyStr.str -> option bytes)
         (ms : list Server.media) (s : Server.CallSession),
    listening s ->
    let s' := Server.run base64_decode (map Server.TelnyxMedia ms) s in
    stt_wire (Server.stt s')
    = stt_wire (Server.stt s)
      ++ map STT.Media (inbound_audio base64_decode ms)
    /\ deques s' = deques s
    /\ Server.inbound_count s' + Server.outbound_count s'
       = Server.inbound_count s + Server.outbound_count s + length ms.
Proof.
  intros decode ms. induction ms as [|m ms IH]; intros s Hl; cbv zeta.
  - simpl. rewrite app_nil_r, Nat.add_0_r. auto.
  - destruct (endpoint_media_listening decode m s Hl) as (H1 & H2 & H3 & H4).
    specialize (IH _ H1). cbv zeta in IH. destruct IH as (H5 & H6 & H7).
    unfold Server.run in *. cbn [map fold_left Server.step].
    rewrite H5, H6, H7, H2, H3, H4.
    assert (E : inbound_audio decode (m :: ms)
                = inbound_audio decode [m] ++ inbound_audio decode ms).
    { unfold inbound_audio. cbn [flat_map]. rewrite app_nil_r.
      reflexivity. }
    rewrite E, map_app, app_assoc. cbn [length].
    repeat split; try reflexivity. lia.
Qed.

Lemma inbound_audio_reaches_stt_in_order_witness :
  stt_wire
    (Server.stt
       (Server.run Fixture.decode
          (map Server.TelnyxMedia FixtureListening.frames)
          FixtureListening.after_greeting))
  = [STT.Media [Byte.x41; Byte.x41; Byte.x41; Byte.x41];
     STT.Media [Byte.x43; Byte.x43; Byte.x43; Byte.x43]].
Proof.
  refine (proj1 (inbound_audio_reaches_stt_in_order
                   Fixture.decode FixtureListening.frames
                   FixtureListening.after_greeting _)).
  repeat split.
  exists (Remote.fresh []). split; [reflexivity | constructor].
Defined.

(** X12: a media frame that names no track is treated in two ways at once:
    the endpoint counts it as outbound ([outbound_count] grows,
    [inbound_count] does not), while [handle_media] takes it for inbound
    audio and, when the session is listening, forwards its payload to the
    recognizer. *)
Theorem trackless_frame_is_counted_outbound_but_forwarded :
  forall (base64_decode : PyStr.str -> option bytes)
         (c : N) (p : PyStr.str) (audio_data : bytes)
         (s : Server.CallSession),
    listening s ->
    base64_decode (c :: p) = Some audio_data ->
    let s' := Server.endpoint_media base64_decode
                (Server.mkMedia (Some (c :: p)) None) s in
    Server.outbound_count s' = S (Server.outbound_count s)
    /\ Server.inbound_count s' = Server.inbound_count s
    /\ stt_wire (Server.stt s')
       = stt_wire (Server.stt s) ++ [STT.Media audio_data].
Proof.
  intros decode c p audio_data s Hl Hd s'.
  subst s'. unfold Server.endpoint_media.
  change (TTS.str_eqb
            (Server.track_or (PyStr.lit "unknown")
                             (Server.mkMedia (Some (c :: p)) None))
            (PyStr.lit "inbound")) with false.
  cbv iota zeta.
  destruct (handle_media_listening
              decode (Server.mkMedia (Some (c :: p)) None)
              (Server.set_outbound_count (S (Server.outbound_count s)) s) Hl)
    as (_ & H2 & _ & H4 & H5).
  rewrite H2, H4, H5. unfold inbound_audio. cbn [flat_map].
  change (TTS.str_eqb
            (Server.track_or (PyStr.lit "inbound")
                             (Server.mkMedia (Some (c :: p)) None))
            (PyStr.lit "inbound")) with true.
  cbn [Server.payload]. rewrite Hd. simpl. auto.
Qed.

Lemma trackless_frame_is_counted_outbound_but_forwarded_witness :
  let s' := Server.endpoint_media Fixture.decode
              (Server.mkMedia (Some (PyStr.lit "CCCC")) None)
              FixtureListening.after_greeting in
  Server.outbound_count s' = 1
  /\ Server.inbound_count s' = 0
  /\ stt_wire (Server.stt s')
     = [STT.Media [Byte.x43; Byte.x43; Byte.x43; Byte.x43]].
Proof.
  refine (trackless_frame_is_counted_outbound_but_forwarded
            Fixture.decode 67%N (PyStr.lit "CCC")
            [Byte.x43; Byte.x43; Byte.x43; Byte.x43]
            FixtureListening.after_greeting _ eq_refl).
  repeat split.
  exists (Remote.fresh []). split; [reflexivity | constructor].
Defined.

(* ------------------------------------------------------------------ *)
(** ** The call manager *)

Section DictFacts.

Context {V : Type}.
Implicit Types (d : Dict.dict V) (k : PyStr.str) (v : V).

Lemma key_eqb_eq k k' : Dict.key_eqb k k' = true <-> k = k'.
Proof.
  unfold Dict.key_eqb. destruct (list_eq_dec N.eq_dec k k'); split;
    congruence.
Qed.

Lemma key_eqb_refl k : Dict.key_eqb k k = true.
Proof. apply key_eqb_eq. reflexivity. Qed.

Lemma key_eqb_neq k k' : k <> k' -> Dict.key_eqb k k' = false.
Proof.
  intros H. destruct (Dict.key_eqb k k') eqn:E; [|reflexivity].
  apply key_eqb_eq in E. contradiction.
Qed.

Lemma get_set_same k v d : Dict.get k (Dict.set k v d) = Some v.
Proof.
  induction d as [|[k' v'] d IH]; simpl.
  - rewrite key_eqb_refl. reflexivity.
  - destruct (Dict.key_eqb k k') eqn:E; simpl; rewrite E; auto.
Qed.

Lemma get_set_other k k' v d :
  k' <> k -> Dict.get k' (Dict.set k v d) = Dict.get k' d.
Proof.
  intros Hne. induction d as [|[k0 v0] d IH]; simpl.
  - rewrite key_eqb_neq by exact Hne. reflexivity.
  - destruct (Dict.key_eqb k k0) eqn:E; simpl.
    + apply key_eqb_eq in E. subst k0.
      rewrite key_eqb_neq by exact Hne. reflexivity.
    + destruct (Dict.key_eqb k' k0); auto.
Qed.

Lemma get_del_same k d : Dict.get k (Dict.del k d) = None.
Proof.
  unfold Dict.del. induction d as [|[k' v'] d IH]; simpl; [reflexivity|].
  destruct (Dict.key_eqb k k') eqn:E; simpl; [exact IH|].
  rewrite E. exact IH.
Qed.

Lemma get_del_other k k' d :
  k' <> k -> Dict.get k' (Dict.del k d) = Dict.get k' d.
Proof.
  intros Hne. unfold Dict.del.
  induction d as [|[k0 v0] d IH]; simpl; [reflexivity|].
  destruct (Dict.key_eqb k k0) eqn:E; simpl.
  - apply key_eqb_eq in E. subst k0.
    rewrite key_eqb_neq by exact Hne. exact IH.
  - destruct (Dict.key_eqb k' k0); auto.
Qed.

Lemma mem_set k k' v d :
  Dict.mem k' (Dict.set k v d) = true ->
  k' = k \/ Dict.mem k' d = true.
Proof.
  unfold Dict.mem. intros H.
  destruct (list_eq_dec N.eq_dec k' k) as [E|E]; [left; exact E|].
  right. rewrite get_set_other in H by exact E. exact H.
Qed.

Lemma mem_del k k' d :
  Dict.mem k' (Dict.del k d) = true -> Dict.mem k' d = true.
Proof.
  unfold Dict.mem. intros H.
  destruct (list_eq_dec N.eq_dec k' k) as [E|E].
  - subst. rewrite get_del_same in H. discriminate.
  - rewrite get_del_other in H by exact E. exact H.
Qed.

End DictFacts.

(** X13: [hangup] always forgets the call.  Whether or not the Telnyx
    client raises, after [hangup(k)] the call [k] is no longer among the
    active calls, every other call is as before, and exactly one hangup
    command for [k] was attempted. *)
Theorem hangup_always_forgets_the_call :
  forall (k : PyStr.str) (m : CallMgr.CallManager),
    let m' := CallMgr.hangup k m in
    Dict.get k (CallMgr.active_calls m') = None
    /\ (forall k', k' <> k ->
                   Dict.get k' (CallMgr.active_calls m')
                   = Dict.get k' (CallMgr.active_calls m))
    /\ Remote.calls (CallMgr.client m')
       = Remote.calls (CallMgr.client m) ++ [CallMgr.Hangup k].
Proof.
  intros k m m'. subst m'. unfold CallMgr.hangup. cbn [CallMgr.active_calls
    CallMgr.set_client].
  unfold Dict.mem.
  destruct (Dict.get k (CallMgr.active_calls m)) eqn:E; simpl.
  - rewrite get_del_same. split; [reflexivity|].
    split; [intros k' Hne; apply get_del_other, Hne | apply send_logs_call].
  - split; [exact E|]. split; [reflexivity | apply send_logs_call].
Qed.

Lemma update_call_calls k f m :
  forall k', Dict.mem k' (CallMgr.active_calls (CallMgr.update_call k f m))
             = true ->
             Dict.mem k' (CallMgr.active_calls m) = true.
Proof.
  intros k' H. unfold CallMgr.update_call in H.
  destruct k as [k|]; [|exact H].
  destruct (Dict.get k (CallMgr.active_calls m)) eqn:E; [|exact H].
  simpl in H. apply mem_set in H. destruct H as [-> | H]; [|exact H].
  unfold Dict.mem. rewrite E. reflexivity.
Qed.

Lemma update_call_client k f m :
  CallMgr.client (CallMgr.update_call k f m) = CallMgr.client m.
Proof.
  unfold CallMgr.update_call. destruct k as [k|]; [|reflexivity].
  destruct (Dict.get k (CallMgr.active_calls m)); reflexivity.
Qed.

Lemma handle_webhook_event_conservative et p m :
  let m' := fst (CallMgr.handle_webhook_event et p m) in
  CallMgr.client m' = CallMgr.client m
  /\ forall k', Dict.mem k' (CallMgr.active_calls m') = true ->
                Dict.mem k' (CallMgr.active_calls m) = true.
Proof.
  cbv zeta. unfold CallMgr.handle_webhook_event.
  destruct (Dict.key_eqb et (PyStr.lit "call.answered")); cbn [fst].
  { split; [apply update_call_client | apply update_call_calls]. }
  destruct (Dict.key_eqb et (PyStr.lit "call.hangup")); cbn [fst].
  { destruct (CallMgr.p_call_control_id p) as [k|]; [|auto].
    destruct (Dict.mem k (CallMgr.active_calls m)); [|auto].
    simpl. split; [reflexivity | intros k'; apply mem_del]. }
  destruct (Dict.key_eqb et (PyStr.lit "streaming.started")); cbn [fst].
  { split; [apply update_call_client | apply update_call_calls]. }
  destruct (Dict.key_eqb et (PyStr.lit "call.machine.detection.ended"));
    cbn [fst]; auto.
Qed.

(** X14: what the webhook route never does.  Whatever is posted to it, the
    route registers no new call, and it makes at most one call on the Telnyx
    client: a start-streaming command for the manager's public URL, and that
    only for a [call.answered] event about a call that is active. *)
Theorem webhook_route_only_starts_streams_of_active_calls :
  forall (body : option CallMgr.webhook) (m : CallMgr.CallManager),
    let m' := fst (CallMgr.telnyx_webhook body m) in
    (forall k, Dict.mem k (CallMgr.active_calls m') = true ->
               Dict.mem k (CallMgr.active_calls m) = true)
    /\ (Remote.calls (CallMgr.client m') = Remote.calls (CallMgr.client m)
        \/ exists k p,
             body = Some (CallMgr.mkWebhook (Some (PyStr.lit "call.answered"))
                                            (Some p))
             /\ CallMgr.p_call_control_id p = Some k
             /\ Dict.mem k (CallMgr.active_calls m) = true
             /\ Remote.calls (CallMgr.client m')
                = Remote.calls (CallMgr.client m)
                  ++ [CallMgr.StartStreaming k (CallMgr.public_ws_url m)]).
Proof.
  intros body m m'. subst m'. unfold CallMgr.telnyx_webhook.
  destruct body as [[et pl]|]; [|cbn [fst]; auto].
  cbn [CallMgr.event_type CallMgr.event_payload].
  set (et' := match et with Some t => t | None => [] end).
  set (p := match pl with Some p => p | None => CallMgr.no_payload end).
  pose proof (handle_webhook_event_conservative et' p m) as [Hcl Hmem].
  assert (Hret : snd (CallMgr.handle_webhook_event et' p m) <> None ->
                 snd (CallMgr.handle_webhook_event et' p m)
                 = CallMgr.p_call_control_id p).
  { unfold CallMgr.handle_webhook_event.
    repeat (destruct (Dict.key_eqb et' _); [reflexivity|]).
    intros H. exfalso. apply H. reflexivity. }
  assert (Hurl : CallMgr.public_ws_url
                   (fst (CallMgr.handle_webhook_event et' p m))
                 = CallMgr.public_ws_url m).
  { unfold CallMgr.handle_webhook_event, CallMgr.update_call.
    repeat match goal with
           | |- context [if ?b then _ else _] => destruct b
           | |- context [match ?x with _ => _ end] => destruct x
           end; reflexivity. }
  destruct (CallMgr.handle_webhook_event et' p m) as [m1 ret].
  cbn [fst snd] in *.
  destruct ret as [[|c k]|]; cbn [fst]; try (rewrite Hcl; auto).
  destruct (Dict.key_eqb et' (PyStr.lit "call.answered")) eqn:Eet;
    [|cbn [fst]; rewrite Hcl; auto].
  unfold CallMgr.start_media_streaming.
  destruct (Dict.get (c :: k) (CallMgr.active_calls m1)) as [cs|] eqn:Eg;
    [|cbn [fst]; rewrite Hcl; auto].
  pose proof (send_logs_call
                (CallMgr.StartStreaming (c :: k) (CallMgr.public_ws_url m1))
                (CallMgr.client m1)) as Hl.
  destruct (Remote.send _ (CallMgr.client m1)) as [cl raised].
  cbn [fst] in Hl.
  assert (Hk : Dict.mem (c :: k) (CallMgr.active_calls m) = true).
  { apply Hmem. unfold Dict.mem. rewrite Eg. reflexivity. }
  assert (Hbody : Some {| CallMgr.event_type := et;
                          CallMgr.event_payload := pl |}
                  = Some (CallMgr.mkWebhook (Some (PyStr.lit "call.answered"))
                                            (Some p))
                  /\ CallMgr.p_call_control_id p = Some (c :: k)).
  { apply key_eqb_eq in Eet.
    assert (Hp : CallMgr.p_call_control_id p = Some (c :: k))
      by (symmetry; apply Hret; discriminate).
    split; [|exact Hp].
    subst et' p. destruct et as [t|]; [|discriminate Eet].
    destruct pl as [p0|]; [|discriminate Hp]. subst t. reflexivity. }
  destruct Hbody as [Hb Hp].
  destruct raised; cbn [fst CallMgr.active_calls CallMgr.client
                        CallMgr.set_client CallMgr.set_active_calls].
  - split; [exact Hmem|]. right. exists (c :: k), p.
    rewrite Hl, Hcl, Hurl. auto.
  - split.
    + intros k' H. apply mem_set in H. destruct H as [-> | H];
        [exact Hk | apply Hmem, H].
    + right. exists (c :: k), p. rewrite Hl, Hcl, Hurl. auto.
Qed.

Lemma hangup_always_forgets_the_call_witness :
  Dict.get (PyStr.lit "v3:abc")
           (CallMgr.active_calls
              (CallMgr.hangup (PyStr.lit "v3:abc") FixtureCalls.dialled))
  = None
  /\ Remote.calls
       (CallMgr.client
          (CallMgr.hangup (PyStr.lit "v3:abc") FixtureCalls.dialled))
     = [CallMgr.Dial (PyStr.lit "conn-1") (PyStr.lit "+15551234567")
                     (PyStr.lit "+15550000000")
                     (PyStr.lit "wss://example/telnyx");
        CallMgr.Hangup (PyStr.lit "v3:abc")].
Proof.
  destruct (hangup_always_forgets_the_call
              (PyStr.lit "v3:abc") FixtureCalls.dialled) as (H1 & _ & H3).
  split; [exact H1 | exact H3].
Defined.

Lemma webhook_route_only_starts_streams_of_active_calls_witness :
  (forall k,
      Dict.mem k (CallMgr.active_calls
                    (fst (CallMgr.telnyx_webhook
                            (Some FixtureCalls.answered)
                            FixtureCalls.dialled)))
      = true ->
      Dict.mem k (CallMgr.active_calls FixtureCalls.dialled) = true)
  /\ Dict.mem (PyStr.lit "v3:abc")
               (CallMgr.active_calls FixtureCalls.dialled)
     = true.
Proof.
  split.
  - exact (proj1 (webhook_route_only_starts_streams_of_active_calls
                    (Some FixtureCalls.answered) FixtureCalls.dialled)).
  - reflexivity.
Defined.

(** X15: answering a call starts its stream.  For a [call.answered] event
    about an active call, the route sends one start-streaming command for
    that call and the manager's public URL; if the command goes through,
    the call's status is ["streaming"] (its other fields unchanged) and the
    route answers 200; if the command raises, the status stays ["answered"]
    and the route answers 500. *)
Theorem answered_call_starts_streaming :
  forall (m : CallMgr.CallManager) (c : N) (k : PyStr.str)
         (call : CallMgr.CallState) (p : CallMgr.payload),
    Dict.get (c :: k) (CallMgr.active_calls m) = Some call ->
    CallMgr.p_call_control_id p = Some (c :: k) ->
    let r := CallMgr.telnyx_webhook
               (Some (CallMgr.mkWebhook (Some (PyStr.lit "call.answered"))
                                        (Some p))) m in
    let raised :=
      snd (Remote.send (CallMgr.StartStreaming (c :: k)
                                               (CallMgr.public_ws_url m))
                       (CallMgr.client m)) in
    Remote.calls (CallMgr.client (fst r))
    = Remote.calls (CallMgr.client m)
      ++ [CallMgr.StartStreaming (c :: k) (CallMgr.public_ws_url m)]
    /\ Dict.get (c :: k) (CallMgr.active_calls (fst r))
       = Some (CallMgr.set_status
                 (if raised then PyStr.lit "answered"
                  else PyStr.lit "streaming") call)
    /\ snd r = (if raised then CallMgr.Error_500 else CallMgr.OK_200).
Proof.
  intros m c k call p Hg Hp r raised. subst r raised.
  unfold CallMgr.telnyx_webhook.
  cbn [CallMgr.event_type CallMgr.event_payload].
  unfold CallMgr.handle_webhook_event.
  change (Dict.key_eqb (PyStr.lit "call.answered")
                       (PyStr.lit "call.answered")) with true.
  cbv iota. rewrite Hp. unfold CallMgr.update_call. rewrite Hg.
  unfold CallMgr.start_media_streaming.
  cbn [CallMgr.active_calls CallMgr.set_active_calls CallMgr.client
       CallMgr.public_ws_url].
  rewrite get_set_same.
  pose proof (send_logs_call
                (CallMgr.StartStreaming (c :: k) (CallMgr.public_ws_url m))
                (CallMgr.client m)) as Hl.
  destruct (Remote.send _ (CallMgr.client m)) as [cl bad].
  cbn [fst snd] in *.
  destruct bad; cbn [fst snd CallMgr.active_calls CallMgr.set_active_calls
                     CallMgr.client CallMgr.set_client].
  - rewrite get_set_same. auto.
  - rewrite get_set_same. auto.
Qed.

Lemma answered_call_starts_streaming_witness :
  Dict.get (PyStr.lit "v3:abc")
    (CallMgr.active_calls
       (fst (CallMgr.telnyx_webhook (Some FixtureCalls.answered)
                                    FixtureCalls.dialled)))
  = Some (CallMgr.mkCallState
            (PyStr.lit "v3:abc") (PyStr.lit "leg-1")
            (PyStr.lit "+15551234567") (PyStr.lit "+15550000000")
            (PyStr.lit "streaming") None)
  /\ snd (CallMgr.telnyx_webhook (Some FixtureCalls.answered)
                                 FixtureCalls.dialled)
     = CallMgr.OK_200.
Proof.
  destruct (answered_call_starts_streaming
              FixtureCalls.dialled 118%N (PyStr.lit "3:abc")
              (CallMgr.mkCallState
                 (PyStr.lit "v3:abc") (PyStr.lit "leg-1")
                 (PyStr.lit "+15551234567") (PyStr.lit "+15550000000")
                 (PyStr.lit "initiated") None)
              (CallMgr.mkPayload (Some (PyStr.lit "v3:abc")) None None)
              eq_refl eq_refl) as (_ & H2 & H3).
  split; [exact H2 | exact H3].
Defined.

(* ------------------------------------------------------------------ *)
(** ** Configuration *)

Section ConfigFacts.

Variable int : PyStr.str -> option Z.
Variable float_t : Type.
Variable float : PyStr.str -> option float_t.
Variable float_0_7 : float_t.
Variable env : Config.environ.

Lemma required_present key :
  (exists v, Config._get_required_env key env = Config.Ok v)
  <-> Config.present env key.
Proof.
  unfold Config._get_required_env, Config.present.
  destruct (env key) as [[|c v]|]; split;
    try (intros [x H]; discriminate);
    try (intros (c0 & v0 & H); discriminate); eauto.
Qed.

Lemma required_value key v :
  Config._get_required_env key env = Config.Ok v -> env key = Some v.
Proof.
  unfold Config._get_required_env.
  destruct (env key) as [[|c v0]|]; intros H; inversion H; reflexivity.
Qed.

Lemma optional_int_parses key default :
  (exists n, Config._get_optional_int int key default env = Config.Ok n)
  <-> Config.parses int env key.
Proof.
  unfold Config._get_optional_int, Config.parses.
  destruct (env key) as [[|c v]|].
  - split; eauto.
  - destruct (int (c :: v)) as [n|].
    + split; [intros _; discriminate | eauto].
    + split; [intros [n H]; discriminate | intros H; contradiction].
  - split; eauto.
Qed.

Lemma optional_float_parses key default :
  (exists x, Config._get_optional_float float_t float key default env
             = Config.Ok x)
  <-> Config.parses float env key.
Proof.
  unfold Config._get_optional_float, Config.parses.
  destruct (env key) as [[|c v]|].
  - split; eauto.
  - destruct (float (c :: v)) as [x|].
    + split; [intros _; discriminate | eauto].
    + split; [intros [n H]; discriminate | intros H; contradiction].
  - split; eauto.
Qed.

Lemma bind_ok {A B : Type} (r : Config.result A) (k : A -> Config.result B) :
  (exists b, Config.bind r k = Config.Ok b)
  <-> exists a, r = Config.Ok a /\ exists b, k a = Config.Ok b.
Proof.
  destruct r as [a|e]; simpl; split.
  - intros H. exists a. auto.
  - intros (a0 & H & Hb). inversion H; subst. exact Hb.
  - intros [b H]; discriminate.
  - intros (a0 & H & _); discriminate.
Qed.

End ConfigFacts.

Lemma load_config_complete :
  forall (int : PyStr.str -> option Z) (float_t : Type)
         (float : PyStr.str -> option float_t) (float_0_7 : float_t)
         (env : Config.environ),
    (exists cfg,
        Config.load_config int float_t float float_0_7 env = Config.Ok cfg)
    -> Forall (Config.present env) Config.required.
Proof.
  intros int F float f07 env [cfg H]. unfold Config.load_config in H.
  repeat match type of H with
         | Config.bind ?r _ = _ =>
             let E := fresh "E" in
             destruct r eqn:E; cbn [Config.bind] in H; [|discriminate H]
         end.
  unfold Config.required.
  repeat (apply Forall_cons || apply Forall_nil);
    apply required_present; eexists; eassumption.
Qed.

(** X16: [load_config] validates exactly this much: it returns a
    configuration if and only if each of the six required variables is set
    to a non-empty text and each numeric variable that is set to a non-empty
    text is a number; an empty required variable is refused like a missing
    one, and an empty numeric variable is accepted like an unset one. *)
Theorem load_config_succeeds_iff_complete :
  forall (int : PyStr.str -> option Z) (float_t : Type)
         (float : PyStr.str -> option float_t) (float_0_7 : float_t)
         (env : Config.environ),
    (exists cfg,
        Config.load_config int float_t float float_0_7 env = Config.Ok cfg)
    <-> Forall (Config.present env) Config.required
        /\ Forall (Config.parses int env) Config.integers
        /\ Config.parses float env (PyStr.lit "BEDROCK_TEMPERATURE").
Proof.
  intros int F float f07 env. split.
  - intros [cfg H]. unfold Config.load_config in H.
    repeat match type of H with
           | Config.bind ?r _ = _ =>
               let E := fresh "E" in
               destruct r eqn:E; cbn [Config.bind] in H; [|discriminate H]
           end.
    unfold Config.required, Config.integers.
    split; [|split].
    + repeat (apply Forall_cons || apply Forall_nil);
        apply required_present; eexists; eassumption.
    + repeat (apply Forall_cons || apply Forall_nil);
        eapply (optional_int_parses int env); eexists; eassumption.
    + eapply (optional_float_parses F float env); eexists; eassumption.
  - intros (Hreq & Hint & Hfl).
    unfold Config.required, Config.integers in *.
    repeat match goal with
           | H : Forall _ (_ :: _) |- _ => inversion H; clear H; subst
           end.
    unfold Config.load_config.
    repeat match goal with
           | |- exists cfg,
                 Config.bind (Config._get_required_env ?k env) _ = _ =>
               let H := fresh "H" in
               assert (H : Config.present env k) by assumption;
               apply required_present in H; destruct H as [? H];
               rewrite H; cbn [Config.bind]
           | |- exists cfg,
                 Config.bind (Config._get_optional_int _ ?k ?d env) _ = _ =>
               let H := fresh "H" in
               assert (H : Config.parses int env k) by assumption;
               apply (proj2 (optional_int_parses int env k d)) in H;
               destruct H as [? H]; rewrite H; cbn [Config.bind]
           | |- exists cfg,
                 Config.bind (Config._get_optional_float _ _ ?k ?d env) _
                 = _ =>
               let H := fresh "H" in
               assert (H : Config.parses float env k) by assumption;
               apply (proj2 (optional_float_parses F float env k d)) in H;
               destruct H as [? H]; rewrite H; cbn [Config.bind]
           end.
    eexists. reflexivity.
Qed.

Lemma load_config_succeeds_iff_complete_witness :
  exists cfg,
    Config.load_config FixtureEnv.digits unit (fun _ => Some tt) tt
                       FixtureEnv.minimal
    = Config.Ok cfg.
Proof.
  apply (proj2 (load_config_succeeds_iff_complete
                  FixtureEnv.digits unit (fun _ => Some tt) tt
                  FixtureEnv.minimal)).
  unfold Config.required, Config.integers.
  split; [|split].
  - repeat (apply Forall_cons || apply Forall_nil);
      exists 120%N, []; reflexivity.
  - repeat (apply Forall_cons || apply Forall_nil); exact I.
  - exact I.
Defined.

(* ------------------------------------------------------------------ *)
(** ** The history a request carries *)

Lemma stream_phase_extends o h :
  exists more,
    LLM.messages (fst (fst (LLM.stream_phase o h)))
    = LLM.messages h ++ more.
Proof.
  unfold LLM.stream_phase. destruct o as [| |b].
  - eexists. reflexivity.
  - exists []. simpl. rewrite app_nil_r. reflexivity.
  - destruct (LLM.ending b) as [[| |]|].
    + eexists. reflexivity.
    + eexists. reflexivity.
    + exists []. simpl. rewrite app_nil_r. reflexivity.
    + destruct (PyStr.truthy _); eexists; reflexivity.
Qed.

Lemma request_posts_history user_input h :
  LLM.req_messages (snd (LLM.request_phase user_input h))
  = LLM.messages h ++ [LLM.mkMessage LLM.user user_input].
Proof.
  rewrite <- request_phase_messages. reflexivity.
Qed.

(** While runs are under way the history is not empty, and it never
    begins with anything but a user message. *)
Lemma play_starts_with_user es : forall running h,
  LLMRuns.balanced running es = true ->
  (LLM.messages h = [] -> running = 0) ->
  (LLM.messages h = []
   \/ exists c rest, LLM.messages h = LLM.mkMessage LLM.user c :: rest) ->
  LLM.messages (LLMRuns.play es h) = []
  \/ exists c rest,
      LLM.messages (LLMRuns.play es h) = LLM.mkMessage LLM.user c :: rest.
Proof.
  unfold LLMRuns.play.
  induction es as [|[ui|o] es IH]; intros running h Hb Hrun Hu;
    [exact Hu| |].
  - cbn [fold_left LLMRuns.step LLMRuns.balanced] in *.
    apply (IH (S running)); [exact Hb | |].
    + rewrite request_phase_messages. intros E.
      destruct (LLM.messages h); discriminate E.
    + right. rewrite request_phase_messages.
      destruct Hu as [E|(c & rest & E)]; rewrite E; simpl; eauto.
  - cbn [fold_left LLMRuns.step LLMRuns.balanced] in *.
    destruct running as [|n]; [discriminate Hb|].
    destruct (stream_phase_extends o h) as [more Hm].
    assert (Hne : exists c rest,
               LLM.messages h = LLM.mkMessage LLM.user c :: rest).
    { destruct Hu as [E|Hu]; [|exact Hu].
      apply Hrun in E. discriminate E. }
    destruct Hne as (c & rest & E).
    apply (IH n); [exact Hb | |].
    + rewrite Hm, E. discriminate.
    + right. rewrite Hm, E. simpl. eauto.
Qed.

Lemma play_sequential ts : forall h,
  LLMRuns.play (LLMRuns.sequential ts) h = LLM.turns ts h.
Proof.
  unfold LLMRuns.play, LLMRuns.sequential, LLM.turns.
  induction ts as [|[ui o] ts IH]; intros h; [reflexivity|].
  cbn [flat_map List.app fold_left LLMRuns.step fst snd].
  rewrite IH. f_equal.
  unfold LLM.generate_response_stream.
  destruct (LLM.request_phase ui h) as [h1 rq]. cbn [fst].
  destruct (LLM.stream_phase o h1) as [[h2 ys] c]. reflexivity.
Qed.

Lemma alternates_snoc_user rs :
  LLM.alternates rs = true ->
  awaiting_user rs = true ->
  LLM.alternates (rs ++ [LLM.user]) = true.
Proof.
  intros Ha Hw.
  induction rs as [|a rs IH]; [reflexivity|].
  destruct rs as [|b rs'].
  - destruct a; [discriminate Hw | reflexivity].
  - simpl in Ha. apply andb_prop in Ha. destruct Ha as [Hab Ha].
    change ((a :: b :: rs') ++ [LLM.user])
      with (a :: (b :: rs') ++ [LLM.user]).
    cbn [LLM.alternates app]. cbn [app] in IH.
    rewrite Hab. apply IH; [exact Ha|].
    unfold awaiting_user in *. simpl rev in *.
    destruct (rev rs' ++ [b]) as [|x xs] eqn:E.
    + destruct (rev rs'); discriminate.
    + simpl in Hw. exact Hw.
Qed.

(** X17: what a request carries.  In a call that starts with an empty
    history, every request [generate_response_stream] posts begins with a
    user message and ends with the transcript just heard, however the
    earlier runs overlapped and whatever became of them.  When the earlier
    runs came one after the other, each to its end before the next began,
    and none of them was cancelled, the posted messages alternate between
    user and assistant. *)
Theorem posted_history_begins_and_ends_with_the_user :
  forall (es : list LLMRuns.event) (user_input : PyStr.str)
         (h : LLM.LLMHandler),
    LLM.messages h = [] ->
    LLMRuns.balanced 0 es = true ->
    let rq := LLMRuns.next_request user_input es h in
    (exists c rest,
        LLM.req_messages rq = LLM.mkMessage LLM.user c :: rest)
    /\ (exists before,
           LLM.req_messages rq
           = before ++ [LLM.mkMessage LLM.user user_input])
    /\ (forall ts,
          es = LLMRuns.sequential ts ->
          forallb (fun t => negb (is_cancelled (snd t))) ts = true ->
          LLM.alternates (map LLM.msg_role (LLM.req_messages rq)) = true).
Proof.
  intros es ui h Hempty Hb rq. subst rq. unfold LLMRuns.next_request.
  rewrite request_posts_history.
  split; [|split].
  - destruct (play_starts_with_user es 0 h Hb (fun _ => eq_refl)
                                    (or_introl Hempty))
      as [E|(c & rest & E)]; rewrite E; simpl; eauto.
  - eauto.
  - intros ts -> Hnc. rewrite play_sequential.
    destruct (uncancelled_turns_alternate ts h Hnc) as [Ha Hw].
    + unfold LLM.roles. rewrite Hempty. reflexivity.
    + unfold LLM.roles. rewrite Hempty. reflexivity.
    + rewrite map_app. apply alternates_snoc_user; assumption.
Qed.

Lemma posted_history_begins_and_ends_with_the_user_witness :
  let rq := LLMRuns.next_request
              (PyStr.lit "Thanks.")
              (LLMRuns.sequential FixtureRuns.answered) Fixture.llm in
  (exists c rest,
      LLM.req_messages rq = LLM.mkMessage LLM.user c :: rest)
  /\ (exists before,
         LLM.req_messages rq
         = before ++ [LLM.mkMessage LLM.user (PyStr.lit "Thanks.")])
  /\ LLM.alternates (map LLM.msg_role (LLM.req_messages rq)) = true.
Proof.
  intros rq.
  destruct (posted_history_begins_and_ends_with_the_user
              (LLMRuns.sequential FixtureRuns.answered)
              (PyStr.lit "Thanks.") Fixture.llm eq_refl eq_refl)
    as (H1 & H2 & H3).
  split; [exact H1|]. split; [exact H2|].
  exact (H3 FixtureRuns.answered eq_refl eq_refl).
Defined.

(** Without that order the alternation is lost even when nothing is
    cancelled: a transcript that arrives while the first answer is still
    streaming is posted right after the first one. *)
Example overlapping_runs_post_two_user_turns :
  LLMRuns.balanced 0 FixtureRuns.overlapping = true
  /\ map LLM.msg_role
         (LLM.req_messages
            (LLMRuns.next_request (PyStr.lit "And tomorrow?")
                                  FixtureRuns.overlapping Fixture.llm))
     = [LLM.user; LLM.user].
Proof. split; reflexivity. Qed.

(** X18: a variable set to the empty text.  [load_config] refuses it where
    a value is required; where a text is optional the empty text is the
    value, not the default; where a number is optional the default is the
    value. *)
Theorem empty_variable_is_a_text_but_no_number :
  forall (int : PyStr.str -> option Z) (float_t : Type)
         (float : PyStr.str -> option float_t) (float_0_7 : float_t)
         (env : Config.environ) (cfg : Config.Config float_t),
    Config.load_config int float_t float float_0_7 env = Config.Ok cfg ->
    Forall (fun key => env key <> Some []) Config.required
    /\ (env (PyStr.lit "AWS_REGION") = Some [] ->
        Config.region float_t (Config.bedrock float_t cfg) = [])
    /\ (env (PyStr.lit "SERVER_HOST") = Some [] ->
        Config.host (Config.server float_t cfg) = [])
    /\ (env (PyStr.lit "SERVER_PORT") = Some [] ->
        Config.port (Config.server float_t cfg) = 8765%Z)
    /\ (env (PyStr.lit "BEDROCK_MAX_TOKENS") = Some [] ->
        Config.max_tokens float_t (Config.bedrock float_t cfg) = 50%Z)
    /\ (env (PyStr.lit "BEDROCK_TEMPERATURE") = Some [] ->
        Config.temperature float_t (Config.bedrock float_t cfg)
        = float_0_7).
Proof.
  intros int F float f07 env cfg H.
  assert (Hreq : Forall (Config.present env) Config.required).
  { apply (load_config_complete int F float f07 env). eauto. }
  unfold Config.load_config in H.
  repeat match type of H with
         | Config.bind ?r _ = _ =>
             let E := fresh "E" in
             destruct r eqn:E; cbn [Config.bind] in H; [|discriminate H]
         end.
  inversion H; subst cfg; clear H.
  cbn [Config.region Config.bedrock Config.host Config.server Config.port
       Config.max_tokens Config.temperature].
  split; [|repeat split].
  - eapply Forall_impl; [|exact Hreq].
    intros key (c & v & Hk) Hk'. congruence.
  - unfold Config._get_optional_env. intros ->. reflexivity.
  - unfold Config._get_optional_env. intros ->. reflexivity.
  - intros Hk.
    repeat match goal with
           | E : Config._get_optional_int _ _ _ _ = _ |- _ =>
               unfold Config._get_optional_int in E; try rewrite Hk in E
           end.
    congruence.
  - intros Hk.
    repeat match goal with
           | E : Config._get_optional_int _ _ _ _ = _ |- _ =>
               unfold Config._get_optional_int in E; try rewrite Hk in E
           end.
    congruence.
  - intros Hk.
    repeat match goal with
           | E : Config._get_optional_float _ _ _ _ _ = _ |- _ =>
               unfold Config._get_optional_float in E; try rewrite Hk in E
           end.
    congruence.
Qed.

Lemma empty_variable_is_a_text_but_no_number_witness :
  exists cfg,
    Config.load_config FixtureEnv.digits unit (fun _ => Some tt) tt
                       FixtureEnv.minimal
    = Config.Ok cfg
    /\ Config.region unit (Config.bedrock unit cfg) = []
    /\ Config.port (Config.server unit cfg) = 8765%Z.
Proof.
  eexists. split; [reflexivity|].
  pose proof (empty_variable_is_a_text_but_no_number
                FixtureEnv.digits unit (fun _ => Some tt) tt
                FixtureEnv.minimal _ eq_refl)
    as (_ & Hregion & _ & Hport & _).
  split; [apply Hregion | apply Hport]; reflexivity.
Defined.

(* ------------------------------------------------------------------ *)
(** ** The settings of a run *)

(** X19: [DEEPGRAM_TTS_MODEL] has no effect on a run of [main.py].  The
    [--voice] option has a default, so [args.voice] is not empty unless the
    empty text is passed, and [run_server_and_call] then replaces the
    configured model: two environments that differ only in that variable
    give the same host, port and configuration, whose TTS model is
    [args.voice]. *)
Theorem configured_tts_model_is_replaced :
  forall (int : PyStr.str -> option Z) (float_t : Type)
         (float : PyStr.str -> option float_t) (float_0_7 : float_t)
         (args : Main.Args) (env1 env2 : Config.environ),
    PyStr.truthy (Main.voice args) = true ->
    (forall key, key <> PyStr.lit "DEEPGRAM_TTS_MODEL" ->
                 env1 key = env2 key) ->
    Main.settings int float_t float float_0_7 args env1
    = Main.settings int float_t float float_0_7 args env2
    /\ forall host port config,
        Main.settings int float_t float float_0_7 args env1
        = Config.Ok (host, port, config) ->
        Config.tts_model (Config.deepgram float_t config)
        = Main.voice args.
Proof.
  intros int F float f07 args env1 env2 Hvoice Hagree. split.
  - unfold Main.settings, Config.load_config.
    unfold Config._get_required_env, Config._get_optional_int,
      Config._get_optional_float, Config._get_optional_env.
    repeat match goal with
           | |- context [env1 ?k] =>
               rewrite (Hagree k)
                 by (let Hd := fresh in
                     intro Hd; vm_compute in Hd; discriminate Hd)
           end.
    repeat match goal with
           | |- Config.bind (Config.bind ?r _) _
                = Config.bind (Config.bind ?r _) _ =>
               destruct r; cbn [Config.bind]; [|reflexivity]
           end.
    unfold Main.overrides, Main.replace_tts_model. rewrite Hvoice.
    reflexivity.
  - intros host port config. unfold Main.settings.
    destruct (Config.load_config int F float f07 env1) as [c|e];
      cbn [Config.bind]; [|discriminate].
    unfold Main.overrides. rewrite Hvoice. intros H.
    inversion H. reflexivity.
Qed.

Lemma configured_tts_model_is_replaced_witness :
  Main.settings FixtureEnv.digits unit (fun _ => Some tt) tt
                FixtureMain.plain FixtureMain.zeus
  = Main.settings FixtureEnv.digits unit (fun _ => Some tt) tt
                  FixtureMain.plain FixtureEnv.minimal
  /\ forall host port config,
      Main.settings FixtureEnv.digits unit (fun _ => Some tt) tt
                    FixtureMain.plain FixtureMain.zeus
      = Config.Ok (host, port, config) ->
      Config.tts_model (Config.deepgram unit config)
      = Main.voice FixtureMain.plain.
Proof.
  apply (configured_tts_model_is_replaced
           FixtureEnv.digits unit (fun _ => Some tt) tt
           FixtureMain.plain FixtureMain.zeus FixtureEnv.minimal).
  - reflexivity.
  - intros key Hk. unfold FixtureMain.zeus.
    rewrite (key_eqb_neq _ _ Hk). reflexivity.
Defined.

(* ------------------------------------------------------------------ *)
(** ** The handler a session starts with *)

Lemma generated_prompt_nonempty purpose r :
  exists c p, LLMSetup.generate_system_prompt purpose r = c :: p.
Proof.
  unfold LLMSetup.generate_system_prompt.
  destruct r as [[|c t]|]; eexists; eexists; reflexivity.
Qed.

(** X20: the purpose in the system prompt.  When [main.py] pre-generated a
    prompt and a non-empty greeting, [create_session] starts the handler
    with that greeting and an empty history, and with the pre-generated
    prompt followed by the purpose text: the purpose stands twice in it when
    the generation had fallen back on the default prompt.  In server-only
    mode the same replies give the generated prompt as it is. *)
Theorem pregenerated_prompt_is_extended_by_the_purpose :
  forall (purpose : PyStr.str) (system_prompt_arg : option PyStr.str)
         (prompt_reply greeting_reply prompt_reply' greeting_reply'
          : LLMSetup.reply),
    PyStr.truthy purpose = true ->
    PyStr.truthy (LLMSetup.generate_greeting purpose greeting_reply)
    = true ->
    let app := LLMSetup.pre_generate purpose system_prompt_arg false
                                     prompt_reply greeting_reply in
    let chosen :=
      LLMSetup.choose_llm app (Some (LLMSetup.call_purpose app))
                          prompt_reply' greeting_reply' in
    let app' := LLMSetup.pre_generate purpose system_prompt_arg true
                                      prompt_reply greeting_reply in
    let chosen' :=
      LLMSetup.choose_llm app' (Some (LLMSetup.call_purpose app'))
                          prompt_reply greeting_reply in
    snd chosen = LLMSetup.generate_greeting purpose greeting_reply
    /\ LLM._greeting_text (fst chosen) = Some (snd chosen)
    /\ LLM.messages (fst chosen) = []
    /\ LLM.system_prompt (fst chosen)
       = LLMSetup.generate_system_prompt purpose prompt_reply
           ++ LLMSetup.purpose_suffix purpose
    /\ (prompt_reply = None ->
        LLM.system_prompt (fst chosen)
        = (LLMSetup.DEFAULT_SYSTEM_PROMPT
             ++ LLMSetup.purpose_suffix purpose)
            ++ LLMSetup.purpose_suffix purpose)
    /\ snd chosen' = snd chosen
    /\ LLM.system_prompt (fst chosen')
       = LLMSetup.generate_system_prompt purpose prompt_reply.
Proof.
  intros purpose sa pr gr pr' gr' Hp Hg.
  destruct purpose as [|c p]; [discriminate Hp|].
  destruct (generated_prompt_nonempty (c :: p) pr) as (d & q & Ep).
  destruct (LLMSetup.generate_greeting (c :: p) gr) as [|g0 g] eqn:Eg;
    [discriminate Hg|].
  unfold LLMSetup.pre_generate, LLMSetup.initialize_for_call.
  cbn [PyStr.truthy andb negb].
  rewrite Ep, Eg.
  unfold LLMSetup.choose_llm, LLMSetup.initialize_for_call.
  cbn [LLMSetup.pre_generated_greeting LLMSetup.pre_generated_system_prompt
       LLMSetup.call_purpose fst snd].
  rewrite Ep, Eg. cbn [fst snd].
  repeat split.
  intros ->. unfold LLMSetup.__init__. cbn [LLM.set_greeting_text
    LLM.system_prompt LLM.messages LLM.purpose].
  rewrite <- Ep. reflexivity.
Qed.

Lemma pregenerated_prompt_is_extended_by_the_purpose_witness :
  let app := LLMSetup.pre_generate (PyStr.lit "a dentist appointment")
                                   None false None None in
  LLM.system_prompt
    (fst (LLMSetup.choose_llm app (Some (LLMSetup.call_purpose app))
                              None None))
  = (LLMSetup.DEFAULT_SYSTEM_PROMPT
       ++ LLMSetup.purpose_suffix (PyStr.lit "a dentist appointment"))
      ++ LLMSetup.purpose_suffix (PyStr.lit "a dentist appointment").
Proof.
  intros app.
  apply (pregenerated_prompt_is_extended_by_the_purpose
           (PyStr.lit "a dentist appointment") None None None None None);
    reflexivity.
Defined.

(** X21: which sessions tell the model what was said first.  A session
    without a purpose and without pre-generated content speaks the default
    greeting, and its first request posts the default system prompt with no
    word of that greeting.  A session created for a purpose posts, with the
    first request, its system prompt extended by the greeting it spoke,
    provided the greeting is not empty. *)
Theorem only_a_call_with_a_purpose_recalls_its_greeting :
  forall (app : LLMSetup.AppState) (purpose : option PyStr.str)
         (prompt_reply greeting_reply : LLMSetup.reply)
         (user_input : PyStr.str),
    let chosen :=
      LLMSetup.choose_llm app purpose prompt_reply greeting_reply in
    let rq := snd (LLM.request_phase user_input (fst chosen)) in
    (LLMSetup.pre_generated_greeting app = None ->
     (purpose = None \/ purpose = Some []) ->
     snd chosen = LLMSetup.default_greeting
     /\ LLM.req_system_text rq = LLMSetup.DEFAULT_SYSTEM_PROMPT)
    /\ ((exists c p, purpose = Some (c :: p)) ->
        PyStr.truthy (snd chosen) = true ->
        LLM.req_system_text rq
        = LLM.greeting_context (LLM.system_prompt (fst chosen))
                               (snd chosen)).
Proof.
  intros app purpose pr gr ui. cbv zeta. split.
  - intros Hpre Hpurpose. unfold LLMSetup.choose_llm. rewrite Hpre.
    destruct Hpurpose as [-> | ->]; split; reflexivity.
  - intros (c & p & ->) Hg. revert Hg. unfold LLMSetup.choose_llm.
    destruct (LLMSetup.pre_generated_greeting app) as [[|g0 g]|];
      try destruct (LLMSetup.pre_generated_system_prompt app)
        as [[|d q]|];
      unfold LLMSetup.initialize_for_call; cbn [fst snd];
      try reflexivity;
      destruct (LLMSetup.generate_greeting (c :: p) gr) as [|g1 g'];
      try discriminate; reflexivity.
Qed.

Lemma only_a_call_with_a_purpose_recalls_its_greeting_witness :
  let app := LLMSetup.pre_generate [] None true None None in
  let chosen := LLMSetup.choose_llm app (Some (LLMSetup.call_purpose app))
                                    None None in
  snd chosen = LLMSetup.default_greeting
  /\ LLM.req_system_text
       (snd (LLM.request_phase (PyStr.lit "Hello?") (fst chosen)))
     = LLMSetup.DEFAULT_SYSTEM_PROMPT.
Proof.
  intros app chosen.
  apply (proj1 (only_a_call_with_a_purpose_recalls_its_greeting
                  app (Some (LLMSetup.call_purpose app)) None None
                  (PyStr.lit "Hello?"))).
  - reflexivity.
  - right. reflexivity.
Defined.

(* ------------------------------------------------------------------ *)
(** ** Placing a call *)

(** X22: a call is registered only when the dial goes through.
    [initiate_call] always attempts one dial, with the configured connection,
    the manager's public URL and the caller id given (the configured number
    when none or an empty one is given).  If the dial raises, the exception
    leaves [initiate_call] and the active calls are as before.  Otherwise
    the call is active under the id of the response, with status
    ["initiated"] and no stream id, and every other call is as before. *)
Theorem dial_registers_the_call_only_when_it_goes_through :
  forall (to_number : PyStr.str) (from_number : option PyStr.str)
         (response : PyStr.str * PyStr.str) (m : CallMgr.CallManager),
    let caller :=
      match from_number with
      | Some (c :: f) => c :: f
      | _ => CallMgr.phone_number (CallMgr.config m)
      end in
    let dial :=
      CallMgr.Dial (CallMgr.connection_id (CallMgr.config m)) to_number
                   caller (CallMgr.public_ws_url m) in
    let call_state :=
      CallMgr.mkCallState (fst response) (snd response) to_number caller
                          (PyStr.lit "initiated") None in
    let r := CallMgr.initiate_call to_number from_number response m in
    Remote.calls (CallMgr.client (fst r))
    = Remote.calls (CallMgr.client m) ++ [dial]
    /\ (snd (Remote.send dial (CallMgr.client m)) = true ->
        snd r = CallMgr.Raises
        /\ CallMgr.active_calls (fst r) = CallMgr.active_calls m)
    /\ (snd (Remote.send dial (CallMgr.client m)) = false ->
        snd r = CallMgr.Returns call_state
        /\ Dict.get (fst response) (CallMgr.active_calls (fst r))
           = Some call_state
        /\ forall k, k <> fst response ->
                     Dict.get k (CallMgr.active_calls (fst r))
                     = Dict.get k (CallMgr.active_calls m)).
Proof.
  intros to_number from_number response m caller dial call_state r.
  subst r. unfold CallMgr.initiate_call. fold caller. fold dial.
  pose proof (send_logs_call dial (CallMgr.client m)) as Hl.
  destruct (Remote.send dial (CallMgr.client m)) as [cl raised].
  cbn [fst snd] in *.
  destruct raised;
    cbn [fst snd CallMgr.client CallMgr.set_client CallMgr.active_calls
         CallMgr.set_active_calls].
  - split; [exact Hl|]. split; [auto | discriminate].
  - split; [exact Hl|]. split; [discriminate|]. intros _.
    fold call_state. split; [reflexivity|]. split.
    + apply get_set_same.
    + intros k Hk. apply get_set_other. exact Hk.
Qed.

(* ------------------------------------------------------------------ *)
(** ** The endpoint and the sessions it started *)

Lemma length_modify {A : Type} (f : A -> A) (l : list A) : forall i,
  length (Endpoint.modify i f l) = length l.
Proof.
  induction l as [|x l IH]; intros [|i]; simpl; try reflexivity.
  rewrite IH. reflexivity.
Qed.

Lemma nth_error_modify {A : Type} (f : A -> A) (l : list A) : forall i j,
  nth_error (Endpoint.modify i f l) j
  = if Nat.eqb i j then option_map f (nth_error l j) else nth_error l j.
Proof.
  induction l as [|x l IH]; intros [|i] [|j]; simpl; try reflexivity.
  - destruct (Nat.eqb _ _); reflexivity.
  - apply IH.
Qed.

Section EndpointFacts.

Variable app : LLMSetup.AppState.
Variable base64_decode : PyStr.str -> option bytes.

Lemma step_active ev s :
  Endpoint.in_background ev = true ->
  Server.is_active (Server.step base64_decode s ev) = Server.is_active s.
Proof.
  destruct ev; simpl; intros H; try discriminate H; try reflexivity.
  - apply stt_message_active.
  - unfold Server.tts_message.
    destruct (TTS._process_message m (Server.tts s)) as [h cbs].
    change (Server.is_active s) with (Server.is_active (Server.set_tts h s)).
    generalize (Server.set_tts h s). clear.
    induction cbs as [|cb cbs IH]; intros s; simpl; [reflexivity|].
    rewrite IH. destruct cb; simpl; [|reflexivity].
    unfold Server.on_tts_audio.
    destruct (negb (Server.is_active s)); reflexivity.
  - unfold Server.connect_deepgram.
    destruct (STT.connect _ _) as [h1 r1].
    destruct (TTS.connect _ _) as [h2 r2].
    destruct (r1 && r2); simpl; [|reflexivity].
    destruct (0 <? _); reflexivity.
  - unfold Server.response_begin.
    destruct (nth_error (Server.tasks s) i); reflexivity.
  - unfold Server.response_end.
    destruct (LLM.stream_phase o (Server.llm s)) as [[h ys] c].
    reflexivity.
Qed.

Lemma same_activity_refl e : Endpoint.same_activity e e.
Proof. unfold Endpoint.same_activity. repeat split; eauto. Qed.

Lemma same_activity_trans e1 e2 e3 :
  Endpoint.same_activity e1 e2 -> Endpoint.same_activity e2 e3 ->
  Endpoint.same_activity e1 e3.
Proof.
  intros (A1 & A2 & A3 & A4 & A5) (B1 & B2 & B3 & B4 & B5).
  unfold Endpoint.same_activity. repeat split; try congruence.
  intros i s Hs. destruct (A5 i s Hs) as (s' & Hs' & Ha).
  destruct (B5 i s' Hs') as (s'' & Hs'' & Hb).
  exists s''. split; [exact Hs'' | congruence].
Qed.

(** Changing one session by a function that keeps [is_active]. *)
Lemma modify_same_activity i f e :
  (forall s, Server.is_active (f s) = Server.is_active s) ->
  Endpoint.same_activity
    e (Endpoint.set_heap (Endpoint.modify i f (Endpoint.heap e)) e).
Proof.
  intros Hf. unfold Endpoint.same_activity, Endpoint.set_heap.
  cbn [Endpoint.sessions Endpoint.stream_id Endpoint.session Endpoint.heap].
  repeat split; [apply length_modify|].
  intros j s Hs. rewrite nth_error_modify, Hs.
  destruct (Nat.eqb i j); simpl; eauto.
Qed.

Lemma run_background_same_activity bg : forall e,
  Endpoint.same_activity e (Endpoint.run_background base64_decode bg e).
Proof.
  unfold Endpoint.run_background.
  induction bg as [|[i ev] bg IH]; intros e; [apply same_activity_refl|].
  cbn [fold_left fst snd].
  eapply same_activity_trans; [|apply IH].
  destruct (Endpoint.in_background ev) eqn:E; [|apply same_activity_refl].
  apply modify_same_activity. intros s. apply step_active. exact E.
Qed.

Lemma drain_same_activity e :
  Endpoint.same_activity e (Endpoint.drain_tts_queue e).
Proof.
  unfold Endpoint.drain_tts_queue.
  destruct (Endpoint.session e) as [i|] eqn:Es; [|apply same_activity_refl].
  destruct (nth_error (Endpoint.heap e) i) as [s|] eqn:En;
    [|apply same_activity_refl].
  unfold Endpoint.same_activity.
  cbn [Endpoint.sessions Endpoint.stream_id Endpoint.session Endpoint.heap].
  repeat split; [congruence | apply length_modify |].
  intros j s0 Hs. rewrite nth_error_modify, Hs.
  destruct (Nat.eqb i j) eqn:E; simpl; eauto.
  apply Nat.eqb_eq in E. subst j. eexists. split; [reflexivity|].
  unfold Server.drain_tts_queue. rewrite drain_loop_active.
  cbn [Server.is_active Server.set_websocket]. congruence.
Qed.

Lemma quiet_turn bg r e :
  Endpoint.quiet (bg, r) ->
  Endpoint.same_activity e (fst (Endpoint.turn app base64_decode bg r e))
  /\ snd (Endpoint.turn app base64_decode bg r e) = true.
Proof.
  intros Hq. unfold Endpoint.turn.
  assert (Hd : Endpoint.same_activity
                 e (Endpoint.run_background
                      base64_decode bg (Endpoint.drain_tts_queue e))).
  { eapply same_activity_trans;
      [apply drain_same_activity | apply run_background_same_activity]. }
  revert Hd.
  generalize (Endpoint.run_background
                base64_decode bg (Endpoint.drain_tts_queue e)).
  intros e1 Hd.
  destruct r as [| |[| | | | |]]; cbn [fst snd];
    try (split; [exact Hd | reflexivity]);
    try (exfalso; exact Hq).
  destruct (Endpoint.session e1); cbn [fst snd];
    [|split; [exact Hd | reflexivity]].
  split; [|reflexivity].
  eapply same_activity_trans; [exact Hd|].
  apply modify_same_activity. intros s.
  unfold Server.endpoint_media. rewrite handle_media_active.
  destruct (TTS.str_eqb _ _); reflexivity.
Qed.

End EndpointFacts.

Lemma created_session_is_active app cid sid pr gr ws :
  Server.is_active (LLMSetup.create_session app cid sid pr gr ws) = true.
Proof.
  unfold LLMSetup.create_session.
  destruct (LLMSetup.choose_llm _ _ _ _) as [llm greeting]. reflexivity.
Qed.

Lemma close_session_inactive s :
  Server.is_active (Server.close_session s) = false.
Proof.
  unfold Server.close_session.
  cbn [Server.is_active Server.set_tts Server.set_stt].
  destruct (Server.pending_response_task (Server.set_is_active false s))
    as [i|]; [|reflexivity].
  destruct (negb _); reflexivity.
Qed.

Section EndpointLoop.

Variable app : LLMSetup.AppState.
Variable base64_decode : PyStr.str -> option bytes.

Lemma open_under_same_activity sid i e e' :
  Endpoint.same_activity e e' ->
  Endpoint.open_under sid i e -> Endpoint.open_under sid i e'.
Proof.
  intros (A1 & A2 & A3 & A4 & A5) (Hg & s & Hs & Ha).
  unfold Endpoint.open_under. rewrite A1. split; [exact Hg|].
  destruct (A5 i s Hs) as (s' & Hs' & Ha').
  exists s'. split; [exact Hs' | congruence].
Qed.

Lemma streaming_same_activity e0 e e' :
  Endpoint.same_activity e e' ->
  Endpoint.streaming e0 e -> Endpoint.streaming e0 e'.
Proof.
  intros Hs. pose proof Hs as (A1 & A2 & A3 & A4 & A5).
  unfold Endpoint.streaming. rewrite A2, A3.
  destruct (Endpoint.stream_id e) as [sid|];
    destruct (Endpoint.session e) as [i|]; try tauto.
  - apply open_under_same_activity. exact Hs.
  - congruence.
Qed.

Lemma create_session_open cid sid pr gr e :
  Endpoint.open_under
    sid (length (Endpoint.heap e))
    (Endpoint.create_session app cid sid pr gr e).
Proof.
  unfold Endpoint.open_under, Endpoint.create_session.
  cbn [Endpoint.sessions Endpoint.heap]. split; [apply get_set_same|].
  eexists. split.
  - rewrite nth_error_app2 by apply Nat.le_refl.
    rewrite Nat.sub_diag. reflexivity.
  - apply created_session_is_active.
Qed.

Lemma close_current_streaming e0 e :
  Endpoint.streaming e0 e ->
  Endpoint.streaming e0 (Endpoint.close_current e)
  \/ Endpoint.closed (Endpoint.close_current e).
Proof.
  intros H. unfold Endpoint.close_current.
  destruct (Endpoint.stream_id e) as [[|c sid]|] eqn:Ei;
    try (left; exact H).
  unfold Endpoint.streaming in H. rewrite Ei in H.
  destruct (Endpoint.session e) as [i|] eqn:Es; [|contradiction].
  right. destruct H as (Hg & s & Hs & Ha).
  unfold Endpoint.close_session. rewrite Hg.
  exists c, sid, i, (Server.close_session s).
  cbn [Endpoint.stream_id Endpoint.session Endpoint.sessions Endpoint.heap].
  repeat split; try assumption.
  - apply get_del_same.
  - rewrite nth_error_modify, Nat.eqb_refl, Hs. reflexivity.
  - apply close_session_inactive.
Qed.

Lemma turn_streaming e0 bg r e :
  Endpoint.streaming e0 e ->
  let t := Endpoint.turn app base64_decode bg r e in
  if snd t then Endpoint.streaming e0 (fst t)
  else Endpoint.streaming e0 (fst t) \/ Endpoint.closed (fst t).
Proof.
  intros H. cbv zeta.
  assert (Hq : forall r', Endpoint.quiet (bg, r') ->
                 let t := Endpoint.turn app base64_decode bg r' e in
                 snd t = true /\ Endpoint.streaming e0 (fst t)).
  { intros r' Hq. destruct (quiet_turn app base64_decode bg r' e Hq)
      as [Hs Hgo].
    split; [exact Hgo|]. eapply streaming_same_activity; eassumption. }
  assert (Hd : Endpoint.streaming
                 e0 (Endpoint.run_background
                       base64_decode bg (Endpoint.drain_tts_queue e))).
  { eapply streaming_same_activity; [|exact H].
    eapply same_activity_trans;
      [apply drain_same_activity | apply run_background_same_activity]. }
  destruct r as [| |[| | | | |]];
    try (match goal with
         | |- context [Endpoint.turn _ _ _ ?r' _] =>
             destruct (Hq r' I) as [Hgo Hs]; rewrite Hgo; exact Hs
         end).
  - unfold Endpoint.turn. cbn [fst snd]. left. exact Hd.
  - unfold Endpoint.turn. cbn [fst snd].
    unfold Endpoint.streaming.
    pose proof (create_session_open
                  call_control_id stream_id prompt_reply greeting_reply
                  (Endpoint.run_background
                     base64_decode bg (Endpoint.drain_tts_queue e)))
      as Ho.
    exact Ho.
  - unfold Endpoint.turn. cbn [fst snd].
    apply close_current_streaming. exact Hd.
Qed.

Lemma loop_streaming e0 rs : forall e e',
  Endpoint.streaming e0 e ->
  Endpoint.loop app base64_decode rs e = (e', false) ->
  Endpoint.streaming e0 e' \/ Endpoint.closed e'.
Proof.
  induction rs as [|[bg r] rs IH]; intros e e' H Hl; [discriminate Hl|].
  cbn [Endpoint.loop fst snd] in Hl.
  pose proof (turn_streaming e0 bg r e H) as Ht. cbv zeta in Ht.
  destruct (Endpoint.turn app base64_decode bg r e) as [e1 go].
  cbn [fst snd] in Ht. destruct go.
  - eapply IH; eassumption.
  - inversion Hl; subst. exact Ht.
Qed.

Lemma loop_ends rs : forall e,
  Exists Endpoint.ends rs ->
  exists e', Endpoint.loop app base64_decode rs e = (e', false).
Proof.
  induction rs as [|[bg r] rs IH]; intros e Hx; [inversion Hx|].
  cbn [Endpoint.loop fst snd].
  destruct (Endpoint.turn app base64_decode bg r e) as [e1 go] eqn:Et.
  destruct go; [|eauto].
  apply IH. inversion Hx as [? ? He|]; subst; [|assumption].
  exfalso. unfold Endpoint.turn in Et.
  destruct He as [He|He]; cbn [snd] in He; subst r; discriminate Et.
Qed.

End EndpointLoop.

(** X23: the endpoint closes the stream it ends with.  Once a stop frame
    arrives or anything raises in the loop, [telnyx_websocket] returns, and
    then: if the last start frame named a stream, that stream is no longer
    registered and its session is inactive, whatever the sessions did
    meanwhile and whether the loop ended by a stop or by an exception; if it
    carried an empty stream id, its session is still registered and active;
    and if there was no start frame, the registry is as it was. *)
Theorem endpoint_closes_the_stream_it_ends_with :
  forall (app : LLMSetup.AppState)
         (base64_decode : PyStr.str -> option bytes)
         (rs : list (list (nat * Server.event) * Endpoint.received))
         (e0 : Endpoint.state),
    Endpoint.stream_id e0 = None ->
    Endpoint.session e0 = None ->
    Exists Endpoint.ends rs ->
    exists e,
      Endpoint.telnyx_websocket app base64_decode rs e0 = Some e
      /\ match Endpoint.stream_id e with
         | None =>
             Endpoint.session e = None
             /\ Endpoint.sessions e = Endpoint.sessions e0
         | Some [] =>
             exists i, Endpoint.session e = Some i
                       /\ Endpoint.open_under [] i e
         | Some (c :: sid) =>
             Dict.get (c :: sid) (Endpoint.sessions e) = None
             /\ exists i s,
                 Endpoint.session e = Some i
                 /\ nth_error (Endpoint.heap e) i = Some s
                 /\ Server.is_active s = false
         end.
Proof.
  intros app dec rs e0 Hi Hs Hx.
  destruct (loop_ends app dec rs e0 Hx) as [e1 Hl].
  unfold Endpoint.telnyx_websocket. rewrite Hl.
  eexists. split; [reflexivity|].
  assert (H0 : Endpoint.streaming e0 e0).
  { unfold Endpoint.streaming. rewrite Hi, Hs. reflexivity. }
  assert (H2 : Endpoint.streaming e0 (Endpoint.close_current e1)
               \/ Endpoint.closed (Endpoint.close_current e1)).
  { destruct (loop_streaming app dec e0 rs e0 e1 H0 Hl) as [H1|H1].
    - apply close_current_streaming. exact H1.
    - right. destruct H1 as (c & sid & i & s & A1 & A2 & A3 & A4 & A5).
      unfold Endpoint.close_current, Endpoint.close_session.
      rewrite A1, A3. exists c, sid, i, s. auto. }
  destruct H2 as [H2|H2].
  - assert (Hne : forall c sid,
               Endpoint.stream_id (Endpoint.close_current e1)
               <> Some (c :: sid)).
    { intros c sid. unfold Endpoint.close_current.
      destruct (Endpoint.stream_id e1) as [[|c' sid']|] eqn:E1;
        try (rewrite E1; discriminate).
      unfold Endpoint.close_session.
      unfold Endpoint.streaming in H2.
      unfold Endpoint.close_current in H2. rewrite E1 in H2.
      unfold Endpoint.close_session in H2.
      destruct (Dict.get (c' :: sid') (Endpoint.sessions e1)) eqn:Eg.
      - cbn [Endpoint.stream_id Endpoint.session] in H2. rewrite E1 in H2.
        destruct (Endpoint.session e1); [|contradiction].
        destruct H2 as [H2 _]. cbn [Endpoint.sessions] in H2.
        rewrite get_del_same in H2. discriminate.
      - rewrite E1 in H2.
        destruct (Endpoint.session e1); [|contradiction].
        destruct H2 as [H2 _]. congruence. }
    unfold Endpoint.streaming in H2.
    destruct (Endpoint.stream_id (Endpoint.close_current e1))
      as [[|c sid]|];
      destruct (Endpoint.session (Endpoint.close_current e1)) as [i|];
      try contradiction; eauto.
    exfalso. eapply Hne. reflexivity.
  - destruct H2 as (c & sid & i & s & A1 & A2 & A3 & A4 & A5).
    rewrite A1. eauto 6.
Qed.

Lemma endpoint_closes_the_stream_it_ends_with_witness :
  exists e,
    Endpoint.telnyx_websocket FixtureEndpoint.app Fixture.decode
                              FixtureEndpoint.restarted
                              FixtureEndpoint.socket
    = Some e
    /\ match Endpoint.stream_id e with
       | None =>
           Endpoint.session e = None
           /\ Endpoint.sessions e
              = Endpoint.sessions FixtureEndpoint.socket
       | Some [] =>
           exists i, Endpoint.session e = Some i
                     /\ Endpoint.open_under [] i e
       | Some (c :: sid) =>
           Dict.get (c :: sid) (Endpoint.sessions e) = None
           /\ exists i s,
               Endpoint.session e = Some i
               /\ nth_error (Endpoint.heap e) i = Some s
               /\ Server.is_active s = false
       end.
Proof.
  apply (endpoint_closes_the_stream_it_ends_with
           FixtureEndpoint.app Fixture.decode FixtureEndpoint.restarted
           FixtureEndpoint.socket).
  - reflexivity.
  - reflexivity.
  - do 3 apply Exists_cons_tl. apply Exists_cons_hd. right. reflexivity.
Defined.

Section EndpointReplaced.

Variable app : LLMSetup.AppState.
Variable base64_decode : PyStr.str -> option bytes.
Variable sid1 : PyStr.str.
Variable i0 : nat.

Lemma only_under_same_activity e e' :
  Endpoint.same_activity e e' ->
  Endpoint.only_under sid1 i0 e -> Endpoint.only_under sid1 i0 e'.
Proof.
  intros Hs [Ho Hk]. split.
  - eapply open_under_same_activity; eassumption.
  - destruct Hs as (A1 & _). rewrite A1. exact Hk.
Qed.

Lemma create_session_only_under cid sid pr gr e :
  sid <> sid1 ->
  Endpoint.only_under sid1 i0 e ->
  Endpoint.only_under sid1 i0
                      (Endpoint.create_session app cid sid pr gr e).
Proof.
  intros Hne [(Hg & s & Hs & Ha) Hk].
  assert (Hlt : i0 < length (Endpoint.heap e)).
  { apply nth_error_Some. congruence. }
  unfold Endpoint.only_under, Endpoint.open_under, Endpoint.create_session.
  cbn [Endpoint.sessions Endpoint.heap]. repeat split.
  - rewrite get_set_other by (intro; subst; contradiction). exact Hg.
  - exists s. split; [|exact Ha]. rewrite nth_error_app1 by exact Hlt.
    exact Hs.
  - intros k Hkne.
    destruct (list_eq_dec N.eq_dec k sid) as [->|Hks].
    + rewrite get_set_same. intros E. inversion E. lia.
    + rewrite get_set_other by exact Hks. apply Hk. exact Hkne.
Qed.

Lemma close_session_only_under sid e :
  sid <> sid1 ->
  Endpoint.only_under sid1 i0 e ->
  Endpoint.only_under sid1 i0 (Endpoint.close_session sid e).
Proof.
  intros Hne [(Hg & s & Hs & Ha) Hk]. unfold Endpoint.close_session.
  destruct (Dict.get sid (Endpoint.sessions e)) as [i|] eqn:Ei;
    [|split; [split; eauto | exact Hk]].
  assert (Hi : i <> i0).
  { intros ->. apply (Hk sid Hne). exact Ei. }
  unfold Endpoint.only_under, Endpoint.open_under.
  cbn [Endpoint.sessions Endpoint.heap]. repeat split.
  - rewrite get_del_other by (intro; subst; contradiction). exact Hg.
  - exists s. split; [|exact Ha]. rewrite nth_error_modify.
    destruct (Nat.eqb i i0) eqn:E; [|exact Hs].
    apply Nat.eqb_eq in E. contradiction.
  - intros k Hkne.
    destruct (list_eq_dec N.eq_dec k sid) as [->|Hks].
    + rewrite get_del_same. discriminate.
    + rewrite get_del_other by exact Hks. apply Hk. exact Hkne.
Qed.

Lemma close_current_only_under e :
  Endpoint.stream_id e <> Some sid1 ->
  Endpoint.only_under sid1 i0 e ->
  Endpoint.only_under sid1 i0 (Endpoint.close_current e)
  /\ Endpoint.stream_id (Endpoint.close_current e) <> Some sid1.
Proof.
  intros Hne Ho. unfold Endpoint.close_current.
  destruct (Endpoint.stream_id e) as [[|c sid]|] eqn:Ei;
    try (split; [exact Ho | rewrite Ei; exact Hne]).
  split.
  - apply close_session_only_under; [congruence | exact Ho].
  - unfold Endpoint.close_session.
    destruct (Dict.get _ _); cbn [Endpoint.stream_id]; rewrite Ei;
      exact Hne.
Qed.

Lemma turn_only_under bg r e :
  Endpoint.starts_other sid1 (bg, r) ->
  Endpoint.stream_id e <> Some sid1 ->
  Endpoint.only_under sid1 i0 e ->
  let t := Endpoint.turn app base64_decode bg r e in
  Endpoint.only_under sid1 i0 (fst t)
  /\ Endpoint.stream_id (fst t) <> Some sid1.
Proof.
  intros Hso Hne Ho. cbv zeta.
  assert (Hq : forall r', Endpoint.quiet (bg, r') ->
                 let t := Endpoint.turn app base64_decode bg r' e in
                 Endpoint.only_under sid1 i0 (fst t)
                 /\ Endpoint.stream_id (fst t) <> Some sid1).
  { intros r' Hq. destruct (quiet_turn app base64_decode bg r' e Hq)
      as [Hs _]. cbv zeta. split.
    - eapply only_under_same_activity; eassumption.
    - destruct Hs as (_ & A2 & _). rewrite A2. exact Hne. }
  assert (Hs : Endpoint.same_activity
                 e (Endpoint.run_background
                      base64_decode bg (Endpoint.drain_tts_queue e))).
  { eapply same_activity_trans;
      [apply drain_same_activity | apply run_background_same_activity]. }
  assert (Hd : Endpoint.only_under
                 sid1 i0 (Endpoint.run_background
                            base64_decode bg (Endpoint.drain_tts_queue e))).
  { eapply only_under_same_activity; eassumption. }
  assert (Hi : Endpoint.stream_id
                 (Endpoint.run_background
                    base64_decode bg (Endpoint.drain_tts_queue e))
               <> Some sid1).
  { destruct Hs as (_ & A2 & _). rewrite A2. exact Hne. }
  destruct r as [| |[| | | | |]];
    try (match goal with
         | |- context [Endpoint.turn _ _ _ ?r' _] => exact (Hq r' I)
         end).
  - unfold Endpoint.turn. cbn [fst snd]. split; assumption.
  - unfold Endpoint.turn. cbn [fst snd]. split.
    + apply create_session_only_under; [exact Hso | exact Hd].
    + unfold Endpoint.create_session. cbn [Endpoint.stream_id].
      intros E. inversion E. contradiction.
  - unfold Endpoint.turn. cbn [fst snd].
    apply close_current_only_under; assumption.
Qed.

Lemma loop_only_under rs : forall e,
  Forall (Endpoint.starts_other sid1) rs ->
  Endpoint.stream_id e <> Some sid1 ->
  Endpoint.only_under sid1 i0 e ->
  let l := Endpoint.loop app base64_decode rs e in
  Endpoint.only_under sid1 i0 (fst l)
  /\ Endpoint.stream_id (fst l) <> Some sid1.
Proof.
  induction rs as [|[bg r] rs IH]; intros e Hf Hne Ho; [split; assumption|].
  inversion Hf as [|? ? Hr Hrs]; subst.
  cbv zeta. cbn [Endpoint.loop fst snd].
  pose proof (turn_only_under bg r e Hr Hne Ho) as Ht. cbv zeta in Ht.
  destruct (Endpoint.turn app base64_decode bg r e) as [e1 go].
  cbn [fst snd] in Ht. destruct Ht as [Ht1 Ht2].
  destruct go; [|split; assumption].
  apply IH; assumption.
Qed.

Lemma quiet_loop rs : forall e,
  Forall Endpoint.quiet rs ->
  Endpoint.same_activity e (fst (Endpoint.loop app base64_decode rs e))
  /\ snd (Endpoint.loop app base64_decode rs e) = true.
Proof.
  induction rs as [|[bg r] rs IH]; intros e Hf.
  - split; [apply same_activity_refl | reflexivity].
  - inversion Hf as [|? ? Hr Hrs]; subst.
    cbn [Endpoint.loop fst snd].
    destruct (quiet_turn app base64_decode bg r e Hr) as [Hs Hgo].
    destruct (Endpoint.turn app base64_decode bg r e) as [e1 go].
    cbn [fst snd] in *. subst go.
    destruct (IH e1 Hrs) as [Hs' Hgo'].
    split; [eapply same_activity_trans; eassumption | exact Hgo'].
Qed.

Lemma loop_app rs1 : forall rs2 e,
  snd (Endpoint.loop app base64_decode rs1 e) = true ->
  Endpoint.loop app base64_decode (rs1 ++ rs2) e
  = Endpoint.loop app base64_decode rs2
                  (fst (Endpoint.loop app base64_decode rs1 e)).
Proof.
  induction rs1 as [|[bg r] rs1 IH]; intros rs2 e H; [reflexivity|].
  cbn [List.app Endpoint.loop fst snd] in *.
  destruct (Endpoint.turn app base64_decode bg r e) as [e1 go].
  destruct go; [apply IH; exact H | discriminate H].
Qed.

End EndpointReplaced.

(** X24: a stream that is replaced is never closed.  When a second start
    frame with another stream id arrives on a socket whose stream is still
    running, the endpoint forgets the first stream: whatever follows (as
    long as no later start frame reuses the first id), and however the
    endpoint ends, the first session is still registered and still active
    after [telnyx_websocket] has returned. *)
Theorem replaced_stream_is_never_closed :
  forall (app : LLMSetup.AppState)
         (base64_decode : PyStr.str -> option bytes)
         (sid1 cid1 sid2 cid2 : PyStr.str)
         (pr1 gr1 pr2 gr2 : LLMSetup.reply)
         (bg1 bg2 : list (nat * Server.event))
         (between rest : list (list (nat * Server.event)
                               * Endpoint.received))
         (e0 e : Endpoint.state),
    Endpoint.accepted e0 ->
    sid2 <> sid1 ->
    Forall Endpoint.quiet between ->
    Forall (Endpoint.starts_other sid1) rest ->
    Endpoint.telnyx_websocket
      app base64_decode
      ((bg1, Endpoint.Frame (Endpoint.Start sid1 cid1 pr1 gr1))
         :: between
         ++ (bg2, Endpoint.Frame (Endpoint.Start sid2 cid2 pr2 gr2))
         :: rest)
      e0
    = Some e ->
    Endpoint.open_under sid1 (length (Endpoint.heap e0)) e.
Proof.
  intros app dec sid1 cid1 sid2 cid2 pr1 gr1 pr2 gr2 bg1 bg2 between rest
         e0 e (Hi & Hs & Hvalid) Hne Hq Hrest Hrun.
  set (i0 := length (Endpoint.heap e0)).
  unfold Endpoint.telnyx_websocket in Hrun.
  cbn [Endpoint.loop fst snd] in Hrun.
  unfold Endpoint.turn at 1 in Hrun.
  (* the first start frame *)
  assert (H0 : Endpoint.same_activity
                 e0 (Endpoint.run_background
                       dec bg1 (Endpoint.drain_tts_queue e0))).
  { eapply same_activity_trans;
      [apply drain_same_activity | apply run_background_same_activity]. }
  revert Hrun H0.
  generalize (Endpoint.run_background
                dec bg1 (Endpoint.drain_tts_queue e0)).
  intros e0' Hrun H0.
  assert (HA : Endpoint.only_under
                 sid1 i0 (Endpoint.create_session app cid1 sid1 pr1 gr1 e0')).
  { destruct H0 as (A1 & A2 & A3 & A4 & A5). split.
    - subst i0. rewrite <- A4. apply create_session_open.
    - intros k Hk. unfold Endpoint.create_session.
      cbn [Endpoint.sessions]. rewrite get_set_other by exact Hk.
      rewrite A1. intros E. apply Hvalid in E. subst i0. lia. }
  revert Hrun HA.
  generalize (Endpoint.create_session app cid1 sid1 pr1 gr1 e0').
  intros eA Hrun HA.
  (* the quiet frames *)
  destruct (quiet_loop app dec between eA Hq) as [HsB HgoB].
  rewrite (loop_app app dec between _ eA HgoB) in Hrun.
  assert (HB : Endpoint.only_under
                 sid1 i0 (fst (Endpoint.loop app dec between eA))).
  { eapply only_under_same_activity; eassumption. }
  revert Hrun HB. generalize (fst (Endpoint.loop app dec between eA)).
  clear HsB HgoB. intros eB Hrun HB.
  (* the second start frame *)
  cbn [Endpoint.loop fst snd] in Hrun.
  unfold Endpoint.turn at 1 in Hrun.
  assert (HsB : Endpoint.same_activity
                  eB (Endpoint.run_background
                        dec bg2 (Endpoint.drain_tts_queue eB))).
  { eapply same_activity_trans;
      [apply drain_same_activity | apply run_background_same_activity]. }
  assert (HB' : Endpoint.only_under
                  sid1 i0 (Endpoint.run_background
                             dec bg2 (Endpoint.drain_tts_queue eB))).
  { eapply only_under_same_activity; eassumption. }
  revert Hrun HB'.
  generalize (Endpoint.run_background
                dec bg2 (Endpoint.drain_tts_queue eB)).
  clear HsB. intros eB' Hrun HB'.
  assert (HC : Endpoint.only_under
                 sid1 i0 (Endpoint.create_session app cid2 sid2 pr2 gr2 eB')).
  { apply create_session_only_under; assumption. }
  assert (HCi : Endpoint.stream_id
                  (Endpoint.create_session app cid2 sid2 pr2 gr2 eB')
                <> Some sid1).
  { unfold Endpoint.create_session. cbn [Endpoint.stream_id].
    intros E. inversion E. contradiction. }
  revert Hrun HC HCi.
  generalize (Endpoint.create_session app cid2 sid2 pr2 gr2 eB').
  intros eC Hrun HC HCi.
  (* the rest of the loop, and the [finally] *)
  pose proof (loop_only_under app dec sid1 i0 rest eC Hrest HCi HC) as HD.
  cbv zeta in HD.
  destruct (Endpoint.loop app dec rest eC) as [eD go].
  cbn [fst snd] in *. destruct HD as [HD HDi].
  destruct go; [discriminate Hrun|].
  inversion Hrun; subst e.
  apply (close_current_only_under sid1 i0 eD HDi HD).
Qed.

Lemma replaced_stream_is_never_closed_witness :
  exists e,
    Endpoint.telnyx_websocket FixtureEndpoint.app Fixture.decode
                              FixtureEndpoint.restarted
                              FixtureEndpoint.socket
    = Some e
    /\ Endpoint.open_under (PyStr.lit "stream-1") 0 e.
Proof.
  eexists. split; [reflexivity|].
  apply (replaced_stream_is_never_closed
           FixtureEndpoint.app Fixture.decode
           (PyStr.lit "stream-1") (PyStr.lit "v3:call")
           (PyStr.lit "stream-2") (PyStr.lit "v3:call")
           None None None None [] []
           [([], Endpoint.Timeout)] [([], Endpoint.Frame Endpoint.Stop)]
           FixtureEndpoint.socket).
  - repeat split. intros k i H. discriminate H.
  - intros H. vm_compute in H. discriminate H.
  - repeat constructor.
  - repeat constructor.
  - reflexivity.
Defined.
